(** * GreenForge agent core: conversation memory, secret firewall,
      model router, delegated-credential refresh and the agent loop.

    A shallow embedding of the Go sources
      - package agent, memory   (Memory.Add, Get, Clear, SessionCount, MessageCount)
      - agent/runtime.go        (Runtime.ProcessMessage and its helpers)
      - model/firewall.go       (Firewall.ScrubText, ScrubRequest, ContainsSecret,
                                 AddPattern)
      - model/router.go         (NewRouter, Router.Complete, StreamComplete,
                                 selectProvider, resolveByPolicy, ListProviders,
                                 ListModels, SetDefaultModel, GetDefaultModel)
      - model/anthropic.go      (NewAnthropicProvider, refreshIfNeeded, Available,
                                 setAuthHeaders, Models, resolveModel and the
                                 message conversion of Complete)
    together with the parts of the Go standard library they call
    (unicode/utf8 decoding, regexp leftmost-first matching and
    ReplaceAllStringFunc, path/filepath.Match, strings.SplitN/IndexAny),
    written after the library's own algorithms.

    Go strings are byte sequences; they are modelled by [string]
    (a list of 8-bit [ascii]).  Go [int]/[int64] values are modelled by [Z],
    with wrap-around written out where an expression can overflow.
    Everything outside the process (providers, the token endpoint, the tool
    executor, the clock, the observer's callbacks) acts on an abstract world
    that is threaded through the calls.

    The file has three parts: the program, the notions used to state its
    properties, and the properties with their proofs. *)

From Stdlib Require Import ZArith NArith QArith.QArith_base Ascii String List Bool Lia.
From Stdlib Require Import DecimalString.
From stdpp Require Import base option list strings gmap.

Local Open Scope Z_scope.
Local Open Scope string_scope.
Local Open Scope list_scope.

(* ===================================================================== *)
(** ** Go strings: bytes, slicing, package [strings] and [unicode/utf8]   *)
(* ===================================================================== *)

Module GoString.

(** The byte value of a character. *)
Definition byte (c : ascii) : N := N_of_ascii c.

(** The double quote character (code 34). *)
Definition dquote : ascii := "034"%char.

(** [s[i:]] for [i <= len(s)]. *)
Fixpoint from (i : nat) (s : string) : string :=
  match i, s with
  | O, _ => s
  | S i', String _ s' => from i' s'
  | S _, EmptyString => EmptyString
  end.

(** [s[:i]] for [i <= len(s)]. *)
Fixpoint upto (i : nat) (s : string) : string :=
  match i, s with
  | O, _ => EmptyString
  | S i', String c s' => String c (upto i' s')
  | S _, EmptyString => EmptyString
  end.

(** [s[i:j]] for [i <= j <= len(s)]. *)
Definition slice (i j : nat) (s : string) : string :=
  upto (j - i) (from i s).

(** [strings.HasPrefix(s, p)]. *)
Fixpoint HasPrefix (s p : string) : bool :=
  match p, s with
  | EmptyString, _ => true
  | String c p', String d s' => if Ascii.eqb c d then HasPrefix s' p' else false
  | String _ _, EmptyString => false
  end.

(** [strings.Contains(s, sub)]. *)
Fixpoint Contains (s sub : string) : bool :=
  HasPrefix s sub ||
  match s with
  | EmptyString => false
  | String _ s' => Contains s' sub
  end.

(** Membership of a byte in a set of ASCII characters. *)
Fixpoint mem (c : ascii) (chars : string) : bool :=
  match chars with
  | EmptyString => false
  | String d chars' => Ascii.eqb c d || mem c chars'
  end.

(** [strings.IndexAny(s, chars)] for ASCII [chars]: the index of the first
    byte of [s] that is one of [chars], [None] standing for [-1]. *)
Fixpoint IndexAny (s chars : string) : option nat :=
  match s with
  | EmptyString => None
  | String c s' =>
      if mem c chars then Some O
      else match IndexAny s' chars with
           | Some i => Some (S i)
           | None => None
           end
  end.

(** [strings.SplitN(s, sep, 2)[0]] for a one-byte separator: the part of
    [s] before the first [sep], or all of [s] when [sep] does not occur. *)
Fixpoint SplitN2_head (s : string) (sep : ascii) : string :=
  match s with
  | EmptyString => EmptyString
  | String c s' => if Ascii.eqb c sep then EmptyString else String c (SplitN2_head s' sep)
  end.

(** [fmt.Sprintf("%d", n)]. *)
Definition itoa (n : Z) : string := NilZero.string_of_int (Z.to_int n).

(** [utf8.DecodeRuneInString]: the first code point of [s] and its width
    in bytes.  An empty string gives [(RuneError, 0)]; an invalid or short
    encoding gives [(RuneError, 1)]. *)
Definition RuneError : N := 65533%N.

Definition inrange (lo hi b : N) : bool := (lo <=? b)%N && (b <=? hi)%N.

(** A continuation byte in [lo..hi] contributes its low six bits. *)
Definition cont (lo hi : N) (s : string) : option (N * string) :=
  match s with
  | String c s' => if inrange lo hi (byte c) then Some (N.land (byte c) 63, s') else None
  | EmptyString => None
  end.

Definition DecodeRuneInString (s : string) : N * nat :=
  match s with
  | EmptyString => (RuneError, O)
  | String c0 s1 =>
      let b0 := byte c0 in
      if (b0 <? 128)%N then (b0, 1%nat)
      else if inrange 194 223 b0 then
        (* two bytes *)
        match cont 128 191 s1 with
        | Some (x1, _) => (N.lor (N.shiftl (N.land b0 31) 6) x1, 2%nat)
        | None => (RuneError, 1%nat)
        end
      else if inrange 224 239 b0 then
        (* three bytes; E0 excludes overlong forms, ED excludes surrogates *)
        let lo := if (b0 =? 224)%N then 160%N else 128%N in
        let hi := if (b0 =? 237)%N then 159%N else 191%N in
        match cont lo hi s1 with
        | Some (x1, s2) =>
            match cont 128 191 s2 with
            | Some (x2, _) =>
                (N.lor (N.shiftl (N.land b0 15) 12) (N.lor (N.shiftl x1 6) x2), 3%nat)
            | None => (RuneError, 1%nat)
            end
        | None => (RuneError, 1%nat)
        end
      else if inrange 240 244 b0 then
        (* four bytes; F0 excludes overlong forms, F4 stops at U+10FFFF *)
        let lo := if (b0 =? 240)%N then 144%N else 128%N in
        let hi := if (b0 =? 244)%N then 143%N else 191%N in
        match cont lo hi s1 with
        | Some (x1, s2) =>
            match cont 128 191 s2 with
            | Some (x2, s3) =>
                match cont 128 191 s3 with
                | Some (x3, _) =>
                    (N.lor (N.shiftl (N.land b0 7) 18)
                       (N.lor (N.shiftl x1 12) (N.lor (N.shiftl x2 6) x3)), 4%nat)
                | None => (RuneError, 1%nat)
                end
            | None => (RuneError, 1%nat)
            end
        | None => (RuneError, 1%nat)
        end
      else (RuneError, 1%nat)
  end.

End GoString.

(* ===================================================================== *)
(** ** Package [regexp]: leftmost-first matching and replacement          *)
(* ===================================================================== *)

Module Regexp.
Import GoString.

(** A character class: code-point ranges, possibly negated.  [fold] is the
    case-insensitive flag [(?i)] in force where the class was parsed. *)
Record class := Class {
  fold : bool;
  negated : bool;
  ranges : list (N * N)
}.

(** The syntax used by the firewall's patterns.  Capture groups do not
    change which text matches and are not represented. *)
Inductive regex :=
| Empty                       (* matches the empty string *)
| Char (c : class)            (* one code point of the class *)
| Cat (r1 r2 : regex)         (* r1 r2 *)
| Alt (r1 r2 : regex)         (* r1|r2, preferring r1 *)
| Star (r : regex).           (* r*, greedy *)

(** [r?], [r+], [r{n}] and [r{n,}], all greedy, expanded the way
    regexp/syntax simplifies them. *)
Definition Quest (r : regex) : regex := Alt r Empty.
Definition Plus (r : regex) : regex := Cat r (Star r).
Fixpoint Repeat (n : nat) (r : regex) : regex :=
  match n with
  | O => Empty
  | S O => r
  | S n' => Cat r (Repeat n' r)
  end.
Definition AtLeast (n : nat) (r : regex) : regex := Cat (Repeat n r) (Star r).

Fixpoint seq (rs : list regex) : regex :=
  match rs with
  | [] => Empty
  | [r] => r
  | r :: rs' => Cat r (seq rs')
  end.

Fixpoint alts (r : regex) (rs : list regex) : regex :=
  match rs with
  | [] => r
  | r' :: rs' => Alt r (alts r' rs')
  end.

(** Simple case folding (unicode.SimpleFold orbits) restricted to the
    orbits that meet ASCII: the letters, with U+212A KELVIN SIGN in the
    orbit of k and U+017F LATIN SMALL LETTER LONG S in the orbit of s. *)
Definition foldOrbit (r : N) : list N :=
  if inrange 97 122 r then
    r :: (r - 32)%N ::
      (if (r =? 107)%N then [8490%N] else if (r =? 115)%N then [383%N] else [])
  else if inrange 65 90 r then
    r :: (r + 32)%N ::
      (if (r =? 75)%N then [8490%N] else if (r =? 83)%N then [383%N] else [])
  else if (r =? 8490)%N then [r; 75%N; 107%N]
  else if (r =? 383)%N then [r; 83%N; 115%N]
  else [r].

Definition inRanges (rs : list (N * N)) (r : N) : bool :=
  existsb (fun '(lo, hi) => inrange lo hi r) rs.

(** Folding extends the listed set before negation is applied. *)
Definition classMatches (c : class) (r : N) : bool :=
  xorb (negated c)
       (if fold c then existsb (inRanges (ranges c)) (foldOrbit r)
        else inRanges (ranges c) r).

(** The loop of a starred sub-expression: [body] is tried first, and the
    loop goes round again only when [body] has consumed input; otherwise,
    and when [body] fails, the loop is left.  [n] bounds the rounds; the
    length of [s] is enough, since every round consumes input. *)
Fixpoint star {X : Type} (body : string -> (string -> option X) -> option X)
    (n : nat) (s : string) (k : string -> option X) : option X :=
  match n with
  | O => k s
  | S n' =>
      match body s (fun s' =>
               if (String.length s' <? String.length s)%nat
               then star body n' s' k else None) with
      | Some x => Some x
      | None => k s
      end
  end.

(** Backtracking search in priority order: [run r s k] tries the ways [r]
    can match a prefix of [s], most preferred first, and returns the first
    one accepted by the continuation [k] on the remaining text. *)
Fixpoint run {X : Type} (r : regex) (s : string) (k : string -> option X) : option X :=
  match r with
  | Empty => k s
  | Char c =>
      match s with
      | EmptyString => None
      | String _ _ =>
          let '(rune, width) := DecodeRuneInString s in
          if classMatches c rune then k (from width s) else None
      end
  | Cat r1 r2 => run r1 s (fun s' => run r2 s' k)
  | Alt r1 r2 =>
      match run r1 s k with
      | Some x => Some x
      | None => run r2 s k
      end
  | Star r' => star (fun s' k' => run r' s' k') (String.length s) s k
  end.

(** The leftmost-first match of [re] anchored at the start of [s]: its
    length in bytes. *)
Definition matchAt (re : regex) (s : string) : option nat :=
  match run re s Some with
  | Some rest => Some (String.length s - String.length rest)%nat
  | None => None
  end.

(** Unanchored search: try every code-point boundary from [pos] on, the
    empty suffix included.  [s] is the text from [pos]. *)
Fixpoint search (fuel : nat) (re : regex) (s : string) (pos : nat) : option (nat * nat) :=
  match matchAt re s with
  | Some n => Some (pos, (pos + n)%nat)
  | None =>
      match fuel, s with
      | S fuel', String _ _ =>
          let width := snd (DecodeRuneInString s) in
          search fuel' re (from width s) (pos + width)%nat
      | _, _ => None
      end
  end.

(** [re.doExecute(src, pos)]: the first match at or after [pos], as the
    pair of its start and end offsets. *)
Definition doExecute (re : regex) (src : string) (pos : nat) : option (nat * nat) :=
  search (String.length src) re (from pos src) pos.

(** [re.MatchString(s)]. *)
Definition MatchString (re : regex) (s : string) : bool :=
  match doExecute re s 0 with
  | Some _ => true
  | None => false
  end.

(** The loop of [Regexp.replaceAll]. *)
Fixpoint replaceAllLoop (fuel : nat) (re : regex) (repl : string -> string)
    (src : string) (lastMatchEnd searchPos : nat) (buf : string) : string :=
  match fuel with
  | O => buf +:+ from lastMatchEnd src
  | S fuel' =>
      if (searchPos <=? String.length src)%nat then
        match doExecute re src searchPos with
        | None => buf +:+ from lastMatchEnd src
        | Some (a0, a1) =>
            (* copy the unmatched text before this match *)
            let buf1 := buf +:+ slice lastMatchEnd a0 src in
            (* no replacement for an empty match right after another match *)
            let buf2 :=
              if (lastMatchEnd <? a1)%nat || (a0 =? 0)%nat
              then buf1 +:+ repl (slice a0 a1 src) else buf1 in
            (* advance past the match, and by at least one character *)
            let width := snd (DecodeRuneInString (from searchPos src)) in
            let searchPos' :=
              if (a1 <? searchPos + width)%nat then (searchPos + width)%nat
              else if (a1 <? searchPos + 1)%nat then (searchPos + 1)%nat
              else a1 in
            replaceAllLoop fuel' re repl src a1 searchPos' buf2
        end
      else buf +:+ from lastMatchEnd src
  end.

(** [re.ReplaceAllStringFunc(src, repl)].  The search position grows by at
    least one per round and the loop stops once it passes [len(src)]. *)
Definition ReplaceAllStringFunc (re : regex) (src : string) (repl : string -> string) : string :=
  replaceAllLoop (String.length src + 2) re repl src 0 0 "".

(** *** Building blocks for writing patterns down *)

Definition rng (lo hi : ascii) : N * N := (byte lo, byte hi).
Definition one (c : ascii) : N * N := (byte c, byte c).

(** A literal byte, and a literal ASCII string. *)
Definition chr (fold : bool) (c : ascii) : regex := Char (Class fold false [one c]).
Fixpoint lit (fold : bool) (s : string) : regex :=
  match s with
  | EmptyString => Empty
  | String c EmptyString => chr fold c
  | String c s' => Cat (chr fold c) (lit fold s')
  end.

(** Perl class [\s]: tab, newline, form feed, carriage return, space. *)
Definition space : list (N * N) :=
  [(9%N, 10%N); (12%N, 13%N); (32%N, 32%N)].

End Regexp.

(* ===================================================================== *)
(** ** Go errors                                                          *)
(* ===================================================================== *)

Module GoError.

(** An [error] value: made by [errors.New] / [fmt.Errorf] without [%w],
    or by [fmt.Errorf] with [%w], which keeps the wrapped cause.  [text]
    is the fully formatted message. *)
Inductive error :=
| errorString (text : string)
| wrapError (text : string) (cause : error).

(** [err.Error()]. *)
Definition Error (e : error) : string :=
  match e with
  | errorString text => text
  | wrapError text _ => text
  end.

(** [fmt.Errorf(prefix + "%w", err)]. *)
Definition Errorf_w (prefix : string) (err : error) : error :=
  wrapError (prefix +:+ Error err) err.

(** [errors.Unwrap(err)]. *)
Definition Unwrap (e : error) : option error :=
  match e with
  | errorString _ => None
  | wrapError _ cause => Some cause
  end.

End GoError.

(* ===================================================================== *)
(** ** Package [path/filepath]: [Match] (Unix, separator [/])             *)
(* ===================================================================== *)

Module filepath.
Import GoString.

Definition Separator : ascii := "/".
Definition backslash : ascii := "092"%char.

(** [scanChunk] after the leading stars are stripped: the chunk up to the
    next star outside a bracket expression, and the rest of the pattern. *)
Fixpoint scan (pattern : string) (inrange : bool) : string * string :=
  match pattern with
  | EmptyString => (EmptyString, EmptyString)
  | String c p' =>
      if Ascii.eqb c backslash then
        match p' with
        | String d p'' =>
            let '(chunk, rest) := scan p'' inrange in (String c (String d chunk), rest)
        | EmptyString => (String c EmptyString, EmptyString)
        end
      else if Ascii.eqb c "[" then
        let '(chunk, rest) := scan p' true in (String c chunk, rest)
      else if Ascii.eqb c "]" then
        let '(chunk, rest) := scan p' false in (String c chunk, rest)
      else if Ascii.eqb c "*" then
        if inrange then let '(chunk, rest) := scan p' inrange in (String c chunk, rest)
        else (EmptyString, pattern)
      else
        let '(chunk, rest) := scan p' inrange in (String c chunk, rest)
  end.

Fixpoint stripStars (pattern : string) (star : bool) : bool * string :=
  match pattern with
  | String c p' => if Ascii.eqb c "*" then stripStars p' true else (star, pattern)
  | EmptyString => (star, pattern)
  end.

(** [scanChunk(pattern)]: (star, chunk, rest). *)
Definition scanChunk (pattern : string) : bool * string * string :=
  let '(star, p) := stripStars pattern false in
  let '(chunk, rest) := scan p false in
  (star, chunk, rest).

(** [getEsc(chunk)]: one possibly escaped character of a bracket
    expression and the chunk after it; [None] is ErrBadPattern. *)
Definition getEsc (chunk : string) : option (N * string) :=
  match chunk with
  | EmptyString => None
  | String c _ =>
      if Ascii.eqb c "-" || Ascii.eqb c "]" then None
      else
        let chunk1 := if Ascii.eqb c backslash then from 1 chunk else chunk in
        match chunk1 with
        | EmptyString => None
        | String _ _ =>
            let '(r, n) := DecodeRuneInString chunk1 in
            let nchunk := from n chunk1 in
            if (r =? RuneError)%N && (n =? 1)%nat then None
            else match nchunk with
                 | EmptyString => None
                 | String _ _ => Some (r, nchunk)
                 end
        end
  end.

(** The range-parsing loop of a bracket expression: the chunk after the
    closing bracket and whether [r] fell in one of the ranges. *)
Fixpoint ranges (fuel : nat) (chunk : string) (r : N) (nrange : nat) (matched : bool)
  : option (string * bool) :=
  match fuel with
  | O => None
  | S fuel' =>
      match chunk, nrange with
      | String "]" chunk', S _ => Some (chunk', matched)
      | _, _ =>
          match getEsc chunk with
          | None => None
          | Some (lo, chunk1) =>
              match chunk1 with
              | String "-" chunk2 =>
                  match getEsc chunk2 with
                  | None => None
                  | Some (hi, chunk3) =>
                      ranges fuel' chunk3 r (S nrange) (matched || inrange lo hi r)
                  end
              | _ => ranges fuel' chunk1 r (S nrange) (matched || inrange lo lo r)
              end
          end
      end
  end.

Inductive chunkResult :=
| BadPattern                 (* err = ErrBadPattern *)
| Failed                     (* ok = false, err = nil *)
| Rest (s : string).         (* ok = true, the remainder of s *)

(** [matchChunk(chunk, s)].  After the match has failed the loop goes on
    checking that the chunk is well formed, without reading [s]. *)
Fixpoint matchChunkLoop (fuel : nat) (chunk s : string) (failed : bool) : chunkResult :=
  match fuel, chunk with
  | _, EmptyString => if failed then Failed else Rest s
  | O, _ => BadPattern
  | S fuel', String c chunk' =>
      let failed := failed || (String.length s =? 0)%nat in
      if Ascii.eqb c "[" then
        let '(r, s1) :=
          if failed then (0%N, s)
          else let '(r, n) := DecodeRuneInString s in (r, from n s) in
        let '(negated, chunk1) :=
          match chunk' with
          | String "^" chunk'' => (true, chunk'')
          | _ => (false, chunk')
          end in
        match ranges (S (String.length chunk1)) chunk1 r 0 false with
        | None => BadPattern
        | Some (chunk2, matched) =>
            matchChunkLoop fuel' chunk2 s1 (failed || Bool.eqb matched negated)
        end
      else if Ascii.eqb c "?" then
        if failed then matchChunkLoop fuel' chunk' s failed
        else
          let isSep := match s with String d _ => Ascii.eqb d Separator | _ => false end in
          let n := snd (DecodeRuneInString s) in
          matchChunkLoop fuel' chunk' (from n s) isSep
      else
        (* a backslash makes the next byte literal *)
        let lit := if Ascii.eqb c backslash then chunk' else chunk in
        match lit with
        | EmptyString => BadPattern
        | String l chunk1 =>
            if failed then matchChunkLoop fuel' chunk1 s failed
            else
              let differs := match s with String d _ => negb (Ascii.eqb l d) | _ => true end in
              matchChunkLoop fuel' chunk1 (from 1 s) differs
        end
  end.

Definition matchChunk (chunk s : string) : chunkResult :=
  matchChunkLoop (String.length chunk) chunk s false.

(** The inner loop of [Match] for a chunk preceded by a star: skip
    [i+1] bytes of [name], never past a separator.  The result is the
    name to go on with, [inl false] for no match, [inl true] for a bad
    pattern. *)
Fixpoint skipStar (chunk name : string) (lastChunk : bool) : bool + string :=
  match name with
  | EmptyString => inl false
  | String c name' =>
      if Ascii.eqb c Separator then inl false
      else match matchChunk chunk name' with
           | Rest t =>
               if lastChunk && (0 <? String.length t)%nat
               then skipStar chunk name' lastChunk
               else inr t
           | BadPattern => inl true
           | Failed => skipStar chunk name' lastChunk
           end
  end.

(** [Match(pattern, name)]: [Some matched], or [None] where the loop meets
    a malformed chunk (ErrBadPattern).  Go also checks the rest of the
    pattern for syntax before it returns false; that check only turns a
    false into an error and is left out, as the router drops the error. *)
Fixpoint MatchLoop (fuel : nat) (pattern name : string) : option bool :=
  match pattern with
  | EmptyString => Some (String.length name =? 0)%nat
  | String _ _ =>
      let '(star, chunk, rest) := scanChunk pattern in
      if star && (String.length chunk =? 0)%nat then
        (* a trailing star matches the rest unless it has a separator *)
        Some (negb (Contains name (String Separator EmptyString)))
      else
        match fuel with
        | O => Some false
        | S fuel' =>
            let lastChunk := (String.length rest =? 0)%nat in
            let fallback (bad : bool) :=
              if bad then None
              else if star then
                match skipStar chunk name lastChunk with
                | inr t => MatchLoop fuel' rest t
                | inl true => None
                | inl false => Some false
                end
              else Some false in
            match matchChunk chunk name with
            | Rest t =>
                if (String.length t =? 0)%nat || negb lastChunk
                then MatchLoop fuel' rest t
                else fallback false
            | BadPattern => fallback true
            | Failed => fallback false
            end
        end
  end.

(** Every round removes a non-empty chunk from the pattern. *)
Definition Match (pattern name : string) : option bool :=
  MatchLoop (String.length pattern) pattern name.

End filepath.

(* ===================================================================== *)
(** ** Package [model]: wire types, secret firewall, router, credentials   *)
(* ===================================================================== *)

Module model.
Import GoString GoError Regexp.

(** An [interface{}] value carried in a tool input or schema, by its JSON
    text. *)
Definition JSONValue := string.

Record ToolCall := {
  ToolCall_ID : string;
  ToolCall_Name : string;
  ToolCall_Input : gmap string JSONValue
}.

Record ToolDef := {
  ToolDef_Name : string;
  ToolDef_Description : string;
  ToolDef_Schema : option JSONValue
}.

Record Usage := {
  Usage_InputTokens : Z;
  Usage_OutputTokens : Z
}.

Record Message := {
  Message_Role : string;
  Message_Content : string;
  Message_ToolCalls : list ToolCall;
  Message_ToolCallID : string
}.

(** [Temperature] is a float64 in the source; no arithmetic is done on
    it here and it is carried as a rational. *)
Record Request := {
  Request_Messages : list Message;
  Request_Tools : list ToolDef;
  Request_MaxTokens : Z;
  Request_Temperature : Q;
  Request_Model : string;
  Request_WorkingDir : string
}.

Record Response := {
  Response_Content : string;
  Response_ToolCalls : list ToolCall;
  Response_Model : string;
  Response_Usage : Usage;
  Response_FinishReason : string
}.

Record StreamChunk := {
  StreamChunk_Content : string;
  StreamChunk_ToolCalls : list ToolCall;
  StreamChunk_Done : bool
}.

(** *** firewall.go *)

Record Firewall := {
  patterns : list regex;
  keywords : list string
}.

(** Character classes of the default patterns.  [ci] is the [(?i)] flag. *)
Definition word_ (ci : bool) : regex :=          (* [A-Za-z0-9_\-] *)
  Char (Class ci false [rng "A" "Z"; rng "a" "z"; rng "0" "9"; one "_"; one "-"]).
Definition bearerChar : regex :=                 (* (?i)[A-Za-z0-9_\-\.] *)
  Char (Class true false
          [rng "A" "Z"; rng "a" "z"; rng "0" "9"; one "_"; one "-"; one "."]).
Definition ws (ci : bool) : regex :=             (* \s *)
  Char (Class ci false space).
Definition sep (ci : bool) : regex :=            (* [:=] *)
  Char (Class ci false [one ":"; one "="]).
Definition quote (ci : bool) : regex :=          (* ['DQ], DQ the double quote *)
  Char (Class ci false [one "'"; one dquote]).
Definition value (ci : bool) : regex :=          (* [^\s'DQ] *)
  Char (Class ci true (space ++ [one "'"; one dquote])).
Definition dashOrUnderscore (ci : bool) : regex := (* [_-] *)
  Char (Class ci false [one "_"; one "-"]).

(** The tail shared by the assignment patterns:
    \s*[:=]\s*['DQ]?(VALUE)['DQ]? *)
Definition assignment (ci : bool) (val : regex) : list regex :=
  [Star (ws ci); sep ci; Star (ws ci); Quest (quote ci); val; Quest (quote ci)].

(** The thirteen entries of [defaultPatterns], each as regexp.Compile
    parses it (DQ stands for the double quote character). *)

(* (?i)(api[_-]?key|apikey)\s*[:=]\s*['DQ]?([A-Za-z0-9_\-]{20,})['DQ]? *)
Definition pat_api_key : regex :=
  seq (Alt (seq [lit true "api"; Quest (dashOrUnderscore true); lit true "key"])
           (lit true "apikey")
       :: assignment true (AtLeast 20 (word_ true))).

(* (?i)(secret|token|password|passwd|pwd)\s*[:=]\s*['DQ]?([^\s'DQ]{8,})['DQ]? *)
Definition pat_secret : regex :=
  seq (alts (lit true "secret")
            [lit true "token"; lit true "password"; lit true "passwd"; lit true "pwd"]
       :: assignment true (AtLeast 8 (value true))).

(* (?i)(bearer\s+)[A-Za-z0-9_\-\.]{20,} *)
Definition pat_bearer : regex :=
  seq [lit true "bearer"; Plus (ws true); AtLeast 20 bearerChar].

(* AKIA[0-9A-Z]{16} *)
Definition pat_aws_key_id : regex :=
  seq [lit false "AKIA";
       Repeat 16 (Char (Class false false [rng "0" "9"; rng "A" "Z"]))].

(* (?i)aws[_-]?secret[_-]?access[_-]?key\s*[:=]\s*['DQ]?([A-Za-z0-9/+=]{40})['DQ]? *)
Definition pat_aws_secret : regex :=
  seq ([lit true "aws"; Quest (dashOrUnderscore true);
        lit true "secret"; Quest (dashOrUnderscore true);
        lit true "access"; Quest (dashOrUnderscore true);
        lit true "key"]
       ++ assignment true
            (Repeat 40 (Char (Class true false
               [rng "A" "Z"; rng "a" "z"; rng "0" "9"; one "/"; one "+"; one "="])))).

(* (?i)(DefaultEndpointsProtocol=https;AccountName=)[^\s;]+ *)
Definition pat_azure_conn : regex :=
  seq [lit true "DefaultEndpointsProtocol=https;AccountName=";
       Plus (Char (Class true true (space ++ [one ";"])))].

(* (?i)(azure[_-]?(?:storage|devops|ad)[_-]?(?:key|token|secret|password))
       \s*[:=]\s*['DQ]?([^\s'DQ]{8,})['DQ]? *)
Definition pat_azure_key : regex :=
  seq ([lit true "azure"; Quest (dashOrUnderscore true);
        alts (lit true "storage") [lit true "devops"; lit true "ad"];
        Quest (dashOrUnderscore true);
        alts (lit true "key") [lit true "token"; lit true "secret"; lit true "password"]]
       ++ assignment true (AtLeast 8 (value true))).

(* (?i)jdbc:[a-z]+://[^\s]*password=[^\s&;]+ *)
Definition pat_jdbc : regex :=
  seq [lit true "jdbc:";
       Plus (Char (Class true false [rng "a" "z"]));
       lit true "://";
       Star (Char (Class true true space));
       lit true "password=";
       Plus (Char (Class true true (space ++ [one "&"; one ";"])))].

(* -----BEGIN (?:RSA |EC |OPENSSH )?PRIVATE KEY----- *)
Definition pat_private_key : regex :=
  seq [lit false "-----BEGIN ";
       Quest (alts (lit false "RSA ") [lit false "EC "; lit false "OPENSSH "]);
       lit false "PRIVATE KEY-----"].

(* gh[ps]_[A-Za-z0-9_]{36,} *)
Definition pat_github : regex :=
  seq [lit false "gh";
       Char (Class false false [one "p"; one "s"]);
       lit false "_";
       AtLeast 36 (Char (Class false false
                     [rng "A" "Z"; rng "a" "z"; rng "0" "9"; one "_"]))].

(* glpat-[A-Za-z0-9_\-]{20,} *)
Definition pat_gitlab : regex :=
  seq [lit false "glpat-"; AtLeast 20 (word_ false)].

(* sk-ant-[A-Za-z0-9_\-]{20,} *)
Definition pat_anthropic : regex :=
  seq [lit false "sk-ant-"; AtLeast 20 (word_ false)].

(* sk-[A-Za-z0-9]{20,} *)
Definition pat_openai : regex :=
  seq [lit false "sk-";
       AtLeast 20 (Char (Class false false [rng "A" "Z"; rng "a" "z"; rng "0" "9"]))].

(** [defaultPatterns], each entry with the outcome of [regexp.Compile]
    ([Some] the compiled expression; every default entry is valid). *)
Definition defaultPatterns : list (option regex) :=
  [ Some pat_api_key; Some pat_secret; Some pat_bearer;
    Some pat_aws_key_id; Some pat_aws_secret;
    Some pat_azure_conn; Some pat_azure_key;
    Some pat_jdbc;
    Some pat_private_key;
    Some pat_github; Some pat_gitlab;
    Some pat_anthropic; Some pat_openai ].

Definition defaultKeywords : list string :=
  [ "password"; "passwd"; "secret"; "api_key"; "apikey";
    "access_token"; "auth_token"; "credentials";
    "private_key"; "client_secret" ].

(** Entries that fail to compile are skipped. *)
Fixpoint compilePatterns (patterns : list (option regex)) : list regex :=
  match patterns with
  | [] => []
  | Some re :: rest => re :: compilePatterns rest
  | None :: rest => compilePatterns rest
  end.

Definition NewFirewall : Firewall :=
  {| patterns := compilePatterns defaultPatterns;
     keywords := defaultKeywords |}.

(** The replacement closure of [ScrubText]: keep the key name up to the
    first [:] or [=], redact the rest. *)
Definition redact (match_ : string) : string :=
  match IndexAny match_ ":=" with
  | Some idx => upto (idx + 1) match_ +:+ " [REDACTED]"
  | None =>
      if HasPrefix match_ "-----BEGIN" then "[REDACTED PRIVATE KEY]"
      else "[REDACTED]"
  end.

Definition ScrubText (f : Firewall) (text : string) : string :=
  fold_left (fun result pattern => ReplaceAllStringFunc pattern result redact)
            (patterns f) text.

Definition ScrubRequest (f : Firewall) (req : Request) : Request :=
  {| Request_Tools := Request_Tools req;
     Request_MaxTokens := Request_MaxTokens req;
     Request_Temperature := Request_Temperature req;
     Request_Model := Request_Model req;
     Request_WorkingDir := "";
     Request_Messages :=
       map (fun msg =>
              {| Message_Role := Message_Role msg;
                 Message_Content := ScrubText f (Message_Content msg);
                 Message_ToolCalls := Message_ToolCalls msg;
                 Message_ToolCallID := Message_ToolCallID msg |})
           (Request_Messages req) |}.

Definition ContainsSecret (f : Firewall) (text : string) : bool :=
  existsb (fun pattern => MatchString pattern text) (patterns f).

(** [AddPattern]: [compiled] is the outcome of [regexp.Compile(pattern)];
    on a syntax error the firewall is unchanged and the error returned. *)
Definition AddPattern (f : Firewall) (compiled : regex + error) : Firewall * option error :=
  match compiled with
  | inl re => ({| patterns := patterns f ++ [re]; keywords := keywords f |}, None)
  | inr err => (f, Some err)
  end.

(** *** The outside world

    Providers, the token endpoint and the clock live outside the
    process.  Their state is an abstract world [W], threaded through
    every call that can observe or change it. *)

(** The outcome of [client.Post] against the OAuth token endpoint. *)
Record tokenResp := {
  tokenResp_AccessToken : string;
  tokenResp_RefreshToken : string;
  tokenResp_ExpiresIn : Z
}.

Inductive PostOutcome :=
| PostError (err : error)
    (* the request could not be performed *)
| PostResponse (StatusCode : Z) (Body : string) (decoded : tokenResp + error).
    (* a response; [decoded] is what json.Decode makes of its body *)

Section World.
Context {W : Type}.

(** [time.Now().UnixMilli()]. *)
Variable UnixMilli : W -> Z.
(** [http.Client.Post(url, contentType, body)]. *)
Variable Post : string -> string -> string -> W -> PostOutcome * W.

(** A [context.Context]: the project path stored by [WithProject], if
    any, and [ctx.Err()], which is non-nil once the context is done. *)
Record GoContext := {
  Value_ctxKeyProject : option string;
  Err : W -> option error
}.

(** [WithProject(ctx, projectPath)]. *)
Definition WithProject (ctx : GoContext) (projectPath : string) : GoContext :=
  {| Value_ctxKeyProject := Some projectPath; Err := Err ctx |}.

(** *** router.go *)

(** The [Provider] interface.  [Complete] returns a pair of a response
    pointer and an error: [inr err] stands for a non-nil error (the router
    then drops the response), [inl (Some resp)] for a response without
    error, [inl None] for a nil response without error. *)
Record Provider := {
  Provider_Name : string;
  Provider_Complete : GoContext -> Request -> W -> (option Response + error) * W;
  Provider_StreamComplete :
    GoContext -> Request -> (StreamChunk -> W -> W) -> W -> option error * W;
  Provider_Available : W -> bool;
  Provider_Models : W -> list string
}.

Record ModelPolicy := {
  ProjectPattern : string;
  AllowedProviders : list string;
  Reason : string
}.

(** [config.AIConfig], without the provider descriptors that only
    [NewRouter] reads. *)
Record AIConfig := {
  DefaultModel : string;
  Policies : list ModelPolicy
}.

Record Router := {
  cfg : AIConfig;
  providers : gmap string Provider;
  firewall : Firewall
}.

(** The inner loop of [resolveByPolicy]: the first allowed provider
    that is registered and available. *)
Fixpoint firstAllowed (r : Router) (w : W) (allowed : list string) : option Provider :=
  match allowed with
  | [] => None
  | name :: rest =>
      match providers r !! name with
      | Some p => if Provider_Available p w then Some p else firstAllowed r w rest
      | None => firstAllowed r w rest
      end
  end.

(** [matched, _ := filepath.Match(pattern, path)]. *)
Definition matched (pattern path : string) : bool :=
  match filepath.Match pattern path with
  | Some m => m
  | None => false
  end.

Fixpoint resolvePolicies (r : Router) (w : W) (policies : list ModelPolicy)
    (projectPath : string) : option Provider :=
  match policies with
  | [] => None
  | policy :: rest =>
      if matched (ProjectPattern policy) projectPath then
        match firstAllowed r w (AllowedProviders policy) with
        | Some p => Some p
        | None => resolvePolicies r w rest projectPath
        end
      else resolvePolicies r w rest projectPath
  end.

Definition resolveByPolicy (r : Router) (w : W) (projectPath : string) : option Provider :=
  resolvePolicies r w (Policies (cfg r)) projectPath.

Definition nonEmpty (s : string) : bool := negb (String.eqb s "").

Definition selectProvider (r : Router) (ctx : GoContext) (modelOverride : string) (w : W)
  : Provider + error :=
  if nonEmpty modelOverride then
    (* explicit model requested, e.g. ollama/codestral *)
    let providerName := SplitN2_head modelOverride "/" in
    match providers r !! providerName with
    | Some p => inl p
    | None => inr (errorString ("unknown provider: " +:+ providerName))
    end
  else
    (* project-based model policy *)
    let byPolicy :=
      match Value_ctxKeyProject ctx with
      | Some pp => resolveByPolicy r w pp
      | None => None
      end in
    match byPolicy with
    | Some p => inl p
    | None =>
        (* default model *)
        let defaultModel := DefaultModel (cfg r) in
        let byDefault :=
          if nonEmpty defaultModel
          then providers r !! SplitN2_head defaultModel "/"
          else None in
        match byDefault with
        | Some p => inl p
        | None =>
            (* fallback: anthropic, then ollama *)
            let viaAnthropic :=
              match providers r !! "anthropic" with
              | Some p => if Provider_Available p w then Some p else None
              | None => None
              end in
            match viaAnthropic with
            | Some p => inl p
            | None =>
                match providers r !! "ollama" with
                | Some p => inl p
                | None => inr (errorString "no available AI model provider")
                end
            end
        end
    end.

Definition Complete (r : Router) (ctx : GoContext) (req : Request) (w : W)
  : (option Response + error) * W :=
  match selectProvider r ctx (Request_Model req) w with
  | inr err => (inr err, w)
  | inl provider =>
      let sanitized := ScrubRequest (firewall r) req in
      match Provider_Complete provider ctx sanitized w with
      | (inl resp, w') => (inl resp, w')
      | (inr err, w') =>
          (inr (Errorf_w ("provider " +:+ Provider_Name provider +:+ ": ") err), w')
      end
  end.

Definition StreamComplete (r : Router) (ctx : GoContext) (req : Request)
    (cb : StreamChunk -> W -> W) (w : W) : option error * W :=
  match selectProvider r ctx (Request_Model req) w with
  | inr err => (Some err, w)
  | inl provider =>
      let sanitized := ScrubRequest (firewall r) req in
      Provider_StreamComplete provider ctx sanitized cb w
  end.

(** *** anthropic.go: the delegated credential *)

Record AnthropicProvider := {
  accessToken : string;
  refreshToken : string;
  expiresAt : Z;           (* unix ms *)
  isOAuth : bool;
  model_ : string;
  baseURL : string
}.

(** Two's-complement wrap-around of int64 arithmetic. *)
Definition int64 (z : Z) : Z := (z + 2 ^ 63) mod 2 ^ 64 - 2 ^ 63.

Definition Available (p : AnthropicProvider) : bool := nonEmpty (accessToken p).

(** [refreshIfNeeded]: the error returned ([None] for nil), the
    credential state afterwards and the world afterwards.  The state is
    read and written under the provider's lock; one call is modelled
    without interleaving. *)
Definition refreshIfNeeded (p : AnthropicProvider) (w : W)
  : option error * AnthropicProvider * W :=
  if negb (isOAuth p) then (None, p, w)
  else
    let expires := expiresAt p in
    let hasToken := nonEmpty (accessToken p) in
    let hasRefresh := nonEmpty (refreshToken p) in
    (* no refresh token: skip *)
    if negb hasRefresh then (None, p, w)
    else
      (* seconds or milliseconds; normalize *)
      let expires :=
        if ((0 <? expires) && (expires <? 10 ^ 12))%Z then int64 (expires * 1000)
        else expires in
      (* more than five minutes remaining: still valid *)
      if ((0 <? expires) && (UnixMilli w <? int64 (expires - 5 * 60 * 1000)))%Z
      then (None, p, w)
      (* no expiry known and a token at hand: use it without refresh *)
      else if (expires =? 0)%Z && hasToken then (None, p, w)
      else
        let formData := "grant_type=refresh_token&refresh_token=" +:+ refreshToken p in
        match Post "https://console.anthropic.com/v1/oauth/token"
                   "application/x-www-form-urlencoded" formData w with
        | (PostError err, w') =>
            if nonEmpty (accessToken p) then (None, p, w')
            else (Some (Errorf_w "OAuth refresh request: " err), p, w')
        | (PostResponse StatusCode Body decoded, w') =>
            if negb (StatusCode =? 200)%Z then
              if nonEmpty (accessToken p) then (None, p, w')
              else (Some (errorString ("OAuth refresh failed (" +:+ itoa StatusCode
                                       +:+ "): " +:+ Body)), p, w')
            else
              match decoded with
              | inr _ => (None, p, w')    (* silently fail, use existing token *)
              | inl tr =>
                  let access :=
                    if nonEmpty (tokenResp_AccessToken tr)
                    then tokenResp_AccessToken tr else accessToken p in
                  let refresh :=
                    if nonEmpty (tokenResp_RefreshToken tr)
                    then tokenResp_RefreshToken tr else refreshToken p in
                  let expires' :=
                    if (0 <? tokenResp_ExpiresIn tr)%Z
                    then int64 (UnixMilli w' + int64 (tokenResp_ExpiresIn tr * 1000))
                    else expiresAt p in
                  (None,
                   {| accessToken := access; refreshToken := refresh;
                      expiresAt := expires'; isOAuth := isOAuth p;
                      model_ := model_ p; baseURL := baseURL p |},
                   w')
              end
        end.

(** *** router.go: the admin surface *)

(** [ListProviders].  Go ranges over the map in an unspecified order; the
    names are listed here in the order of [map_to_list]. *)
Definition ListProviders (r : Router) : list string :=
  map fst (map_to_list (providers r)).

Record ModelInfo := {
  ModelInfo_ID : string;
  ModelInfo_Provider : string;
  ModelInfo_Model : string;
  ModelInfo_Active : bool;
  ModelInfo_Status : string
}.

(** The entries [ListModels] makes for one provider. *)
Definition modelsOf (current : string) (w : W) (entry : string * Provider) : list ModelInfo :=
  let '(name, p) := entry in
  let status := if Provider_Available p w then "ready" else "unavailable" in
  map (fun m =>
         let id := name +:+ "/" +:+ m in
         {| ModelInfo_ID := id;
            ModelInfo_Provider := name;
            ModelInfo_Model := m;
            ModelInfo_Active := String.eqb id current;
            ModelInfo_Status := status |})
      (Provider_Models p w).

(** [ListModels], the providers taken in the order of [map_to_list]; what
    each provider answers to [Available] and [Models] is read off the
    world [w]. *)
Definition ListModels (r : Router) (w : W) : list ModelInfo :=
  flat_map (modelsOf (DefaultModel (cfg r)) w) (map_to_list (providers r)).

(** [SetDefaultModel]: the router afterwards and the error returned.
    [strings.SplitN(modelID, "/", 2)] has two parts exactly when [modelID]
    contains a slash. *)
Definition SetDefaultModel (r : Router) (modelID : string) : Router * option error :=
  if negb (mem "/" modelID) then
    (r, Some (errorString
       "invalid model format, use: provider/model (e.g. anthropic/claude-sonnet-4-20250514)"))
  else
    let providerName := SplitN2_head modelID "/" in
    match providers r !! providerName with
    | None => (r, Some (errorString ("unknown provider: " +:+ providerName)))
    | Some _ =>
        ({| cfg := {| DefaultModel := modelID; Policies := Policies (cfg r) |};
            providers := providers r;
            firewall := firewall r |}, None)
    end.

Definition GetDefaultModel (r : Router) : string := DefaultModel (cfg r).

(** *** anthropic.go: requests made with the credential *)

Definition defaultAnthropicAPI : string := "https://api.anthropic.com".

(** [setAuthHeaders]: the headers it sets on the request. *)
Definition setAuthHeaders (p : AnthropicProvider) (token : string) (oauth : bool)
  : list (string * string) :=
  (* behind a proxy no auth header is sent: the proxy handles auth *)
  if negb (String.eqb (baseURL p) defaultAnthropicAPI) then []
  else if oauth then [("Authorization", "Bearer " +:+ token)]
  else [("x-api-key", token)].

(** The outcome of [client.Do] for the model catalog request. *)
Inductive DoOutcome :=
| DoError (err : error)
| DoResponse (StatusCode : Z) (decoded : list string + error).
    (* [decoded]: the ids of the [data] array, or the decoding error *)

(** [http.Client.Do] for a GET on [url] with [headers]. *)
Variable Do : string -> list (string * string) -> W -> DoOutcome * W.


(** The content blocks and messages of the vendor's request body. *)
Record anthropicContent := {
  anthropicContent_Type : string;
  anthropicContent_Text : string;
  anthropicContent_ID : string;
  anthropicContent_Name : string;
  anthropicContent_Input : gmap string JSONValue;
  anthropicContent_ToolUseID : string;
  anthropicContent_Content : string
}.

Record anthropicMessage := {
  anthropicMessage_Role : string;
  anthropicMessage_Content : list anthropicContent
}.

Definition textBlock (text : string) : anthropicContent :=
  {| anthropicContent_Type := "text"; anthropicContent_Text := text;
     anthropicContent_ID := ""; anthropicContent_Name := "";
     anthropicContent_Input := ∅; anthropicContent_ToolUseID := "";
     anthropicContent_Content := "" |}.

Definition toolUseBlock (tc : ToolCall) : anthropicContent :=
  {| anthropicContent_Type := "tool_use"; anthropicContent_Text := "";
     anthropicContent_ID := ToolCall_ID tc; anthropicContent_Name := ToolCall_Name tc;
     anthropicContent_Input := ToolCall_Input tc; anthropicContent_ToolUseID := "";
     anthropicContent_Content := "" |}.

Definition toolResultBlock (toolUseID content : string) : anthropicContent :=
  {| anthropicContent_Type := "tool_result"; anthropicContent_Text := "";
     anthropicContent_ID := ""; anthropicContent_Name := "";
     anthropicContent_Input := ∅; anthropicContent_ToolUseID := toolUseID;
     anthropicContent_Content := content |}.

(** The message [Complete] makes of one request message that is not a
    system message. *)
Definition toAnthropicMessage (msg : Message) : anthropicMessage :=
  if nonEmpty (Message_ToolCallID msg) then
    {| anthropicMessage_Role := Message_Role msg;
       anthropicMessage_Content :=
         [toolResultBlock (Message_ToolCallID msg) (Message_Content msg)] |}
  else
    match Message_ToolCalls msg with
    | [] =>
        {| anthropicMessage_Role := Message_Role msg;
           anthropicMessage_Content := [textBlock (Message_Content msg)] |}
    | toolCalls =>
        {| anthropicMessage_Role := "assistant";
           anthropicMessage_Content :=
             (if nonEmpty (Message_Content msg) then [textBlock (Message_Content msg)]
              else [])
             ++ map toolUseBlock toolCalls |}
    end.

(** The first loop of [Complete]: the system text and the messages of the
    request body, starting from [system] and [messages]. *)
Fixpoint extractSystem (msgs : list Message) (system : string)
    (messages : list anthropicMessage) : string * list anthropicMessage :=
  match msgs with
  | [] => (system, messages)
  | msg :: rest =>
      if String.eqb (Message_Role msg) "system"
      then extractSystem rest (Message_Content msg) messages
      else extractSystem rest system (messages ++ [toAnthropicMessage msg])
  end.

(** [NewAnthropicProvider]; [proxy] is the value of the environment
    variable ANTHROPIC_PROXY (empty when unset). *)
Definition NewAnthropicProvider (proxy apiKey defaultModel : string) : AnthropicProvider :=
  {| accessToken := apiKey;
     refreshToken := "";
     expiresAt := 0;
     isOAuth := HasPrefix apiKey "sk-ant-oat";
     model_ := if nonEmpty defaultModel then defaultModel else "claude-sonnet-4-6";
     baseURL := if nonEmpty proxy then proxy else defaultAnthropicAPI |}.

(** [resolveModel]. *)
Definition resolveModel (p : AnthropicProvider) (override : string) : string :=
  if nonEmpty override then override else model_ p.

(** *** router.go: construction *)

Record ProviderConfig := {
  ProviderConfig_Name : string;
  ProviderConfig_Endpoint : string;
  ProviderConfig_APIKey : string;
  ProviderConfig_Model : string
}.

(** The interface values [NewRouter] registers: an Ollama provider for an
    endpoint and a model, the Anthropic provider of a credential, an
    OpenAI provider for a key and a model. *)
Variable ollamaProvider : string -> string -> Provider.
Variable anthropicProvider : AnthropicProvider -> Provider.
Variable openaiProvider : string -> string -> Provider.

(** The body of the loop over [cfg.AI.Providers]. *)
Definition registerProvider (proxy : string) (ps : gmap string Provider)
    (pc : ProviderConfig) : gmap string Provider :=
  if String.eqb (ProviderConfig_Name pc) "ollama" then
    let endpoint :=
      if nonEmpty (ProviderConfig_Endpoint pc) then ProviderConfig_Endpoint pc
      else "http://localhost:11434" in
    <["ollama" := ollamaProvider endpoint (ProviderConfig_Model pc)]> ps
  else if String.eqb (ProviderConfig_Name pc) "anthropic" then
    if nonEmpty (ProviderConfig_APIKey pc) then
      <["anthropic" := anthropicProvider
                         (NewAnthropicProvider proxy (ProviderConfig_APIKey pc)
                                               (ProviderConfig_Model pc))]> ps
    else ps
  else if String.eqb (ProviderConfig_Name pc) "openai" then
    <["openai" := openaiProvider (ProviderConfig_APIKey pc) (ProviderConfig_Model pc)]> ps
  else ps.

(** [NewRouter].  [configured] is [cfg.AI.Providers]; [detected] is the
    provider made from a delegated credential found on disk, [None] when
    no account file is found or it cannot be loaded. *)
Definition NewRouter (proxy : string) (detected : option Provider) (ai : AIConfig)
    (configured : list ProviderConfig) : Router :=
  let ps := fold_left (registerProvider proxy) configured ∅ in
  (* auto-detect the delegated credential if no Anthropic provider is configured *)
  let ps :=
    match ps !! "anthropic", detected with
    | None, Some p => <["anthropic" := p]> ps
    | _, _ => ps
    end in
  (* always register ollama as fallback *)
  let ps :=
    match ps !! "ollama" with
    | Some _ => ps
    | None => <["ollama" := ollamaProvider "http://localhost:11434" "codestral"]> ps
    end in
  {| cfg := ai; providers := ps; firewall := NewFirewall |}.

End World.

Arguments GoContext : clear implicits.
Arguments Provider : clear implicits.
Arguments Router : clear implicits.

End model.

(* ===================================================================== *)
(** ** Package [agent]: conversation memory and the agent loop            *)
(* ===================================================================== *)

Module agent.
Import GoString GoError.

(** *** Conversation memory *)

(** [Timestamp] is a [time.Time], kept as the clock reading it was made
    from. *)
Record Message := {
  Role : string;
  Content : string;
  Timestamp : Z;
  ToolCalls : list model.ToolCall;
  ToolCallID : string;
  ToolName : string
}.

Record Memory := {
  sessions : gmap string (list Message);
  maxSize : Z
}.

Definition NewMemory : Memory :=
  {| sessions := ∅; maxSize := 200 |}.

(** [m.sessions[sessionID]]: a missing key reads as the nil slice. *)
Definition history (m : Memory) (sessionID : string) : list Message :=
  default [] (sessions m !! sessionID).

(** [Add].  The result is [None] when the slice expressions of the trim
    panic: with fewer than 150 messages [history[len(history)-150:]] has a
    negative bound, if [history[:10]] has not panicked before it.  From 150
    messages on both expressions are in range. *)
Definition Add (m : Memory) (sessionID : string) (msg : Message) : option Memory :=
  let appended := history m sessionID ++ [msg] in
  if (maxSize m <? Z.of_nat (length appended))%Z then
    if (length appended <? 150)%nat then None
    else
      (* keep first 10 (system/early context) + last 150 messages *)
      let trimmed := take 10 appended ++ drop (length appended - 150) appended in
      Some {| sessions := <[sessionID := trimmed]> (sessions m); maxSize := maxSize m |}
  else
    Some {| sessions := <[sessionID := appended]> (sessions m); maxSize := maxSize m |}.

(** [Get] returns a copy of the stored history. *)
Definition Get (m : Memory) (sessionID : string) : list Message :=
  history m sessionID.

Definition Clear (m : Memory) (sessionID : string) : Memory :=
  {| sessions := delete sessionID (sessions m); maxSize := maxSize m |}.

Definition SessionCount (m : Memory) : Z := Z.of_nat (size (sessions m)).

Definition MessageCount (m : Memory) (sessionID : string) : Z :=
  Z.of_nat (length (history m sessionID)).

(** *** runtime.go *)

Record ToolResult := {
  Output : string;
  Error_ : string;            (* the field [Error] *)
  Duration : Z;
  Metadata : gmap string string
}.

Record ToolInfo := {
  ToolInfo_Name : string;
  ToolInfo_Description : string;
  ToolInfo_Category : string
}.

(** What a run of the loop does to its surroundings, in order: the
    callbacks it invokes, the calls it makes to the router and to the tool
    executor, and the lines it logs. *)
Inductive Event :=
| OnThinking (text : string)
| OnResponse (text : string)
| OnToolCall (toolName : string) (input : gmap string model.JSONValue)
| OnToolResult (toolName : string) (result : ToolResult)
| OnError (err : error)
| OnDone
| CallComplete (req : model.Request)
| CallExecute (toolName : string) (input : gmap string model.JSONValue)
| LogPrintf (line : string).

Section Runtime.
Context {W : Type}.

(** [time.Now()]. *)
Variable Now : W -> Z.

Record ToolExecutor := {
  Execute : model.GoContext W -> string -> gmap string model.JSONValue -> W
            -> (ToolResult * option error) * W;
  ListTools : W -> list ToolInfo
}.

(** Each callback may be nil; a callback that is set acts on the
    world. *)
Record Callbacks := {
  cb_OnThinking : option (string -> W -> W);
  cb_OnResponse : option (string -> W -> W);
  cb_OnToolCall : option (string -> gmap string model.JSONValue -> W -> W);
  cb_OnToolResult : option (string -> ToolResult -> W -> W);
  cb_OnError : option (error -> W -> W);
  cb_OnDone : option (W -> W)
}.

(** The fields of [Runtime] that a turn only reads.  The memory the
    runtime points to is part of the state below. *)
Record Runtime := {
  router : model.Router W;
  toolExec : option ToolExecutor;
  callbacks : Callbacks
}.

Record State := {
  memory : Memory;
  world : W;
  trace : list Event
}.

(** Computations over [State]; [None] is a run-time panic. *)
Definition M (A : Type) : Type := State -> option (A * State).

Definition ret {A} (a : A) : M A := fun s => Some (a, s).

Definition panic {A} : M A := fun _ => None.

Definition bind {A B} (c : M A) (k : A -> M B) : M B :=
  fun s => match c s with
           | Some (a, s') => k a s'
           | None => None
           end.

Notation "x <- c ;; k" := (bind c (fun x => k))
  (at level 200, c at level 99, k at level 200).
Notation "c ;;; k" := (bind c (fun _ => k))
  (at level 200, k at level 200).

Definition emit (e : Event) : M unit :=
  fun s => Some (tt, {| memory := memory s; world := world s; trace := trace s ++ [e] |}).

(** Invoke a callback if it is set. *)
Definition invoke (cb : option (W -> W)) (e : Event) : M unit :=
  match cb with
  | None => ret tt
  | Some f =>
      fun s => Some (tt, {| memory := memory s; world := f (world s);
                            trace := trace s ++ [e] |})
  end.

Definition readWorld {A} (f : W -> A) : M A := fun s => Some (f (world s), s).

Definition callWorld {A} (f : W -> A * W) : M A :=
  fun s => let '(a, w') := f (world s) in
           Some (a, {| memory := memory s; world := w'; trace := trace s |}).

Definition memoryAdd (sessionID : string) (msg : Message) : M unit :=
  fun s => match Add (memory s) sessionID msg with
           | Some m' => Some (tt, {| memory := m'; world := world s; trace := trace s |})
           | None => None
           end.

Definition memoryGet (sessionID : string) : M (list Message) :=
  fun s => Some (Get (memory s) sessionID, s).

Definition basePrompt : string :=
"You are GreenForge, a secure AI developer agent specialized for JVM teams.
You help developers with Spring Boot, Kafka, Gradle/Maven projects.

You have access to tools for:
- Git operations (status, diff, commit, log, blame)
- File operations (read, write, search)
- Shell commands (sandboxed)
- Build operations (Gradle/Maven)
- Spring analysis (endpoints, beans, config)
- Kafka mapping (topics, listeners, flows)
- Database operations (query, schema, migrations)

Guidelines:
- Be concise and helpful
- Use tools when needed to answer questions
- Always explain what you're doing
- Never expose secrets or credentials
- Prefer reading files over guessing
".

Definition newline : string := String "010"%char EmptyString.

Definition buildSystemPrompt (r : Runtime) (w : W) : string :=
  match toolExec r with
  | None => basePrompt
  | Some exec =>
      fold_left (fun prompt tool =>
                   prompt +:+ "- " +:+ ToolInfo_Name tool +:+ ": "
                          +:+ ToolInfo_Description tool +:+ newline)
                (ListTools exec w)
                (basePrompt +:+ newline +:+ "Available tools:" +:+ newline)
  end.

Definition toModelMessage (msg : Message) : model.Message :=
  {| model.Message_Role := Role msg;
     model.Message_Content := Content msg;
     model.Message_ToolCalls := ToolCalls msg;
     model.Message_ToolCallID := ToolCallID msg |}.

Definition buildContext (r : Runtime) (sessionID : string) : M (list model.Message) :=
  history <- memoryGet sessionID ;;
  systemPrompt <- readWorld (buildSystemPrompt r) ;;
  ret ({| model.Message_Role := "system";
          model.Message_Content := systemPrompt;
          model.Message_ToolCalls := [];
          model.Message_ToolCallID := "" |}
       :: map toModelMessage history).

Definition getToolDefs (r : Runtime) (w : W) : list model.ToolDef :=
  match toolExec r with
  | None => []
  | Some exec =>
      map (fun tool => {| model.ToolDef_Name := ToolInfo_Name tool;
                          model.ToolDef_Description := ToolInfo_Description tool;
                          model.ToolDef_Schema := None |})
          (ListTools exec w)
  end.

(** The zero [ToolResult]. *)
Definition noResult : ToolResult :=
  {| Output := ""; Error_ := ""; Duration := 0; Metadata := ∅ |}.

Definition executeTool (r : Runtime) (ctx : model.GoContext W) (tc : model.ToolCall)
  : M (ToolResult * option error) :=
  match toolExec r with
  | None => ret (noResult, Some (errorString "no tool executor configured"))
  | Some exec =>
      emit (CallExecute (model.ToolCall_Name tc) (model.ToolCall_Input tc)) ;;;
      callWorld (Execute exec ctx (model.ToolCall_Name tc) (model.ToolCall_Input tc))
  end.

(** The body of the loop over [resp.ToolCalls]; it yields the rebuilt
    prompt context. *)
Definition toolStep (r : Runtime) (ctx : model.GoContext W) (sessionID : string)
    (tc : model.ToolCall) : M (list model.Message) :=
  invoke (option_map (fun f => f (model.ToolCall_Name tc) (model.ToolCall_Input tc))
                     (cb_OnToolCall (callbacks r)))
         (OnToolCall (model.ToolCall_Name tc) (model.ToolCall_Input tc)) ;;;
  executed <- executeTool r ctx tc ;;
  result <-
    match snd executed with
    | Some err =>
        emit (LogPrintf ("Tool execution error: " +:+ Error err)) ;;;
        ret {| Output := ""; Error_ := Error err; Duration := 0; Metadata := ∅ |}
    | None => ret (fst executed)
    end ;;
  invoke (option_map (fun f => f (model.ToolCall_Name tc) result)
                     (cb_OnToolResult (callbacks r)))
         (OnToolResult (model.ToolCall_Name tc) result) ;;;
  (* add tool result to context *)
  let content :=
    if model.nonEmpty (Error_ result) then "Error: " +:+ Error_ result
    else Output result in
  now <- readWorld Now ;;
  memoryAdd sessionID
    {| Role := "tool"; Content := content; Timestamp := now;
       ToolCalls := []; ToolCallID := model.ToolCall_ID tc;
       ToolName := model.ToolCall_Name tc |} ;;;
  buildContext r sessionID.

Fixpoint toolLoop (r : Runtime) (ctx : model.GoContext W) (sessionID : string)
    (toolCalls : list model.ToolCall) (promptCtx : list model.Message)
  : M (list model.Message) :=
  match toolCalls with
  | [] => ret promptCtx
  | tc :: rest =>
      promptCtx' <- toolStep r ctx sessionID tc ;;
      toolLoop r ctx sessionID rest promptCtx'
  end.

Definition maxIterations : Z := 20.

(** The agent loop with [remaining] iterations left; the value is the
    error [ProcessMessage] returns ([None] for nil). *)
Fixpoint agentLoop (remaining : nat) (r : Runtime) (ctx : model.GoContext W)
    (sessionID : string) (promptCtx : list model.Message) : M (option error) :=
  match remaining with
  | O =>
      ret (Some (errorString ("agent loop exceeded max iterations ("
                              +:+ itoa maxIterations +:+ ")")))
  | S remaining' =>
      done <- readWorld (model.Err ctx) ;;
      match done with
      | Some err => ret (Some err)
      | None =>
          (* call the model *)
          invoke (option_map (fun f => f "Thinking...") (cb_OnThinking (callbacks r)))
                 (OnThinking "Thinking...") ;;;
          tools <- readWorld (getToolDefs r) ;;
          let req :=
            {| model.Request_Messages := promptCtx;
               model.Request_Tools := tools;
               model.Request_MaxTokens := 4096;
               model.Request_Temperature := (1 # 10)%Q;
               model.Request_Model := "";
               model.Request_WorkingDir := "" |} in
          emit (CallComplete req) ;;;
          completion <- callWorld (model.Complete (router r) ctx req) ;;
          match completion with
          | inr err =>
              invoke (option_map (fun f => f err) (cb_OnError (callbacks r)))
                     (OnError err) ;;;
              ret (Some (Errorf_w "model completion error: " err))
          | inl None =>
              (* resp is nil: len(resp.ToolCalls) dereferences it *)
              panic
          | inl (Some resp) =>
              now <- readWorld Now ;;
              match model.Response_ToolCalls resp with
              | [] =>
                  (* final response - send to user *)
                  memoryAdd sessionID
                    {| Role := "assistant"; Content := model.Response_Content resp;
                       Timestamp := now; ToolCalls := []; ToolCallID := "";
                       ToolName := "" |} ;;;
                  invoke (option_map (fun f => f (model.Response_Content resp))
                                     (cb_OnResponse (callbacks r)))
                         (OnResponse (model.Response_Content resp)) ;;;
                  invoke (cb_OnDone (callbacks r)) OnDone ;;;
                  ret None
              | toolCalls =>
                  (* execute tool calls *)
                  memoryAdd sessionID
                    {| Role := "assistant"; Content := model.Response_Content resp;
                       Timestamp := now; ToolCalls := toolCalls; ToolCallID := "";
                       ToolName := "" |} ;;;
                  promptCtx' <- toolLoop r ctx sessionID toolCalls promptCtx ;;
                  agentLoop remaining' r ctx sessionID promptCtx'
              end
          end
      end
  end.

Definition ProcessMessage (r : Runtime) (ctx : model.GoContext W)
    (sessionID message : string) : M (option error) :=
  now <- readWorld Now ;;
  memoryAdd sessionID
    {| Role := "user"; Content := message; Timestamp := now;
       ToolCalls := []; ToolCallID := ""; ToolName := "" |} ;;;
  promptCtx <- buildContext r sessionID ;;
  agentLoop (Z.to_nat maxIterations) r ctx sessionID promptCtx.

End Runtime.

Arguments ToolExecutor : clear implicits.
Arguments Callbacks : clear implicits.
Arguments Runtime : clear implicits.
Arguments State : clear implicits.
Arguments M : clear implicits.

End agent.

(* ===================================================================== *)
(** * Notions used in the statements                                      *)
(* ===================================================================== *)

(** ** Conversation memory *)

Module MemorySpec.
Import agent.

#[global] Instance ToolCall_eq_dec : EqDecision model.ToolCall.
Proof. solve_decision. Defined.

#[global] Instance Message_eq_dec : EqDecision Message.
Proof. solve_decision. Defined.

(** The memory a runtime owns is made by [NewMemory]; [Add] and [Clear]
    never change its cap. *)
Definition capped (m : Memory) : Prop := maxSize m = 200.

(** What [Add] stores for a session whose history, with the new message
    appended, is [h]. *)
Definition retain (h : list Message) : list Message :=
  if (200 <? length h)%nat then take 10 h ++ drop (length h - 150) h else h.

(** Where the message at position [i] of a pre-trim sequence of length
    [n] ends up, [None] when it is discarded. *)
Definition kept (n i : nat) : option nat :=
  if (i <? 10)%nat then Some i
  else if (n - 150 <=? i)%nat then Some (i - (n - 150) + 10)%nat
  else None.

(** A tool message answers an invocation carried by an assistant
    message. *)
Definition answers (t a : Message) : Prop :=
  Role t = "tool" /\ Role a = "assistant" /\
  exists tc, tc ∈ ToolCalls a /\ model.ToolCall_ID tc = ToolCallID t.

(** All messages of [ops] appended to a memory in order, session by
    session key. *)
Fixpoint addAll (m : Memory) (ops : list (string * Message)) : option Memory :=
  match ops with
  | [] => Some m
  | (sid, msg) :: rest =>
      match Add m sid msg with
      | Some m' => addAll m' rest
      | None => None
      end
  end.

(** The messages of [ops] addressed to [sid], in order. *)
Definition sentTo (sid : string) (ops : list (string * Message)) : list Message :=
  map snd (filter (fun op => fst op = sid) ops).

Definition userMsg (i : nat) : Message :=
  {| Role := "user"; Content := GoString.itoa (Z.of_nat i); Timestamp := Z.of_nat i;
     ToolCalls := []; ToolCallID := ""; ToolName := "" |}.

Definition call1 : model.ToolCall :=
  {| model.ToolCall_ID := "call-1"; model.ToolCall_Name := "git_status";
     model.ToolCall_Input := ∅ |}.

Definition assistantMsg : Message :=
  {| Role := "assistant"; Content := ""; Timestamp := 9;
     ToolCalls := [call1]; ToolCallID := ""; ToolName := "" |}.

Definition toolMsg : Message :=
  {| Role := "tool"; Content := "clean"; Timestamp := 10;
     ToolCalls := []; ToolCallID := "call-1"; ToolName := "git_status" |}.

(** Two hundred messages of one session: an assistant message carrying an
    invocation at position 9, the tool message answering it at position
    10, user messages elsewhere. *)
Definition longHistory : list Message :=
  map userMsg (seq 0 9) ++ [assistantMsg; toolMsg] ++ map userMsg (seq 11 189).

Definition fullMemory : Memory :=
  {| sessions := {[ "cli-session" := longHistory ]}; maxSize := 200 |}.

(** The property as the specification words it: a trim keeps or drops an
    assistant message together with every tool message answering it. *)
Definition groupsKept (m : Memory) (sid : string) (msg : Message) : Prop :=
  forall m', Add m sid msg = Some m' ->
  forall a t, a ∈ Get m sid ++ [msg] -> t ∈ Get m sid ++ [msg] -> answers t a ->
    (a ∈ Get m' sid <-> t ∈ Get m' sid).

End MemorySpec.

(** ** Secret firewall *)

Module FirewallSpec.
Import GoString Regexp model.

(** The assignment of the specification's firewall scenario:
    password: DQ s3cr3t12345 DQ (DQ the double quote). *)
Definition scenario : string :=
  "password: " +:+ String dquote "s3cr3t12345" +:+ String dquote "".



(** The same assignment written as the value of the key [secret]. *)
Definition nestedSecret : string := "secret: " +:+ scenario.

(** *** Where a pattern can begin to match *)

(** Whether [re] matches the empty string. *)
Fixpoint nullable (re : regex) : bool :=
  match re with
  | Empty => true
  | Char _ => false
  | Cat r1 r2 => nullable r1 && nullable r2
  | Alt r1 r2 => nullable r1 || nullable r2
  | Star _ => true
  end.

(** Whether a match of [re] can begin with the code point [r]. *)
Fixpoint canStart (re : regex) (r : N) : bool :=
  match re with
  | Empty => false
  | Char c => classMatches c r
  | Cat r1 r2 => canStart r1 r || (nullable r1 && canStart r2 r)
  | Alt r1 r2 => canStart r1 r || canStart r2 r
  | Star r' => canStart r' r
  end.

(** An ASCII character with which no match of [re] begins. *)
Definition blocks (re : regex) (c : ascii) : bool :=
  (byte c <? 128)%N && negb (nullable re) && negb (canStart re (byte c)).

(** Text made of characters that block [re]. *)
Fixpoint blockedText (re : regex) (s : string) : bool :=
  match s with
  | EmptyString => true
  | String c s' => blocks re c && blockedText re s'
  end.

(** An ASCII character with which no default pattern can begin a match:
    every character below 128 other than [-] and the letters
    [a b d g j p s t A B D J P S T]. *)
Definition quiet (c : ascii) : bool :=
  forallb (fun re => blocks re c) (patterns NewFirewall).

Fixpoint quietText (s : string) : bool :=
  match s with
  | EmptyString => true
  | String c s' => quiet c && quietText s'
  end.

(** The search for [re] in [s] finds nothing, with whatever bound that
    covers [s] and from whatever offset positions are counted. *)
Definition fruitless (re : regex) (s : string) : Prop :=
  forall fuel pos, (String.length s <= fuel)%nat -> search fuel re s pos = None.

(** No match of [re] begins inside [pre] when [follows] comes after it. *)
Definition noMatchBegins (re : regex) (pre follows : string) : Prop :=
  forall n, (n < String.length pre)%nat -> matchAt re (from n (pre +:+ follows)) = None.

(** No default pattern begins a match inside [pre] when the key of the
    scenario's assignment follows it, whatever comes after the key. *)
Definition silent (pre : string) : Prop :=
  forall re, In re (patterns NewFirewall) ->
  forall rest, noMatchBegins re pre ("password: " +:+ rest).



(** The redacted form of the scenario's assignment. *)
Definition redacted : string := "password: [REDACTED]".


End FirewallSpec.

(** ** Model router *)

Module RouterSpec.
Import GoString GoError model.

Section Resolution.
Context {W : Type}.
Implicit Types (r : Router W) (w : W) (p : Provider W).

(** A provider name is usable when it is registered and the registered
    provider reports itself available. *)
Definition usable r w (name : string) : Prop :=
  exists p, providers r !! name = Some p /\ Provider_Available p w = true.

(** A rule yields nothing when it does not match the path or none of
    its providers is usable. *)
Definition barren r w (projectPath : string) (policy : ModelPolicy) : Prop :=
  matched (ProjectPattern policy) projectPath = true ->
  Forall (fun n => ~ usable r w n) (AllowedProviders policy).

(** Steps (3) and (4) of the resolution, reached when the override is
    empty and the policy step produced nothing. *)
Definition afterPolicy r w : Provider W + error :=
  match (if nonEmpty (DefaultModel (cfg r))
         then providers r !! SplitN2_head (DefaultModel (cfg r)) "/" else None) with
  | Some p => inl p
  | None =>
      match providers r !! "anthropic" with
      | Some p =>
          if Provider_Available p w then inl p
          else match providers r !! "ollama" with
               | Some q => inl q
               | None => inr (errorString "no available AI model provider")
               end
      | None =>
          match providers r !! "ollama" with
          | Some q => inl q
          | None => inr (errorString "no available AI model provider")
          end
      end
  end.

(** Step (2) as the specification words it: the first rule whose pattern
    matches the path decides; its first provider that is registered and
    available is returned, and no later rule is looked at. *)
Fixpoint policyAsWorded r w (policies : list ModelPolicy) (projectPath : string)
  : option (Provider W) :=
  match policies with
  | [] => None
  | policy :: rest =>
      if matched (ProjectPattern policy) projectPath
      then firstAllowed r w (AllowedProviders policy)
      else policyAsWorded r w rest projectPath
  end.

(** The four-step resolution as the specification words it. *)
Definition resolutionAsWorded r (ctx : GoContext W) (modelOverride : string) w
  : Provider W + error :=
  if nonEmpty modelOverride then
    match providers r !! SplitN2_head modelOverride "/" with
    | Some p => inl p
    | None => inr (errorString ("unknown provider: " +:+ SplitN2_head modelOverride "/"))
    end
  else
    match (match Value_ctxKeyProject ctx with
           | Some pp => policyAsWorded r w (Policies (cfg r)) pp
           | None => None
           end) with
    | Some p => inl p
    | None => afterPolicy r w
    end.

End Resolution.

(** The same request with another working-directory hint. *)
Definition withWorkingDir (req : Request) (dir : string) : Request :=
  {| Request_Messages := Request_Messages req;
     Request_Tools := Request_Tools req;
     Request_MaxTokens := Request_MaxTokens req;
     Request_Temperature := Request_Temperature req;
     Request_Model := Request_Model req;
     Request_WorkingDir := dir |}.

(** How [Router.Complete] hands on what the provider returned. *)
Definition relay {W} (p : Provider W) (result : (option Response + error) * W)
  : (option Response + error) * W :=
  match result with
  | (inl resp, w') => (inl resp, w')
  | (inr err, w') => (inr (Errorf_w ("provider " +:+ Provider_Name p +:+ ": ") err), w')
  end.

(** The router of the specification's policy scenario. *)
Definition companyRouter {W} (local cloud : Provider W) (defaultModel : string)
    (fw : Firewall) : Router W :=
  {| cfg := {| DefaultModel := defaultModel;
               Policies := [ {| ProjectPattern := "/company/*";
                                AllowedProviders := ["local"];
                                Reason := "company code stays on local models" |} ] |};
     providers := {[ "local" := local; "cloud" := cloud ]};
     firewall := fw |}.

(** A provider that is always available and answers every request with
    its own name, over a world that counts the requests made. *)
Definition echoProvider (name : string) : Provider nat :=
  {| Provider_Name := name;
     Provider_Complete := fun _ _ w =>
       (inl (Some {| Response_Content := name; Response_ToolCalls := [];
                     Response_Model := name;
                     Response_Usage :=
                       {| Usage_InputTokens := 0; Usage_OutputTokens := 0 |};
                     Response_FinishReason := "stop" |}), S w);
     Provider_StreamComplete := fun _ _ _ w => (None, S w);
     Provider_Available := fun _ => true;
     Provider_Models := fun _ => [name] |}.

Definition background : GoContext nat :=
  {| Value_ctxKeyProject := None; Err := fun _ => None |}.

(** A registered provider that reports itself unavailable. *)
Definition offlineProvider (name : string) : Provider nat :=
  {| Provider_Name := name;
     Provider_Complete := fun _ _ w => (inr (errorString "connection refused"), S w);
     Provider_StreamComplete := fun _ _ _ w =>
       (Some (errorString "connection refused"), S w);
     Provider_Available := fun _ => false;
     Provider_Models := fun _ => [name] |}.

(** Two rules that both match [/company/app]: the first allows only the
    local provider, which is offline; the second allows the cloud provider.
    The default model names the local provider. *)
Definition twoRuleRouter : Router nat :=
  {| cfg := {| DefaultModel := "local/small";
               Policies := [ {| ProjectPattern := "/company/*";
                                AllowedProviders := ["local"];
                                Reason := "company code stays on local models" |};
                             {| ProjectPattern := "/*/*";
                                AllowedProviders := ["cloud"];
                                Reason := "everything else may use the cloud" |} ] |};
     providers := {[ "local" := offlineProvider "local"; "cloud" := echoProvider "cloud" ]};
     firewall := NewFirewall |}.

Definition companyApp : GoContext nat :=
  WithProject background "/company/app".

End RouterSpec.

(** ** Delegated credential *)

Module CredentialSpec.
Import GoString GoError model.
Local Open Scope Z_scope.

(** The refresh exchange fails: the request cannot be performed, the
    endpoint answers with a status other than 200, or the body of its
    answer cannot be decoded. *)
Definition exchangeFails (o : PostOutcome) : Prop :=
  match o with
  | PostError _ => True
  | PostResponse StatusCode _ decoded => StatusCode <> 200 \/ exists err, decoded = inr err
  end.

(** The expiry as [refreshIfNeeded] normalizes it. *)
Definition normalized (expires : Z) : Z :=
  if (0 <? expires) && (expires <? 10 ^ 12) then int64 (expires * 1000) else expires.

(** The conditions under which [refreshIfNeeded] contacts the endpoint. *)
Definition attempts {W} (UnixMilli : W -> Z) (p : AnthropicProvider) (w : W) : bool :=
  isOAuth p && nonEmpty (refreshToken p)
  && negb ((0 <? normalized (expiresAt p))
           && (UnixMilli w <? int64 (normalized (expiresAt p) - 5 * 60 * 1000)))
  && negb ((normalized (expiresAt p) =? 0) && nonEmpty (accessToken p)).

(** The degraded-mode rule as the specification words it. *)
Definition degradedRule {W} (UnixMilli : W -> Z)
    (Post : string -> string -> string -> W -> PostOutcome * W)
    (p : AnthropicProvider) (w : W) : Prop :=
  isOAuth p = true ->
  (forall url contentType body, exchangeFails (fst (Post url contentType body w))) ->
  (accessToken p <> "" -> fst (fst (refreshIfNeeded UnixMilli Post p w)) = None) /\
  (accessToken p = "" -> fst (fst (refreshIfNeeded UnixMilli Post p w)) <> None).

(** Endpoints over a world without state. *)
Definition unreachable (_ _ _ : string) (w : unit) : PostOutcome * unit :=
  (PostError (errorString "dial tcp: connection refused"), w).

Definition garbled (_ _ _ : string) (w : unit) : PostOutcome * unit :=
  (PostResponse 200 "<html>" (inr (errorString "invalid character '<'")), w).

Definition rejecting (_ _ _ : string) (w : unit) : PostOutcome * unit :=
  (PostResponse 401 "invalid_grant" (inr (errorString "unexpected end of JSON input")), w).

Definition noon (_ : unit) : Z := 1700000000000.

(** Credential states of an OAuth provider. *)
Definition credential (access refresh : string) (expires : Z) : AnthropicProvider :=
  {| accessToken := access; refreshToken := refresh; expiresAt := expires;
     isOAuth := true; model_ := "claude-sonnet-4-6";
     baseURL := "https://api.anthropic.com" |}.

End CredentialSpec.

(** ** Agent loop *)

Module RuntimeSpec.
Import GoString GoError agent MemorySpec RouterSpec.

(** Events that end a turn for the observer. *)
Definition isTerminal (e : Event) : bool :=
  match e with
  | OnResponse _ | OnDone | OnError _ => true
  | _ => false
  end.

Definition isCompletion (e : Event) : bool :=
  match e with
  | CallComplete _ => true
  | _ => false
  end.

(** Events of the tool-execution part of an iteration. *)
Definition isToolEvent (e : Event) : bool :=
  match e with
  | OnToolCall _ _ | OnToolResult _ _ | CallExecute _ _ | LogPrintf _ => true
  | _ => false
  end.

(** The number of model completions requested in a trace. *)
Definition completions (t : list Event) : nat := length (filter (fun e => isCompletion e = true) t).

(** The event a callback leaves in the trace: none when it is nil. *)
Definition observed {A} (cb : option A) (e : Event) : list Event :=
  match cb with
  | Some _ => [e]
  | None => []
  end.

(** The tool result the loop goes on with when the executor returned
    [err]. *)
Definition failure (text : string) : ToolResult :=
  {| Output := ""; Error_ := text; Duration := 0; Metadata := ∅ |}.

(** The tool message appended for [tc] once its result is known. *)
Definition toolMessage (tc : model.ToolCall) (result : ToolResult) (now : Z) : Message :=
  {| Role := "tool";
     Content := if model.nonEmpty (Error_ result) then "Error: " +:+ Error_ result
                else Output result;
     Timestamp := now; ToolCalls := [];
     ToolCallID := model.ToolCall_ID tc; ToolName := model.ToolCall_Name tc |}.

Definition budgetError : error :=
  errorString "agent loop exceeded max iterations (20)".

Section Loop.
Context {W : Type}.
Variable Now : W -> Z.
Implicit Types (r : Runtime W) (ctx : model.GoContext W) (s : State W).

Definition applyCb (cb : option (W -> W)) (w : W) : W :=
  match cb with
  | Some f => f w
  | None => w
  end.

(** [s'] is reached from [s] by a run that left [evs] in the trace and
    kept the memory's cap. *)
Definition advances s s' (evs : list Event) : Prop :=
  capped (memory s') /\ trace s' = trace s ++ evs.

(** What the executor (or its absence) yields for [tc] in world [w]. *)
Definition outcomeOf r ctx (tc : model.ToolCall) (w : W) : ToolResult :=
  match toolExec r with
  | None => failure "no tool executor configured"
  | Some exec =>
      match Execute exec ctx (model.ToolCall_Name tc) (model.ToolCall_Input tc) w with
      | (_, Some err, _) => failure (Error err)
      | (result, None, _) => result
      end
  end.

(** Every completion the router makes yields a response or an error,
    never a nil response together with a nil error. *)
Definition responds r ctx : Prop :=
  forall req w w', model.Complete (router r) ctx req w <> (inl None, w').

(** How a loop with a budget of [budget] iterations can end, with the
    events it leaves behind: a final response or a failed completion,
    after at least one and at most [budget] completions; a context found
    done at the start of an iteration, after fewer than [budget]
    completions; the exhausted budget, after exactly [budget]
    completions. *)
Inductive Outcome r ctx (budget : nat) : option error -> list Event -> Prop :=
| Final body content :
    Forall (fun e => isTerminal e = false) body ->
    (1 <= completions body <= budget)%nat ->
    Outcome r ctx budget None
      (body ++ observed (cb_OnResponse (callbacks r)) (OnResponse content)
            ++ observed (cb_OnDone (callbacks r)) OnDone)
| ProviderFailed body req w w' err :
    Forall (fun e => isTerminal e = false) body ->
    (1 <= completions body <= budget)%nat ->
    model.Complete (router r) ctx req w = (inr err, w') ->
    Outcome r ctx budget (Some (Errorf_w "model completion error: " err))
      (body ++ observed (cb_OnError (callbacks r)) (OnError err))
| Cancelled body w err :
    Forall (fun e => isTerminal e = false) body ->
    (completions body < budget)%nat ->
    model.Err ctx w = Some err ->
    Outcome r ctx budget (Some err) body
| Exhausted body :
    Forall (fun e => isTerminal e = false) body ->
    completions body = budget ->
    Outcome r ctx budget (Some budgetError) body.

(** The prompt context made of a history [h] in world [w]. *)
Definition promptOf r (h : list Message) (w : W) : list model.Message :=
  {| model.Message_Role := "system";
     model.Message_Content := buildSystemPrompt r w;
     model.Message_ToolCalls := [];
     model.Message_ToolCallID := "" |} :: map toModelMessage h.

(** The request of an iteration. *)
Definition requestOf r (p : list model.Message) (w : W) : model.Request :=
  {| model.Request_Messages := p;
     model.Request_Tools := getToolDefs r w;
     model.Request_MaxTokens := 4096;
     model.Request_Temperature := (1 # 10)%Q;
     model.Request_Model := "";
     model.Request_WorkingDir := "" |}.

End Loop.

(** A provider that asks for another run of [git_status] every time. *)
Definition loopingProvider : model.Provider nat :=
  {| model.Provider_Name := "ollama";
     model.Provider_Complete := fun _ _ w =>
       (inl (Some {| model.Response_Content := "";
                     model.Response_ToolCalls := [call1];
                     model.Response_Model := "codestral";
                     model.Response_Usage :=
                       {| model.Usage_InputTokens := 0; model.Usage_OutputTokens := 0 |};
                     model.Response_FinishReason := "tool_use" |}), S w);
     model.Provider_StreamComplete := fun _ _ _ w => (None, S w);
     model.Provider_Available := fun _ => true;
     model.Provider_Models := fun _ => ["codestral"] |}.

Definition loopingRouter : model.Router nat :=
  {| model.cfg := {| model.DefaultModel := ""; model.Policies := [] |};
     model.providers := {[ "ollama" := loopingProvider ]};
     model.firewall := model.NewFirewall |}.

(** A tool executor whose every execution fails. *)
Definition failingExecutor : ToolExecutor nat :=
  {| Execute := fun _ _ _ w => (noResult, Some (errorString "exit status 1"), w);
     ListTools := fun _ =>
       [ {| ToolInfo_Name := "git_status";
            ToolInfo_Description := "Show the working tree status";
            ToolInfo_Category := "git" |} ] |}.

(** Every callback installed; none of them touches the world. *)
Definition watching : Callbacks nat :=
  {| cb_OnThinking := Some (fun _ w => w);
     cb_OnResponse := Some (fun _ w => w);
     cb_OnToolCall := Some (fun _ _ w => w);
     cb_OnToolResult := Some (fun _ _ w => w);
     cb_OnError := Some (fun _ w => w);
     cb_OnDone := Some (fun w => w) |}.

Definition stubRuntime : Runtime nat :=
  {| router := loopingRouter; toolExec := Some failingExecutor; callbacks := watching |}.

Definition fresh : State nat :=
  {| memory := NewMemory; world := 0%nat; trace := [] |}.

(** A context that is already cancelled. *)
Definition cancelled : model.GoContext nat :=
  {| model.Value_ctxKeyProject := None;
     model.Err := fun _ => Some (errorString "context canceled") |}.

Definition ticks (w : nat) : Z := Z.of_nat w.

(** A provider whose first answer asks for [git_status] and whose later
    answers are final; the world counts the completions made. *)
Definition twoStepProvider : model.Provider nat :=
  {| model.Provider_Name := "ollama";
     model.Provider_Complete := fun _ _ w =>
       (inl (Some {| model.Response_Content :=
                       if Nat.eqb w 0 then "" else "The tree is clean.";
                     model.Response_ToolCalls := if Nat.eqb w 0 then [call1] else [];
                     model.Response_Model := "codestral";
                     model.Response_Usage :=
                       {| model.Usage_InputTokens := 0; model.Usage_OutputTokens := 0 |};
                     model.Response_FinishReason := "stop" |}), S w);
     model.Provider_StreamComplete := fun _ _ _ w => (None, S w);
     model.Provider_Available := fun _ => true;
     model.Provider_Models := fun _ => ["codestral"] |}.

(** A tool executor that reports a clean tree. *)
Definition cleanExecutor : ToolExecutor nat :=
  {| Execute := fun _ _ _ w =>
       ({| Output := "clean"; Error_ := ""; Duration := 0; Metadata := ∅ |}, None, w);
     ListTools := fun _ => [] |}.

Definition routerOf (p : model.Provider nat) : model.Router nat :=
  {| model.cfg := {| model.DefaultModel := ""; model.Policies := [] |};
     model.providers := {[ "ollama" := p ]};
     model.firewall := model.NewFirewall |}.

Definition runtimeOf (p : model.Provider nat) : Runtime nat :=
  {| router := routerOf p; toolExec := Some cleanExecutor; callbacks := watching |}.

(** What the observer sees of a trace: the callbacks, by name. *)
Definition callbackName (e : Event) : option string :=
  match e with
  | OnThinking _ => Some "thinking"
  | OnResponse _ => Some "response"
  | OnToolCall _ _ => Some "tool call"
  | OnToolResult _ _ => Some "tool result"
  | OnError _ => Some "error"
  | OnDone => Some "done"
  | CallComplete _ | CallExecute _ _ | LogPrintf _ => None
  end.

(** The result of a turn from the fresh state, summed up: the error
    returned, the callbacks in order, and role and content of the messages
    the session holds afterwards. *)
Definition summary (r : Runtime nat) (message : string)
  : option (option error * list string * list (string * string)) :=
  match ProcessMessage ticks r background "cli-session" message fresh with
  | Some (res, s') =>
      Some (res, omap callbackName (trace s'),
            map (fun m => (Role m, Content m)) (Get (memory s') "cli-session"))
  | None => None
  end.

(** A tool executor that fails with an error whose message is empty, as
    [errors.New] makes of the empty string. *)
Definition silentExecutor : ToolExecutor nat :=
  {| Execute := fun _ _ _ w => (noResult, Some (errorString ""), w);
     ListTools := fun _ => [] |}.

Definition silentRuntime : Runtime nat :=
  {| router := loopingRouter; toolExec := Some silentExecutor; callbacks := watching |}.

(** A runtime whose tool always fails and whose provider asks for the
    tool once and then answers. *)
Definition flakyRuntime : Runtime nat :=
  {| router := routerOf twoStepProvider; toolExec := Some failingExecutor;
     callbacks := watching |}.

(** A provider that returns neither a response nor an error. *)
Definition muteProvider : model.Provider nat :=
  {| model.Provider_Name := "ollama";
     model.Provider_Complete := fun _ _ w => (inl None, S w);
     model.Provider_StreamComplete := fun _ _ _ w => (None, S w);
     model.Provider_Available := fun _ => true;
     model.Provider_Models := fun _ => ["codestral"] |}.

(** The feedback rule as the specification words it: whenever the executor
    returns an error for [tc], the step appends a tool message whose content
    is [Error: ] followed by the error's message, with the invocation's
    id. *)
Definition errorFedBack {W} (Now : W -> Z) (r : Runtime W) (ctx : model.GoContext W)
    (sid : string) (tc : model.ToolCall) (s : State W) : Prop :=
  forall exec result err w',
    toolExec r = Some exec ->
    Execute exec ctx (model.ToolCall_Name tc) (model.ToolCall_Input tc)
      (applyCb (option_map (fun f => f (model.ToolCall_Name tc) (model.ToolCall_Input tc))
                           (cb_OnToolCall (callbacks r)))
               (world s))
    = (result, Some err, w') ->
    exists p s' now,
      toolStep Now r ctx sid tc s = Some (p, s') /\
      last (Get (memory s') sid)
      = Some {| Role := "tool"; Content := "Error: " +:+ Error err;
                Timestamp := now; ToolCalls := [];
                ToolCallID := model.ToolCall_ID tc;
                ToolName := model.ToolCall_Name tc |}.

End RuntimeSpec.

(* ===================================================================== *)
(** * Notions for the further properties                                  *)
(* ===================================================================== *)

Module MemoryOps.
Import agent MemorySpec.

(** The operations that change a memory. *)
Inductive Op :=
| OpAdd (sessionID : string) (msg : Message)
| OpClear (sessionID : string).

(** A run of operations, in order; [None] if an [Add] panics. *)
Fixpoint runOps (m : Memory) (ops : list Op) : option Memory :=
  match ops with
  | [] => Some m
  | OpAdd sid msg :: rest =>
      match Add m sid msg with
      | Some m' => runOps m' rest
      | None => None
      end
  | OpClear sid :: rest => runOps (Clear m sid) rest
  end.

(** One if the session is stored, zero otherwise. *)
Definition stored (m : Memory) (sid : string) : Z :=
  match sessions m !! sid with
  | Some _ => 1
  | None => 0
  end.

(** Every stored session holds at most 200 messages. *)
Definition bounded (m : Memory) : Prop :=
  forall sid, (length (Get m sid) <= 200)%nat.

(** Twelve user messages, as the operations that append them. *)
Definition twelve : list (string * Message) :=
  map (fun i => ("cli-session", userMsg i)) (seq 0 12).

End MemoryOps.

Module TurnSpec.
Import GoString GoError agent MemorySpec RouterSpec RuntimeSpec.

Section Turn.
Context {W : Type}.
Implicit Types (r : Runtime W) (ctx : model.GoContext W) (s : State W).

(** The message stored for the user's input. *)
Definition userTurn (message : string) (now : Z) : Message :=
  {| Role := "user"; Content := message; Timestamp := now;
     ToolCalls := []; ToolCallID := ""; ToolName := "" |}.


(** The callbacks of a runtime, applied to their arguments. *)
Definition thinkingCb r : option (W -> W) :=
  option_map (fun f => f "Thinking...") (cb_OnThinking (callbacks r)).


Definition errorCb r (err : error) : option (W -> W) :=
  option_map (fun f => f err) (cb_OnError (callbacks r)).

Definition toolCallCb r (tc : model.ToolCall) : option (W -> W) :=
  option_map (fun f => f (model.ToolCall_Name tc) (model.ToolCall_Input tc))
             (cb_OnToolCall (callbacks r)).

Definition toolResultCb r (tc : model.ToolCall) (result : ToolResult) : option (W -> W) :=
  option_map (fun f => f (model.ToolCall_Name tc) result)
             (cb_OnToolResult (callbacks r)).

(** The line the prompt carries for a tool. *)
Definition toolLine (tool : ToolInfo) : string :=
  "- " +:+ ToolInfo_Name tool +:+ ": " +:+ ToolInfo_Description tool +:+ newline.

End Turn.

(** A provider that fails every completion. *)
Definition downProvider : model.Provider nat :=
  {| model.Provider_Name := "ollama";
     model.Provider_Complete := fun _ _ w => (inr (errorString "connection refused"), S w);
     model.Provider_StreamComplete := fun _ _ _ w =>
       (Some (errorString "connection refused"), S w);
     model.Provider_Available := fun _ => true;
     model.Provider_Models := fun _ => ["codestral"] |}.

(** A runtime without a tool executor. *)
Definition bareRuntime : Runtime nat :=
  {| router := loopingRouter; toolExec := None; callbacks := watching |}.


End TurnSpec.

Module FirewallMore.
Import GoString Regexp model.

(** A request whose messages carry nothing a default pattern matches. *)
Definition harmless : Request :=
  {| Request_Messages :=
       [ {| Message_Role := "user"; Message_Content := "list kafka topics";
            Message_ToolCalls := []; Message_ToolCallID := "" |} ];
     Request_Tools := []; Request_MaxTokens := 4096;
     Request_Temperature := (1 # 10)%Q; Request_Model := "";
     Request_WorkingDir := "/workspace/app" |}.

End FirewallMore.

Module RouterMore.
Import GoString GoError model RouterSpec.

(** A pattern chunk without a star, a question mark, a bracket
    expression or an escape: every byte stands for itself. *)
Fixpoint plain (s : string) : bool :=
  match s with
  | EmptyString => true
  | String c s' =>
      negb (Ascii.eqb c "*" || Ascii.eqb c "?" || Ascii.eqb c "[" || Ascii.eqb c filepath.backslash)
      && plain s'
  end.

(** The provider names [NewRouter] can register. *)
Definition knownProviders : list string := ["ollama"; "anthropic"; "openai"].

(** What the policy step yields for a context. *)
Definition byPolicy {W} (r : Router W) (ctx : GoContext W) (w : W) : option (Provider W) :=
  match Value_ctxKeyProject ctx with
  | Some pp => resolveByPolicy r w pp
  | None => None
  end.

End RouterMore.

Module CredentialMore.
Import GoString GoError model CredentialSpec.
Local Open Scope Z_scope.

(** The credential [p] with another expiry. *)
Definition withExpiry (p : AnthropicProvider) (expires : Z) : AnthropicProvider :=
  {| accessToken := accessToken p; refreshToken := refreshToken p;
     expiresAt := expires; isOAuth := isOAuth p;
     model_ := model_ p; baseURL := baseURL p |}.

(** The token endpoint as [refreshIfNeeded] addresses it. *)
Definition exchange {W} (Post : string -> string -> string -> W -> PostOutcome * W)
    (p : AnthropicProvider) (w : W) : PostOutcome * W :=
  Post "https://console.anthropic.com/v1/oauth/token"
       "application/x-www-form-urlencoded"
       ("grant_type=refresh_token&refresh_token=" +:+ refreshToken p) w.

(** An endpoint that grants a new token pair, valid for an hour. *)
Definition granting (_ _ _ : string) (w : unit) : PostOutcome * unit :=
  (PostResponse 200 "{}"
     (inl {| tokenResp_AccessToken := "sk-ant-oat-new";
             tokenResp_RefreshToken := "refresh-2";
             tokenResp_ExpiresIn := 3600 |}), w).

(** The content of the last system message of [msgs], [system] if there
    is none. *)
Fixpoint lastSystem (msgs : list Message) (system : string) : string :=
  match msgs with
  | [] => system
  | msg :: rest =>
      lastSystem rest (if String.eqb (Message_Role msg) "system"
                       then Message_Content msg else system)
  end.

(** The messages of [msgs] that are not system messages. *)
Fixpoint conversation (msgs : list Message) : list Message :=
  match msgs with
  | [] => []
  | msg :: rest =>
      if String.eqb (Message_Role msg) "system" then conversation rest
      else msg :: conversation rest
  end.

End CredentialMore.

(* ===================================================================== *)
(** * Properties                                                          *)
(* ===================================================================== *)

(** ** Strings *)

Module StringFacts.
Import GoString.

Lemma append_cons (x : ascii) (a b : string) : String x a +:+ b = String x (a +:+ b).
Proof. reflexivity. Qed.

Lemma append_assoc (a b c : string) : (a +:+ b) +:+ c = a +:+ (b +:+ c).
Proof. induction a as [|x a IH]; [reflexivity|]. rewrite !append_cons. now rewrite IH. Qed.

Lemma append_nil_r (a : string) : a +:+ "" = a.
Proof. induction a as [|x a IH]; [reflexivity|]. rewrite append_cons. now rewrite IH. Qed.

Lemma length_append (a b : string) :
  String.length (a +:+ b) = (String.length a + String.length b)%nat.
Proof. induction a as [|x a IH]; [reflexivity|]. rewrite append_cons. simpl. now rewrite IH. Qed.

Lemma IndexAny_append (key v chars : string) (c : ascii) :
  IndexAny key chars = None -> mem c chars = true ->
  IndexAny (key +:+ String c v) chars = Some (String.length key).
Proof.
  intros Hkey Hc. induction key as [|x key IH].
  - simpl. now rewrite Hc.
  - rewrite append_cons. simpl in *. destruct (mem x chars); [discriminate|].
    destruct (IndexAny key chars); [discriminate|]. now rewrite IH.
Qed.

Lemma upto_append (key v : string) (c : ascii) :
  upto (String.length key + 1) (key +:+ String c v) = key +:+ String c "".
Proof.
  induction key as [|x key IH]; [reflexivity|].
  rewrite !append_cons. simpl. now rewrite IH.
Qed.

Lemma SplitN2_head_whole (s : string) (c : ascii) :
  mem c s = false -> SplitN2_head s c = s.
Proof.
  induction s as [|x s IH]; [reflexivity|]. simpl. intros H.
  apply orb_false_elim in H as [H1 H2].
  rewrite (Ascii.eqb_sym x c), H1, (IH H2). reflexivity.
Qed.

Lemma SplitN2_head_append (a b : string) (c : ascii) :
  mem c a = false -> SplitN2_head (a +:+ String c b) c = a.
Proof.
  induction a as [|x a IH].
  - simpl. now rewrite Ascii.eqb_refl.
  - rewrite append_cons. simpl. intros H.
    apply orb_false_elim in H as [H1 H2].
    rewrite (Ascii.eqb_sym x c), H1, (IH H2). reflexivity.
Qed.

Lemma mem_append (a b : string) (c : ascii) : mem c (a +:+ String c b) = true.
Proof.
  induction a as [|x a IH].
  - simpl. now rewrite Ascii.eqb_refl.
  - rewrite append_cons. simpl. rewrite IH. apply orb_true_r.
Qed.












End StringFacts.

(** ** Regular expressions: the bounds of the search loops suffice *)

Module RegexpProofs.
Import GoString Regexp.

Lemma length_from (n : nat) (s : string) :
  String.length (from n s) = (String.length s - n)%nat.
Proof.
  revert s. induction n as [|n IH]; intros s; simpl.
  - lia.
  - destruct s as [|c s]; simpl; [reflexivity|apply IH].
Qed.

(** A continuation that always fails makes the match fail. *)
Lemma star_fail {X} (body : string -> (string -> option X) -> option X) :
  (forall s k1 k2, (forall s', k1 s' = k2 s') -> body s k1 = body s k2) ->
  (forall s, body s (fun _ => None) = None) ->
  forall n s, star body n s (fun _ => None) = None.
Proof.
  intros Hext Hfail. induction n as [|n IH]; intros s; simpl; [reflexivity|].
  rewrite (Hext s _ (fun _ => None)); [now rewrite Hfail|].
  intros s'. destruct (String.length s' <? String.length s)%nat; [apply IH|reflexivity].
Qed.

Lemma star_ext {X} (body : string -> (string -> option X) -> option X) :
  (forall s k1 k2, (forall s', k1 s' = k2 s') -> body s k1 = body s k2) ->
  forall n s k1 k2, (forall s', k1 s' = k2 s') -> star body n s k1 = star body n s k2.
Proof.
  intros Hext. induction n as [|n IH]; intros s k1 k2 Hk; simpl; [apply Hk|].
  rewrite (Hext s _ (fun s' => if (String.length s' <? String.length s)%nat
                               then star body n s' k2 else None)).
  - now rewrite Hk.
  - intros s'. destruct (String.length s' <? String.length s)%nat; [apply IH, Hk|reflexivity].
Qed.

Lemma run_ext {X} (r : regex) :
  forall s (k1 k2 : string -> option X),
    (forall s', k1 s' = k2 s') -> run r s k1 = run r s k2.
Proof.
  induction r as [|c|r1 IH1 r2 IH2|r1 IH1 r2 IH2|r IH]; intros s k1 k2 Hk; simpl.
  - apply Hk.
  - destruct s; [reflexivity|].
    destruct (DecodeRuneInString _) as [rune width].
    destruct (classMatches c rune); [apply Hk|reflexivity].
  - apply IH1. intros s'. apply IH2, Hk.
  - rewrite (IH1 s k1 k2 Hk), (IH2 s k1 k2 Hk). reflexivity.
  - apply star_ext; [|exact Hk]. intros s0 k k' Hkk. apply IH, Hkk.
Qed.

Lemma run_fail {X} (r : regex) : forall s, run (X := X) r s (fun _ => None) = None.
Proof.
  induction r as [|c|r1 IH1 r2 IH2|r1 IH1 r2 IH2|r IH]; intros s; simpl.
  - reflexivity.
  - destruct s; [reflexivity|].
    destruct (DecodeRuneInString _) as [rune width].
    destruct (classMatches c rune); reflexivity.
  - rewrite (run_ext r1 s _ (fun _ => None)); [apply IH1|]. intros s'. apply IH2.
  - now rewrite IH1, IH2.
  - apply star_fail; [|exact IH]. intros s0 k k' Hkk. apply run_ext, Hkk.
Qed.

(** Any bound of at least the length of the text gives the same loop. *)
Lemma star_fuel {X} (r : regex) (k : string -> option X) :
  forall n m s,
    (String.length s <= n)%nat -> (String.length s <= m)%nat ->
    star (fun s' k' => run r s' k') n s k = star (fun s' k' => run r s' k') m s k.
Proof.
  induction n as [|n IH]; intros m s Hn Hm.
  - destruct m as [|m]; simpl; [reflexivity|].
    rewrite (run_ext r s _ (fun _ => None)); [now rewrite run_fail|].
    intros s'. destruct (String.length s' <? String.length s)%nat eqn:Hlt; [|reflexivity].
    apply Nat.ltb_lt in Hlt. lia.
  - destruct m as [|m]; simpl.
    + rewrite (run_ext r s _ (fun _ => None)); [now rewrite run_fail|].
      intros s'. destruct (String.length s' <? String.length s)%nat eqn:Hlt; [|reflexivity].
      apply Nat.ltb_lt in Hlt. lia.
    + rewrite (run_ext r s _ (fun s' => if (String.length s' <? String.length s)%nat
                                         then star (fun s0 k' => run r s0 k') m s' k
                                         else None)); [reflexivity|].
      intros s'. destruct (String.length s' <? String.length s)%nat eqn:Hlt; [|reflexivity].
      apply Nat.ltb_lt in Hlt. apply IH; lia.
Qed.

Lemma run_star_fuel {X} (r : regex) (s : string) (k : string -> option X) (n : nat) :
  (String.length s <= n)%nat ->
  run (Star r) s k = star (fun s' k' => run r s' k') n s k.
Proof. intros Hn. simpl. apply star_fuel; lia. Qed.

Lemma DecodeRune_width (s : string) :
  s <> "" -> (1 <= snd (DecodeRuneInString s))%nat.
Proof.
  destruct s as [|c s]; [congruence|]. intros _. unfold DecodeRuneInString.
  repeat match goal with
         | |- context [if ?b then _ else _] => destruct b
         | |- context [match cont ?lo ?hi ?t with _ => _ end] =>
             destruct (cont lo hi t) as [[? ?]|]
         end; simpl; lia.
Qed.

Lemma search_fuel (re : regex) :
  forall f1 f2 s pos,
    (String.length s <= f1)%nat -> (String.length s <= f2)%nat ->
    search f1 re s pos = search f2 re s pos.
Proof.
  induction f1 as [|f1 IH]; intros f2 s pos H1 H2.
  - destruct s; [|simpl in H1; lia].
    destruct f2; simpl; destruct (matchAt re ""); reflexivity.
  - destruct s as [|c s].
    + destruct f2; simpl; destruct (matchAt re ""); reflexivity.
    + destruct f2 as [|f2]; [simpl in H2; lia|].
      cbn [search]. destruct (matchAt re (String c s)); [reflexivity|].
      pose proof (DecodeRune_width (String c s) ltac:(discriminate)) as Hw.
      apply IH; rewrite length_from; simpl in *; lia.
Qed.

Lemma search_bounds (re : regex) :
  forall fuel s pos a0 a1,
    search fuel re s pos = Some (a0, a1) -> (pos <= a0 <= a1)%nat.
Proof.
  induction fuel as [|fuel IH]; intros s pos a0 a1; simpl.
  - destruct (matchAt re s); [|destruct s; discriminate].
    intros [= <- <-]. lia.
  - destruct (matchAt re s); [intros [= <- <-]; lia|].
    destruct s as [|c s]; [discriminate|].
    intros H. apply IH in H. lia.
Qed.

Lemma doExecute_bounds (re : regex) (src : string) (pos a0 a1 : nat) :
  doExecute re src pos = Some (a0, a1) -> (pos <= a0 <= a1)%nat.
Proof. apply search_bounds. Qed.

(** The loop of [replaceAll] needs at most one round per position from the
    search position to one past the end; more fuel changes nothing. *)
Lemma replaceAllLoop_fuel (re : regex) (repl : string -> string) (src : string) :
  forall f1 f2 lastMatchEnd searchPos buf,
    (String.length src + 1 - searchPos < f1)%nat ->
    (String.length src + 1 - searchPos < f2)%nat ->
    replaceAllLoop f1 re repl src lastMatchEnd searchPos buf
    = replaceAllLoop f2 re repl src lastMatchEnd searchPos buf.
Proof.
  induction f1 as [|f1 IH]; intros f2 lastMatchEnd searchPos buf H1 H2; [lia|].
  destruct f2 as [|f2]; [lia|]. cbn [replaceAllLoop].
  destruct (searchPos <=? String.length src)%nat eqn:Hle; [|reflexivity].
  apply Nat.leb_le in Hle.
  destruct (doExecute re src searchPos) as [[a0 a1]|] eqn:HE; [|reflexivity].
  apply doExecute_bounds in HE.
  apply IH.
  - destruct (a1 <? _)%nat eqn:Ha; [apply Nat.ltb_lt in Ha; lia|].
    destruct (a1 <? searchPos + 1)%nat eqn:Hb; [lia|]. apply Nat.ltb_ge in Hb. lia.
  - destruct (a1 <? _)%nat eqn:Ha; [apply Nat.ltb_lt in Ha; lia|].
    destruct (a1 <? searchPos + 1)%nat eqn:Hb; [lia|]. apply Nat.ltb_ge in Hb. lia.
Qed.

Lemma ReplaceAllStringFunc_fuel (re : regex) (src : string) (repl : string -> string)
    (extra : nat) :
  replaceAllLoop (String.length src + 2 + extra) re repl src 0 0 ""
  = ReplaceAllStringFunc re src repl.
Proof. unfold ReplaceAllStringFunc. apply replaceAllLoop_fuel; lia. Qed.

End RegexpProofs.

(** ** Path patterns: the bounds of the matching loops suffice *)

Module FilepathProofs.
Import GoString filepath RegexpProofs.

Lemma getEsc_shrinks (chunk chunk' : string) (r : N) :
  getEsc chunk = Some (r, chunk') -> (String.length chunk' < String.length chunk)%nat.
Proof.
  unfold getEsc. destruct chunk as [|c chunk]; [discriminate|].
  destruct (Ascii.eqb c "-" || Ascii.eqb c "]"); [discriminate|].
  set (chunk1 := if Ascii.eqb c backslash then from 1 (String c chunk) else String c chunk).
  assert (Hle : (String.length chunk1 <= String.length (String c chunk))%nat).
  { unfold chunk1. destruct (Ascii.eqb c backslash); simpl; lia. }
  clearbody chunk1. destruct chunk1 as [|d rest1]; [discriminate|].
  pose proof (DecodeRune_width (String d rest1) ltac:(discriminate)) as Hw.
  destruct (DecodeRuneInString (String d rest1)) as [r' n]. simpl in Hw.
  destruct ((r' =? RuneError)%N && (n =? 1)%nat); [discriminate|].
  destruct (from n (String d rest1)) as [|e rest] eqn:Hrest; [discriminate|].
  intros [= <- <-]. rewrite <- Hrest, length_from. simpl in *. lia.
Qed.

Lemma ranges_fuel (r : N) :
  forall f1 f2 chunk nrange m,
    (String.length chunk < f1)%nat -> (String.length chunk < f2)%nat ->
    ranges f1 chunk r nrange m = ranges f2 chunk r nrange m.
Proof.
  induction f1 as [|f1 IH]; intros f2 chunk nrange m H1 H2; [lia|].
  destruct f2 as [|f2]; [lia|]. cbn [ranges].
  assert (Hstep : match getEsc chunk with
            | Some (lo, chunk1) =>
                match chunk1 with
                | String "-" chunk2 =>
                    match getEsc chunk2 with
                    | Some (hi, chunk3) =>
                        ranges f1 chunk3 r (S nrange) (m || inrange lo hi r)
                    | None => None
                    end
                | _ => ranges f1 chunk1 r (S nrange) (m || inrange lo lo r)
                end
            | None => None
            end
            = match getEsc chunk with
            | Some (lo, chunk1) =>
                match chunk1 with
                | String "-" chunk2 =>
                    match getEsc chunk2 with
                    | Some (hi, chunk3) =>
                        ranges f2 chunk3 r (S nrange) (m || inrange lo hi r)
                    | None => None
                    end
                | _ => ranges f2 chunk1 r (S nrange) (m || inrange lo lo r)
                end
            | None => None
            end).
  { destruct (getEsc chunk) as [[lo chunk1]|] eqn:HE; [|reflexivity].
    apply getEsc_shrinks in HE.
    destruct chunk1 as [|c chunk2]; [apply IH; simpl in *; lia|].
    destruct (Ascii.eqb_spec c "-") as [->|Hc].
    - destruct (getEsc chunk2) as [[hi chunk3]|] eqn:HE2; [|reflexivity].
      apply getEsc_shrinks in HE2. apply IH; simpl in *; lia.
    - assert (Hgo : forall f, match String c chunk2 with
                     | String "-" chunk2' =>
                         match getEsc chunk2' with
                         | Some (hi, chunk3) =>
                             ranges f chunk3 r (S nrange) (m || inrange lo hi r)
                         | None => None
                         end
                     | _ => ranges f (String c chunk2) r (S nrange) (m || inrange lo lo r)
                     end = ranges f (String c chunk2) r (S nrange) (m || inrange lo lo r)).
      { intros f. destruct c as [[] [] [] [] [] [] [] []]; try reflexivity.
        exfalso. apply Hc. reflexivity. }
      rewrite !Hgo. apply IH; simpl in *; lia. }
  destruct chunk as [|c chunk']; [exact Hstep|].
  destruct nrange as [|n].
  - destruct c as [[] [] [] [] [] [] [] []]; exact Hstep.
  - destruct c as [[] [] [] [] [] [] [] []]; try exact Hstep. reflexivity.
Qed.

Lemma ranges_shrinks (r : N) :
  forall fuel chunk nrange m chunk' m',
    ranges fuel chunk r nrange m = Some (chunk', m') ->
    (String.length chunk' < String.length chunk)%nat.
Proof.
  induction fuel as [|fuel IH]; intros chunk nrange m chunk' m'; [discriminate|].
  cbn [ranges].
  assert (Hstep : match getEsc chunk with
            | Some (lo, chunk1) =>
                match chunk1 with
                | String "-" chunk2 =>
                    match getEsc chunk2 with
                    | Some (hi, chunk3) =>
                        ranges fuel chunk3 r (S nrange) (m || inrange lo hi r)
                    | None => None
                    end
                | _ => ranges fuel chunk1 r (S nrange) (m || inrange lo lo r)
                end
            | None => None
            end = Some (chunk', m') ->
            (String.length chunk' < String.length chunk)%nat).
  { destruct (getEsc chunk) as [[lo chunk1]|] eqn:HE; [|discriminate].
    apply getEsc_shrinks in HE.
    destruct chunk1 as [|c chunk2]; [intros H; apply IH in H; simpl in *; lia|].
    destruct (Ascii.eqb_spec c "-") as [->|Hc].
    - destruct (getEsc chunk2) as [[hi chunk3]|] eqn:HE2; [|discriminate].
      apply getEsc_shrinks in HE2. intros H. apply IH in H. simpl in *. lia.
    - destruct c as [[] [] [] [] [] [] [] []];
        try (intros H; apply IH in H; simpl in *; lia).
      exfalso. apply Hc. reflexivity. }
  destruct chunk as [|c chunk0]; [exact Hstep|].
  destruct nrange as [|n].
  - destruct c as [[] [] [] [] [] [] [] []]; exact Hstep.
  - destruct c as [[] [] [] [] [] [] [] []]; try exact Hstep.
    intros [= <- <-]. simpl. lia.
Qed.

Lemma matchChunkLoop_fuel :
  forall f1 f2 chunk s failed,
    (String.length chunk <= f1)%nat -> (String.length chunk <= f2)%nat ->
    matchChunkLoop f1 chunk s failed = matchChunkLoop f2 chunk s failed.
Proof.
  induction f1 as [|f1 IH]; intros f2 chunk s failed H1 H2.
  - destruct chunk; [|simpl in H1; lia]. destruct f2; reflexivity.
  - destruct chunk as [|c chunk']; [destruct f2; reflexivity|].
    destruct f2 as [|f2]; [simpl in H2; lia|]. cbn [matchChunkLoop].
    simpl in H1, H2.
    destruct (Ascii.eqb c "[").
    + destruct (if failed || (String.length s =? 0)%nat then _ else _) as [r s1].
      destruct (match chunk' with String "^" chunk'' => (true, chunk'') | _ => (false, chunk') end)
        as [negated chunk1] eqn:Hneg.
      assert (Hlen : (String.length chunk1 <= String.length chunk')%nat).
      { destruct chunk' as [|d chunk'']; [injection Hneg as _ <-; simpl; lia|].
        destruct d as [[] [] [] [] [] [] [] []]; injection Hneg as _ <-; simpl; lia. }
      destruct (ranges _ chunk1 r 0 false) as [[chunk2 m]|] eqn:HR; [|reflexivity].
      apply ranges_shrinks in HR. apply IH; lia.
    + destruct (Ascii.eqb c "?").
      * destruct (failed || (String.length s =? 0)%nat); apply IH; lia.
      * destruct (Ascii.eqb c backslash).
        -- destruct chunk' as [|l chunk1]; [reflexivity|]. simpl in H1, H2.
           destruct (failed || (String.length s =? 0)%nat); apply IH; lia.
        -- destruct (failed || (String.length s =? 0)%nat); apply IH; lia.
Qed.

Lemma scan_length :
  forall pattern inrange chunk rest,
    scan pattern inrange = (chunk, rest) ->
    (String.length chunk + String.length rest = String.length pattern)%nat.
Proof.
  fix IH 1. intros pattern inrange chunk rest.
  destruct pattern as [|c p']; simpl; [intros [= <- <-]; reflexivity|].
  destruct (Ascii.eqb c backslash).
  - destruct p' as [|d p'']; [intros [= <- <-]; reflexivity|].
    destruct (scan p'' inrange) as [ch rs] eqn:HS. apply IH in HS.
    intros [= <- <-]. simpl. lia.
  - destruct (Ascii.eqb c "[").
    + destruct (scan p' true) as [ch rs] eqn:HS. apply IH in HS.
      intros [= <- <-]. simpl. lia.
    + destruct (Ascii.eqb c "]").
      * destruct (scan p' false) as [ch rs] eqn:HS. apply IH in HS.
        intros [= <- <-]. simpl. lia.
      * destruct (Ascii.eqb c "*").
        -- destruct inrange.
           ++ destruct (scan p' true) as [ch rs] eqn:HS. apply IH in HS.
              intros [= <- <-]. simpl. lia.
           ++ intros [= <- <-]. reflexivity.
        -- destruct (scan p' inrange) as [ch rs] eqn:HS. apply IH in HS.
           intros [= <- <-]. simpl. lia.
Qed.

Lemma stripStars_length :
  forall pattern star star' p,
    stripStars pattern star = (star', p) ->
    (String.length p <= String.length pattern)%nat /\
    (star' = false -> star = false /\ p = pattern) /\
    (forall c p', p = String c p' -> c <> "*"%char).
Proof.
  induction pattern as [|c pattern IH]; intros star star' p; simpl.
  - intros [= <- <-]. split; [simpl; lia|]. split; [auto|discriminate].
  - destruct (Ascii.eqb_spec c "*") as [->|Hc].
    + intros H. apply IH in H as (Hl & Hs & Hn).
      split; [lia|]. split; [|exact Hn].
      intros Hf. destruct (Hs Hf) as [Hd _]. discriminate Hd.
    + intros [= <- <-]. split; [simpl; lia|]. split; [auto|].
      intros c' p' [= <- <-]. exact Hc.
Qed.

(** A chunk is empty only behind a star. *)
Lemma scanChunk_shrinks (pattern chunk rest : string) (star : bool) :
  pattern <> "" ->
  scanChunk pattern = (star, chunk, rest) ->
  (star && (String.length chunk =? 0)%nat = true) \/
  (String.length rest < String.length pattern)%nat.
Proof.
  intros Hne. unfold scanChunk.
  destruct (stripStars pattern false) as [st p] eqn:HS.
  destruct (scan p false) as [ch rs] eqn:HC.
  intros [= <- <- <-].
  apply stripStars_length in HS as (Hl & Hs & Hn).
  pose proof (scan_length _ _ _ _ HC) as Hlen.
  destruct ch as [|c ch']; [|right; simpl in Hlen; lia].
  destruct st; [left; reflexivity|].
  destruct (Hs eq_refl) as [_ ->].
  destruct pattern as [|c pattern']; [contradiction|].
  specialize (Hn c pattern' eq_refl).
  exfalso. simpl in HC.
  destruct (Ascii.eqb c backslash).
  { destruct pattern'; [discriminate|]. destruct (scan _ _); discriminate. }
  destruct (Ascii.eqb c "["); [destruct (scan _ _); discriminate|].
  destruct (Ascii.eqb c "]"); [destruct (scan _ _); discriminate|].
  destruct (Ascii.eqb_spec c "*"); [contradiction|].
  destruct (scan _ _); discriminate.
Qed.

Lemma MatchLoop_fuel :
  forall f1 f2 pattern name,
    (String.length pattern <= f1)%nat -> (String.length pattern <= f2)%nat ->
    MatchLoop f1 pattern name = MatchLoop f2 pattern name.
Proof.
  induction f1 as [|f1 IH]; intros f2 pattern name H1 H2.
  - destruct pattern; [|simpl in H1; lia]. destruct f2; reflexivity.
  - destruct pattern as [|c pattern']; [destruct f2; reflexivity|].
    destruct f2 as [|f2]; [simpl in H2; lia|].
    cbn [MatchLoop].
    destruct (scanChunk (String c pattern')) as [[star chunk] rest] eqn:HS.
    apply scanChunk_shrinks in HS; [|discriminate].
    destruct (star && (String.length chunk =? 0)%nat) eqn:Htrail; [reflexivity|].
    destruct HS as [HS|HS]; [discriminate|]. simpl in H1, H2.
    assert (Hrec : forall t, MatchLoop f1 rest t = MatchLoop f2 rest t)
      by (intros t; apply IH; simpl in *; lia).
    destruct (matchChunk chunk name) as [| |t].
    + reflexivity.
    + destruct star; [|reflexivity].
      destruct (skipStar chunk name _) as [[]|t]; [reflexivity|reflexivity|apply Hrec].
    + destruct ((String.length t =? 0)%nat || negb (String.length rest =? 0)%nat);
        [apply Hrec|].
      destruct star; [|reflexivity].
      destruct (skipStar chunk name _) as [[]|t']; [reflexivity|reflexivity|apply Hrec].
Qed.

Lemma Match_fuel (pattern name : string) (extra : nat) :
  MatchLoop (String.length pattern + extra) pattern name = Match pattern name.
Proof. unfold Match. apply MatchLoop_fuel; lia. Qed.

End FilepathProofs.

(** ** Conversation memory: append order and retention *)

Module MemoryProofs.
Import agent MemorySpec.

Lemma Add_capped (m : Memory) (sid : string) (msg : Message) :
  capped m ->
  Add m sid msg =
    Some {| sessions := <[sid := retain (Get m sid ++ [msg])]> (sessions m);
            maxSize := 200 |}.
Proof.
  unfold capped, Add, retain, Get. intros ->.
  set (h := history m sid ++ [msg]).
  destruct (200 <? Z.of_nat (length h))%Z eqn:Hz.
  - apply Z.ltb_lt in Hz.
    assert (Hn : (200 < length h)%nat) by lia.
    destruct (length h <? 150)%nat eqn:Hs; [apply Nat.ltb_lt in Hs; lia|].
    apply Nat.ltb_lt in Hn. now rewrite Hn.
  - apply Z.ltb_ge in Hz.
    assert (Hn : (200 <? length h)%nat = false) by (apply Nat.ltb_ge; lia).
    now rewrite Hn.
Qed.

Lemma Get_insert (ss : gmap string (list Message)) (k : Z) (sid sid' : string)
    (h : list Message) :
  Get {| sessions := <[sid := h]> ss; maxSize := k |} sid' =
    if decide (sid = sid') then h else Get {| sessions := ss; maxSize := k |} sid'.
Proof.
  unfold Get, history; simpl. rewrite lookup_insert.
  destruct (decide (sid = sid')); reflexivity.
Qed.

Lemma Get_Add (m m' : Memory) (sid sid' : string) (msg : Message) :
  capped m -> Add m sid msg = Some m' ->
  capped m' /\
  Get m' sid' = if decide (sid = sid') then retain (Get m sid ++ [msg]) else Get m sid'.
Proof.
  intros Hc HA. rewrite (Add_capped _ _ _ Hc) in HA. injection HA as <-.
  split; [reflexivity|].
  rewrite Get_insert. destruct (decide (sid = sid')); [reflexivity|].
  reflexivity.
Qed.

Lemma retain_sublist (h : list Message) : sublist (retain h) h.
Proof.
  unfold retain. destruct (200 <? length h)%nat eqn:Hn; [|reflexivity].
  apply Nat.ltb_lt in Hn.
  assert (Hs : sublist (take 10 h ++ drop (length h - 150) h) (take 10 h ++ drop 10 h)).
  { apply sublist_app; [reflexivity|].
    replace (length h - 150)%nat with (10 + (length h - 160))%nat by lia.
    rewrite <- drop_drop. apply sublist_drop. }
  now rewrite take_drop in Hs.
Qed.

Lemma retain_short (h : list Message) : (length h <= 200)%nat -> retain h = h.
Proof.
  unfold retain. intros H.
  destruct (200 <? length h)%nat eqn:Hn; [apply Nat.ltb_lt in Hn; lia|reflexivity].
Qed.

Lemma retain_long (h : list Message) :
  (200 < length h)%nat -> retain h = take 10 h ++ drop (length h - 150) h.
Proof.
  unfold retain. intros H. apply Nat.ltb_lt in H. now rewrite H.
Qed.

Lemma retain_length (h : list Message) :
  (200 < length h)%nat -> length (retain h) = 160%nat.
Proof.
  intros H. rewrite retain_long by assumption.
  rewrite length_app, length_take, length_drop. lia.
Qed.

(** The trim removes one contiguous, non-empty middle segment. *)
Lemma retain_middle (h : list Message) :
  (200 < length h)%nat ->
  exists middle,
    h = take 10 h ++ middle ++ drop (length h - 150) h /\
    length middle = (length h - 160)%nat.
Proof.
  intros H. exists (take (length h - 160) (drop 10 h)). split.
  - rewrite <- (take_drop 10 h) at 1. f_equal.
    rewrite <- (take_drop (length h - 160) (drop 10 h)) at 1. f_equal.
    rewrite drop_drop. f_equal. lia.
  - rewrite length_take, length_drop. lia.
Qed.

(** Positions through the trim. *)
Lemma retain_lookup (h : list Message) (i : nat) (x : Message) :
  (200 < length h)%nat -> h !! i = Some x ->
  match kept (length h) i with
  | Some k => retain h !! k = Some x
  | None => (10 <= i < length h - 150)%nat
  end.
Proof.
  intros Hn Hi. pose proof (lookup_lt_Some _ _ _ Hi) as Hlt.
  rewrite retain_long by assumption. unfold kept.
  destruct (i <? 10)%nat eqn:H10.
  - apply Nat.ltb_lt in H10.
    rewrite lookup_app_l by (rewrite length_take; lia).
    rewrite lookup_take_lt by lia. exact Hi.
  - apply Nat.ltb_ge in H10.
    destruct (length h - 150 <=? i)%nat eqn:H150.
    + apply Nat.leb_le in H150.
      rewrite lookup_app_r by (rewrite length_take; lia).
      rewrite length_take, lookup_drop.
      replace (length h - 150 + (i - (length h - 150) + 10 - 10 `min` length h))%nat
        with i by lia.
      exact Hi.
    + apply Nat.leb_gt in H150. lia.
Qed.

Lemma retain_lookup_inv (h : list Message) (k : nat) (y : Message) :
  (200 < length h)%nat -> retain h !! k = Some y ->
  exists i, kept (length h) i = Some k /\ h !! i = Some y.
Proof.
  intros Hn Hk. rewrite retain_long in Hk by assumption.
  destruct (decide (k < 10)%nat) as [Hlt|Hge].
  - rewrite lookup_app_l in Hk by (rewrite length_take; lia).
    rewrite lookup_take_lt in Hk by lia.
    exists k. split; [|exact Hk].
    unfold kept. apply Nat.ltb_lt in Hlt. now rewrite Hlt.
  - rewrite lookup_app_r in Hk by (rewrite length_take; lia).
    rewrite length_take, lookup_drop in Hk.
    replace (10 `min` length h)%nat with 10%nat in Hk by lia.
    pose proof (lookup_lt_Some _ _ _ Hk) as Hlt.
    exists (length h - 150 + (k - 10))%nat. split; [|exact Hk].
    unfold kept.
    destruct (length h - 150 + (k - 10) <? 10)%nat eqn:H1; [apply Nat.ltb_lt in H1; lia|].
    destruct (length h - 150 <=? length h - 150 + (k - 10))%nat eqn:H2;
      [|apply Nat.leb_gt in H2; lia].
    f_equal. lia.
Qed.

Lemma addAll_order (ops : list (string * Message)) :
  forall (m : Memory) (sid : string),
    capped m ->
    exists m', addAll m ops = Some m' /\ capped m' /\
      sublist (Get m' sid) (Get m sid ++ sentTo sid ops) /\
      ((length (Get m sid ++ sentTo sid ops) <= 200)%nat ->
       Get m' sid = Get m sid ++ sentTo sid ops).
Proof.
  induction ops as [|[s msg] ops IH]; intros m sid Hc.
  - exists m. unfold sentTo; simpl. rewrite app_nil_r. repeat split; auto.
  - simpl. rewrite (Add_capped _ _ _ Hc).
    set (m1 := {| sessions := _; maxSize := 200 |}).
    assert (Hc1 : capped m1) by reflexivity.
    destruct (IH m1 sid Hc1) as (m' & HA & Hc' & Hsub & Hex).
    exists m'. split; [exact HA|]. split; [exact Hc'|].
    assert (Hm1 : Get m1 sid = if decide (s = sid) then retain (Get m s ++ [msg])
                               else Get m sid).
    { unfold m1. rewrite Get_insert. destruct (decide (s = sid)); [reflexivity|].
      destruct m; reflexivity. }
    unfold sentTo in *. rewrite filter_cons. simpl.
    rewrite Hm1 in Hsub, Hex. clear Hm1.
    destruct (decide (s = sid)) as [->|Hne]; simpl; [|split; assumption].
    set (rest := map snd (filter (λ op, op.1 = sid) ops)) in *.
    assert (Happ : Get m sid ++ msg :: rest = (Get m sid ++ [msg]) ++ rest)
      by (rewrite <- app_assoc; reflexivity).
    rewrite Happ. split.
    + etransitivity; [exact Hsub|].
      apply sublist_app; [apply retain_sublist|reflexivity].
    + intros Hlen. rewrite length_app in Hlen.
      rewrite retain_short in Hex by lia.
      apply Hex. rewrite length_app. lia.
Qed.

(** C1, counterexample: appending the 201st message to [fullMemory] (a
    memory reached from [NewMemory] by two hundred calls of [Add]) keeps
    the assistant message at position 9 and discards the tool message
    answering it at position 10. *)
Lemma C1_trim_splits_group :
  addAll NewMemory (map (pair "cli-session") longHistory) = Some fullMemory /\
  ~ groupsKept fullMemory "cli-session" (userMsg 200).
Proof.
  split; [vm_compute; reflexivity|].
  intros H.
  assert (Hc : capped fullMemory) by reflexivity.
  specialize (H _ (Add_capped _ "cli-session" (userMsg 200) Hc) assistantMsg toolMsg).
  rewrite Get_insert in H. destruct (decide ("cli-session" = "cli-session")); [|done].
  assert (Ha : assistantMsg ∈ Get fullMemory "cli-session" ++ [userMsg 200]).
  { apply list_elem_of_lookup. exists 9%nat. reflexivity. }
  assert (Ht : toolMsg ∈ Get fullMemory "cli-session" ++ [userMsg 200]).
  { apply list_elem_of_lookup. exists 10%nat. reflexivity. }
  assert (Hans : answers toolMsg assistantMsg).
  { repeat split. exists call1. split; [apply list_elem_of_here|reflexivity]. }
  destruct (H Ha Ht Hans) as [Hsplit _].
  assert (Hkept : assistantMsg ∈ retain (Get fullMemory "cli-session" ++ [userMsg 200])).
  { apply list_elem_of_lookup. exists 9%nat. reflexivity. }
  apply Hsplit in Hkept. revert Hkept.
  apply (bool_decide_eq_false_1 _). vm_compute. reflexivity.
Qed.

(** C1, as amended: the trim goes by position alone.  When appending
    [msg] takes a session past 200 messages, the message at position [i] of
    the sequence before the trim is retained exactly when [i < 10] or
    [i >= len - 150], whatever its role; so an assistant message and a tool
    message answering it stay together exactly when their positions lie on
    the same side of the discarded segment [10, len - 150). *)
Theorem C1_trim_by_position (m : Memory) (sid : string) (msg : Message) :
  capped m ->
  (200 < length (Get m sid ++ [msg]))%nat ->
  exists m',
    Add m sid msg = Some m' /\
    (forall i x, (Get m sid ++ [msg]) !! i = Some x ->
       match kept (length (Get m sid ++ [msg])) i with
       | Some k => Get m' sid !! k = Some x
       | None => (10 <= i < length (Get m sid ++ [msg]) - 150)%nat
       end) /\
    (forall k y, Get m' sid !! k = Some y ->
       exists i, kept (length (Get m sid ++ [msg])) i = Some k /\
                 (Get m sid ++ [msg]) !! i = Some y) /\
    (forall i j a t,
       (Get m sid ++ [msg]) !! i = Some a -> (Get m sid ++ [msg]) !! j = Some t ->
       answers t a ->
       ((kept (length (Get m sid ++ [msg])) i = None <->
         kept (length (Get m sid ++ [msg])) j = None) <->
        ((10 <= i < length (Get m sid ++ [msg]) - 150)%nat <->
         (10 <= j < length (Get m sid ++ [msg]) - 150)%nat))).
Proof.
  intros Hc Hn. eexists. split; [apply (Add_capped _ _ _ Hc)|].
  rewrite Get_insert. destruct (decide (sid = sid)); [|done].
  set (h := Get m sid ++ [msg]) in *.
  split; [|split].
  - intros i x Hi. apply retain_lookup; assumption.
  - intros k y Hk. apply retain_lookup_inv; assumption.
  - intros i j a t Hi Hj _.
    apply lookup_lt_Some in Hi, Hj.
    assert (Hkept : forall p, (p < length h)%nat ->
              (kept (length h) p = None <-> (10 <= p < length h - 150)%nat)).
    { intros p Hp. unfold kept.
      destruct (p <? 10)%nat eqn:H1;
        [apply Nat.ltb_lt in H1|apply Nat.ltb_ge in H1].
      - split; [discriminate|lia].
      - destruct (length h - 150 <=? p)%nat eqn:H2;
          [apply Nat.leb_le in H2|apply Nat.leb_gt in H2].
        + split; [discriminate|lia].
        + split; [lia|reflexivity]. }
    rewrite (Hkept i Hi), (Hkept j Hj). tauto.
Qed.

Lemma C1_trim_by_position_witness :
  exists m',
    Add fullMemory "cli-session" (userMsg 200) = Some m' /\
    Get m' "cli-session" !! 9%nat = Some assistantMsg /\
    kept 201 10 = None.
Proof.
  destruct (C1_trim_by_position fullMemory "cli-session" (userMsg 200))
    as (m' & HA & Hpos & _).
  - reflexivity.
  - vm_compute. lia.
  - exists m'. split; [exact HA|]. split; [|reflexivity].
    exact (Hpos 9%nat assistantMsg eq_refl).
Defined.

(** C7: [Add] appends, and trims only past 200 messages, to the first 10
    followed by the last 150 of the sequence before the trim, which removes
    one contiguous middle segment; other sessions are untouched.  Over any
    run of [Add] calls from [NewMemory], [Get] returns the messages sent to
    a session in the order they were appended: all of them up to 200, a
    subsequence of them beyond. *)
Theorem C7_append_order_and_retention (m : Memory) (sid : string) (msg : Message) :
  capped m ->
  (exists m',
     Add m sid msg = Some m' /\ capped m' /\
     (forall sid', sid' <> sid -> Get m' sid' = Get m sid') /\
     ((length (Get m sid ++ [msg]) <= 200)%nat -> Get m' sid = Get m sid ++ [msg]) /\
     ((200 < length (Get m sid ++ [msg]))%nat ->
        Get m' sid = take 10 (Get m sid ++ [msg])
                     ++ drop (length (Get m sid ++ [msg]) - 150) (Get m sid ++ [msg]) /\
        length (Get m' sid) = 160%nat /\
        exists middle,
          middle <> [] /\
          Get m sid ++ [msg] =
            take 10 (Get m sid ++ [msg]) ++ middle
            ++ drop (length (Get m sid ++ [msg]) - 150) (Get m sid ++ [msg]))) /\
  (forall ops sid',
     exists m',
       addAll NewMemory ops = Some m' /\
       sublist (Get m' sid') (sentTo sid' ops) /\
       ((length (sentTo sid' ops) <= 200)%nat -> Get m' sid' = sentTo sid' ops)).
Proof.
  intros Hc. split.
  - eexists. split; [apply (Add_capped _ _ _ Hc)|]. split; [reflexivity|].
    split; [|split].
    + intros sid' Hne. rewrite Get_insert.
      destruct (decide (sid = sid')); [congruence|]. destruct m; reflexivity.
    + intros Hlen. rewrite Get_insert. destruct (decide (sid = sid)); [|done].
      apply retain_short, Hlen.
    + intros Hlen. rewrite Get_insert. destruct (decide (sid = sid)); [|done].
      split; [apply retain_long, Hlen|]. split; [apply retain_length, Hlen|].
      destruct (retain_middle _ Hlen) as (middle & Heq & Hmid).
      exists middle. split; [|exact Heq].
      intros ->. simpl in Hmid. lia.
  - intros ops sid'.
    destruct (addAll_order ops NewMemory sid' eq_refl) as (m' & HA & _ & Hsub & Hex).
    exists m'. split; [exact HA|]. split; [exact Hsub|exact Hex].
Qed.

Lemma C7_append_order_and_retention_witness :
  exists m', Add NewMemory "cli-session" (userMsg 0) = Some m' /\
             Get m' "cli-session" = [userMsg 0].
Proof.
  destruct (C7_append_order_and_retention NewMemory "cli-session" (userMsg 0) eq_refl)
    as [(m' & HA & _ & _ & Hshort & _) _].
  exists m'. split; [exact HA|]. apply Hshort. vm_compute. lia.
Defined.

End MemoryProofs.

(** ** Secret firewall: redaction *)

Module FirewallProofs.
Import GoString Regexp model FirewallSpec StringFacts RegexpProofs.

(** Text without a match is returned as it is. *)
Lemma ReplaceAllStringFunc_no_match (re : regex) (src : string) (repl : string -> string) :
  MatchString re src = false -> ReplaceAllStringFunc re src repl = src.
Proof.
  unfold MatchString, ReplaceAllStringFunc. intros H.
  replace (String.length src + 2)%nat with (S (String.length src + 1)) by lia.
  simpl. destruct (doExecute re src 0) as [[a0 a1]|]; [discriminate|].
  reflexivity.
Qed.

Lemma scrub_fold_no_match (ps : list regex) (text : string) :
  existsb (fun pattern => MatchString pattern text) ps = false ->
  fold_left (fun result pattern => ReplaceAllStringFunc pattern result redact) ps text = text.
Proof.
  induction ps as [|re ps IH]; simpl; [reflexivity|].
  intros H. apply orb_false_elim in H as [Hre Hps].
  rewrite ReplaceAllStringFunc_no_match by exact Hre. apply IH, Hps.
Qed.

Lemma ScrubText_no_secret (f : Firewall) (text : string) :
  ContainsSecret f text = false -> ScrubText f text = text.
Proof. apply scrub_fold_no_match. Qed.

(** *** Where a match can begin *)

Lemma run_nil {X} (re : regex) :
  forall (k : string -> option X), run re "" k = if nullable re then k "" else None.
Proof.
  induction re as [|c|r1 IH1 r2 IH2|r1 IH1 r2 IH2|r IH]; intros k; cbn [run nullable].
  - reflexivity.
  - reflexivity.
  - rewrite IH1. destruct (nullable r1); [apply IH2|reflexivity].
  - rewrite IH1, IH2. destruct (nullable r1), (nullable r2); cbn;
      destruct (k ""); reflexivity.
  - reflexivity.
Qed.

Lemma decode_ascii (x : ascii) (s : string) :
  (byte x <? 128)%N = true -> DecodeRuneInString (String x s) = (byte x, 1%nat).
Proof. intros H. unfold DecodeRuneInString. now rewrite H. Qed.

Lemma run_blocked {X} (re : regex) (x : ascii) (s : string) :
  (byte x <? 128)%N = true ->
  canStart re (byte x) = false ->
  forall (k : string -> option X),
    run re (String x s) k = if nullable re then k (String x s) else None.
Proof.
  intros Hx. induction re as [|c|r1 IH1 r2 IH2|r1 IH1 r2 IH2|r IH]; intros Hc k;
    cbn [run nullable canStart] in *.
  - reflexivity.
  - rewrite (decode_ascii x s Hx), Hc. reflexivity.
  - apply orb_false_elim in Hc as [H1 H2].
    rewrite (IH1 H1). destruct (nullable r1); [|reflexivity].
    cbn [andb] in *. apply IH2, H2.
  - apply orb_false_elim in Hc as [H1 H2].
    rewrite (IH1 H1), (IH2 H2). destruct (nullable r1), (nullable r2); cbn;
      destruct (k (String x s)); reflexivity.
  - cbn [String.length star]. rewrite (IH Hc).
    rewrite Nat.ltb_irrefl. destruct (nullable r); reflexivity.
Qed.

Lemma matchAt_blocked (re : regex) (x : ascii) (s : string) :
  blocks re x = true -> matchAt re (String x s) = None.
Proof.
  unfold blocks. intros H. apply andb_true_iff in H as [H Hs].
  apply andb_true_iff in H as [Hx Hn].
  apply negb_true_iff in Hs. apply negb_true_iff in Hn.
  unfold matchAt. rewrite (run_blocked re x s Hx Hs), Hn. reflexivity.
Qed.

Lemma matchAt_nil (re : regex) : nullable re = false -> matchAt re "" = None.
Proof. intros H. unfold matchAt. now rewrite run_nil, H. Qed.

(** *** Searching past text in which no match begins *)

Lemma search_step (re : regex) (fuel : nat) (s : string) (pos : nat) :
  s <> "" -> matchAt re s = None ->
  search (S fuel) re s pos
  = search fuel re (from (snd (DecodeRuneInString s)) s) (pos + snd (DecodeRuneInString s)).
Proof.
  intros Hs Hm. destruct s as [|c s]; [congruence|]. cbn [search]. rewrite Hm. reflexivity.
Qed.

Lemma search_pos_None (re : regex) :
  forall fuel s pos pos', search fuel re s pos = None -> search fuel re s pos' = None.
Proof.
  induction fuel as [|fuel IH]; intros s pos pos'; cbn [search];
    destruct (matchAt re s); try discriminate.
  - intros _. destruct s; reflexivity.
  - destruct s as [|c s]; [reflexivity|]. apply IH.
Qed.






(** *** Texts in which the search finds nothing *)

Lemma fruitless_nil (re : regex) : nullable re = false -> fruitless re "".
Proof.
  intros Hn fuel pos _. destruct fuel; cbn [search]; rewrite (matchAt_nil re Hn); reflexivity.
Qed.

Lemma fruitless_cons (re : regex) (x : ascii) (s : string) :
  (byte x <? 128)%N = true ->
  matchAt re (String x s) = None -> fruitless re s -> fruitless re (String x s).
Proof.
  intros Hx Hm Hs fuel pos Hf. cbn [String.length] in Hf.
  destruct fuel as [|fuel]; [lia|].
  rewrite search_step by (discriminate || exact Hm).
  rewrite (decode_ascii x s Hx). cbn [snd from]. apply Hs. lia.
Qed.


Lemma fruitless_MatchString (re : regex) (s : string) :
  fruitless re s <-> MatchString re s = false.
Proof.
  unfold MatchString, doExecute. cbn [from]. split.
  - intros H. now rewrite (H (String.length s) 0%nat (le_n _)).
  - destruct (search (String.length s) re s 0) eqn:E; [discriminate|].
    intros _ fuel pos Hf.
    rewrite (search_fuel re fuel (String.length s) s pos Hf (le_n _)).
    exact (search_pos_None re _ s 0%nat pos E).
Qed.

(** *** One match between text without matches *)













(** *** Quiet text *)

Lemma forallb_andb {A} (f g : A -> bool) (l : list A) :
  forallb (fun x => f x && g x) l = forallb f l && forallb g l.
Proof.
  induction l as [|x l IH]; [reflexivity|]. cbn [forallb]. rewrite IH.
  destruct (f x), (g x), (forallb f l); reflexivity.
Qed.

Lemma quietText_blocked (s : string) :
  quietText s = true ->
  forallb (fun re => blockedText re s) (patterns NewFirewall) = true.
Proof.
  induction s as [|x s IH]; intros H.
  - cbn [blockedText]. apply forallb_forall. reflexivity.
  - cbn [quietText] in H. apply andb_true_iff in H as [Hx Hs].
    cbn [blockedText]. rewrite forallb_andb. apply andb_true_iff.
    split; [exact Hx|apply IH, Hs].
Qed.

Lemma quiet_characters (c : ascii) :
  quiet c = (byte c <? 128)%N && negb (mem c "-ABDJPSTabdgjpst").
Proof. destruct c as [[] [] [] [] [] [] [] []]; vm_compute; reflexivity. Qed.

Lemma blocked_noMatchBegins (re : regex) (pre follows : string) :
  blockedText re pre = true -> noMatchBegins re pre follows.
Proof.
  induction pre as [|x pre IH]; intros H n Hn; [simpl in Hn; lia|].
  cbn [blockedText] in H. apply andb_true_iff in H as [Hx H].
  rewrite append_cons. destruct n as [|n].
  - apply matchAt_blocked, Hx.
  - cbn [from]. apply IH; [exact H|]. simpl in Hn. lia.
Qed.

Lemma blocked_fruitless (re : regex) (s : string) :
  nullable re = false -> blockedText re s = true -> fruitless re s.
Proof.
  intros Hn. induction s as [|x s IH]; intros H; [apply fruitless_nil, Hn|].
  cbn [blockedText] in H. apply andb_true_iff in H as [Hx H].
  apply fruitless_cons; [|apply matchAt_blocked, Hx|apply IH, H].
  unfold blocks in Hx. apply andb_true_iff in Hx as [Hx _].
  apply andb_true_iff in Hx as [Hx _]. exact Hx.
Qed.

Lemma existsb_false {A} (f : A -> bool) (l : list A) :
  existsb f l = false <-> (forall x, In x l -> f x = false).
Proof.
  induction l as [|y l IH]; cbn [existsb In]; [tauto|].
  rewrite orb_false_iff, IH. split.
  - intros [Hy Hl] x [<-|Hx]; [exact Hy|apply Hl, Hx].
  - intros H. split; [apply H; now left|intros x Hx; apply H; now right].
Qed.

Lemma nonnullable_all (re : regex) :
  In re (patterns NewFirewall) -> nullable re = false.
Proof.
  intros H.
  assert (Hall : forallb (fun re => negb (nullable re)) (patterns NewFirewall) = true)
    by (vm_compute; reflexivity).
  rewrite forallb_forall in Hall. apply negb_true_iff, Hall, H.
Qed.

(** Quiet text is silent, and holds nothing a default pattern matches. *)
Lemma quietText_silent (s : string) : quietText s = true -> silent s.
Proof.
  intros H re Hre rest. apply blocked_noMatchBegins.
  pose proof (quietText_blocked s H) as Hb. rewrite forallb_forall in Hb.
  apply Hb, Hre.
Qed.

Lemma quietText_clean (s : string) :
  quietText s = true -> ContainsSecret NewFirewall s = false.
Proof.
  intros H. apply existsb_false. intros re Hre.
  apply fruitless_MatchString, blocked_fruitless; [apply nonnullable_all, Hre|].
  pose proof (quietText_blocked s H) as Hb. rewrite forallb_forall in Hb.
  apply Hb, Hre.
Qed.

(** *** The scenario's assignment in its context *)







(** *** Texts the replacement leaves alone *)



(** What follows a redacted value without a blank is taken for part of
    the value by a second pass. *)
Lemma rescrub_takes_what_follows :
  ScrubText NewFirewall (scenario +:+ "#1") = redacted +:+ "#1" /\
  ScrubText NewFirewall (redacted +:+ "#1") = redacted.
Proof. split; vm_compute; reflexivity. Qed.





(** The same happens behind a key that is followed by a blank: of
    [secret: password: DQ s3cr3t12345 DQ] the assignment pattern takes
    [secret: password:]. *)
Lemma scenario_behind_secret_key :
  ScrubText NewFirewall nestedSecret
    = "secret: [REDACTED] " +:+ String dquote "s3cr3t12345" +:+ String dquote "" /\
  Contains (ScrubText NewFirewall nestedSecret) "password:" = false /\
  Contains (ScrubText NewFirewall nestedSecret) "s3cr3t12345" = true.
Proof. repeat split; vm_compute; reflexivity. Qed.



End FirewallProofs.

(** ** Model router: provider resolution and dispatch *)

Module RouterProofs.
Import GoString GoError model RouterSpec.

Section Resolution.
Context {W : Type}.
Implicit Types (r : Router W) (w : W) (p : Provider W).

Lemma firstAllowed_first r w (skipped rest : list string) (name : string) p :
  Forall (fun n => ~ usable r w n) skipped ->
  providers r !! name = Some p -> Provider_Available p w = true ->
  firstAllowed r w (skipped ++ name :: rest) = Some p.
Proof.
  intros Hskip Hp Hav. induction Hskip as [|n skipped Hn _ IH]; simpl.
  - now rewrite Hp, Hav.
  - destruct (providers r !! n) as [q|] eqn:Hq; [|exact IH].
    destruct (Provider_Available q w) eqn:Hqa; [|exact IH].
    exfalso. apply Hn. exists q. split; assumption.
Qed.

Lemma firstAllowed_None r w (allowed : list string) :
  firstAllowed r w allowed = None <-> Forall (fun n => ~ usable r w n) allowed.
Proof.
  induction allowed as [|n allowed IH]; simpl.
  - split; [constructor|reflexivity].
  - destruct (providers r !! n) as [q|] eqn:Hq.
    + destruct (Provider_Available q w) eqn:Hqa.
      * split; [discriminate|].
        intros H. inversion H as [|? ? Hn _]; subst.
        exfalso. apply Hn. exists q. split; assumption.
      * rewrite IH. split.
        -- intros H. constructor; [|exact H].
           intros (q' & Hq' & Hav). congruence.
        -- intros H. now inversion H.
    + rewrite IH. split.
      * intros H. constructor; [|exact H].
        intros (q' & Hq' & _). congruence.
      * intros H. now inversion H.
Qed.

Lemma resolvePolicies_first r w (before after : list ModelPolicy) (policy : ModelPolicy)
    (projectPath : string) p :
  Forall (barren r w projectPath) before ->
  matched (ProjectPattern policy) projectPath = true ->
  firstAllowed r w (AllowedProviders policy) = Some p ->
  resolvePolicies r w (before ++ policy :: after) projectPath = Some p.
Proof.
  intros Hb Hm Hp. induction Hb as [|q before Hq _ IH]; simpl.
  - now rewrite Hm, Hp.
  - destruct (matched (ProjectPattern q) projectPath) eqn:Hqm; [|exact IH].
    specialize (Hq Hqm). apply firstAllowed_None in Hq.
    now rewrite Hq.
Qed.

Lemma resolvePolicies_None r w (policies : list ModelPolicy) (projectPath : string) :
  resolvePolicies r w policies projectPath = None <->
  Forall (barren r w projectPath) policies.
Proof.
  induction policies as [|q policies IH]; simpl.
  - split; [constructor|reflexivity].
  - destruct (matched (ProjectPattern q) projectPath) eqn:Hqm.
    + destruct (firstAllowed r w (AllowedProviders q)) as [p|] eqn:Hf.
      * split; [discriminate|].
        intros H. inversion H as [|? ? Hq _]; subst.
        specialize (Hq Hqm). apply firstAllowed_None in Hq. congruence.
      * rewrite IH. split.
        -- intros H. constructor; [|exact H].
           intros _. apply firstAllowed_None, Hf.
        -- intros H. now inversion H.
    + rewrite IH. split.
      * intros H. constructor; [|exact H]. intros Hm. unfold barren in *. congruence.
      * intros H. now inversion H.
Qed.

Lemma selectProvider_no_policy r (ctx : GoContext W) w :
  (Value_ctxKeyProject ctx = None \/
   exists pp, Value_ctxKeyProject ctx = Some pp /\ resolveByPolicy r w pp = None) ->
  selectProvider r ctx "" w = afterPolicy r w.
Proof.
  intros H. unfold selectProvider, afterPolicy. simpl.
  assert (Hnone : match Value_ctxKeyProject ctx with
                  | Some pp => resolveByPolicy r w pp
                  | None => None
                  end = None).
  { destruct H as [->|(pp & -> & ->)]; reflexivity. }
  rewrite Hnone.
  destruct (if nonEmpty _ then _ else _); [reflexivity|].
  destruct (providers r !! "anthropic") as [p|]; [|reflexivity].
  destruct (Provider_Available p w); reflexivity.
Qed.

(** C5, as amended: the four steps of [selectProvider], in order.
    (1) A non-empty override resolves to the provider registered under
        the text before its first slash, and is an error at once when
        none is.
    (2) Otherwise, with a project path in the context, the rules are
        tried in order; rules that do not match (or name no usable
        provider) are passed over, and the first registered and
        available provider of the first remaining rule is returned.  In
        the scenario of the specification the result is [local].
    (3) Otherwise the provider registered under the default model's
        prefix.
    (4) Otherwise [anthropic] if registered and available, else
        [ollama] if registered, else an error. *)
Theorem C5_resolution_order (r : Router W) (ctx : GoContext W) (w : W) :
  (forall override, override <> "" ->
     match providers r !! SplitN2_head override "/" with
     | Some p => selectProvider r ctx override w = inl p
     | None =>
         selectProvider r ctx override w
         = inr (errorString ("unknown provider: " +:+ SplitN2_head override "/"))
     end) /\
  (forall pp before policy after skipped name rest p,
     Value_ctxKeyProject ctx = Some pp ->
     Policies (cfg r) = before ++ policy :: after ->
     Forall (barren r w pp) before ->
     matched (ProjectPattern policy) pp = true ->
     AllowedProviders policy = skipped ++ name :: rest ->
     Forall (fun n => ~ usable r w n) skipped ->
     providers r !! name = Some p -> Provider_Available p w = true ->
     selectProvider r ctx "" w = inl p) /\
  (forall (local cloud : Provider W) defaultModel fw,
     Provider_Available local w = true -> Provider_Available cloud w = true ->
     selectProvider (companyRouter local cloud defaultModel fw)
                    (WithProject ctx "/company/app") "" w = inl local) /\
  (forall pp, resolveByPolicy r w pp = None <-> Forall (barren r w pp) (Policies (cfg r))) /\
  ((Value_ctxKeyProject ctx = None \/
    exists pp, Value_ctxKeyProject ctx = Some pp /\ resolveByPolicy r w pp = None) ->
   (forall p, DefaultModel (cfg r) <> "" ->
              providers r !! SplitN2_head (DefaultModel (cfg r)) "/" = Some p ->
              selectProvider r ctx "" w = inl p) /\
   ((DefaultModel (cfg r) = "" \/
     providers r !! SplitN2_head (DefaultModel (cfg r)) "/" = None) ->
    (forall p, providers r !! "anthropic" = Some p -> Provider_Available p w = true ->
               selectProvider r ctx "" w = inl p) /\
    (~ usable r w "anthropic" ->
     match providers r !! "ollama" with
     | Some q => selectProvider r ctx "" w = inl q
     | None => selectProvider r ctx "" w
               = inr (errorString "no available AI model provider")
     end))).
Proof.
  split; [|split; [|split; [|split]]].
  - intros override Hne. unfold selectProvider.
    assert (Hn : nonEmpty override = true).
    { unfold nonEmpty. destruct (String.eqb_spec override ""); [contradiction|reflexivity]. }
    rewrite Hn. destruct (providers r !! SplitN2_head override "/"); reflexivity.
  - intros pp before policy after skipped name rest p Hpp Hpol Hbefore Hm Hallowed
           Hskipped Hp Hav.
    unfold selectProvider. simpl. rewrite Hpp. unfold resolveByPolicy. rewrite Hpol.
    erewrite resolvePolicies_first; [reflexivity|exact Hbefore|exact Hm|].
    rewrite Hallowed. apply firstAllowed_first; assumption.
  - intros local cloud defaultModel fw Hl _.
    unfold selectProvider, companyRouter, resolveByPolicy. simpl.
    replace (matched "/company/*" "/company/app") with true by (vm_compute; reflexivity).
    rewrite lookup_insert_eq, Hl. reflexivity.
  - intros pp. apply resolvePolicies_None.
  - intros Hno. rewrite (selectProvider_no_policy r ctx w Hno). unfold afterPolicy.
    split.
    + intros p Hne Hp.
      assert (Hn : nonEmpty (DefaultModel (cfg r)) = true).
      { unfold nonEmpty. destruct (String.eqb_spec (DefaultModel (cfg r)) "");
          [contradiction|reflexivity]. }
      now rewrite Hn, Hp.
    + intros Hdef.
      assert (Hnone : (if nonEmpty (DefaultModel (cfg r))
                       then providers r !! SplitN2_head (DefaultModel (cfg r)) "/"
                       else None) = None).
      { destruct Hdef as [-> | ->]; [reflexivity|].
        destruct (nonEmpty _); reflexivity. }
      rewrite Hnone. split.
      * intros p Hp Hav. now rewrite Hp, Hav.
      * intros Hun.
        destruct (providers r !! "anthropic") as [p|] eqn:Hp.
        -- destruct (Provider_Available p w) eqn:Hav.
           ++ exfalso. apply Hun. exists p. split; assumption.
           ++ destruct (providers r !! "ollama"); reflexivity.
        -- destruct (providers r !! "ollama"); reflexivity.
Qed.

(** C10: [ScrubRequest] copies the tools, the token limit, the
    temperature and the model, scrubs every message, and leaves
    [WorkingDir] empty.  What [Complete] and [StreamComplete] hand to
    the selected provider is that request, so the provider sees an empty
    working directory whatever the caller set, and the outcome does not
    depend on the caller's hint. *)
Theorem C10_working_dir_dropped (f : Firewall) (req : Request) :
  Request_WorkingDir (ScrubRequest f req) = "" /\
  Request_Tools (ScrubRequest f req) = Request_Tools req /\
  Request_MaxTokens (ScrubRequest f req) = Request_MaxTokens req /\
  Request_Temperature (ScrubRequest f req) = Request_Temperature req /\
  Request_Model (ScrubRequest f req) = Request_Model req /\
  Request_Messages (ScrubRequest f req)
    = map (fun msg => {| Message_Role := Message_Role msg;
                         Message_Content := ScrubText f (Message_Content msg);
                         Message_ToolCalls := Message_ToolCalls msg;
                         Message_ToolCallID := Message_ToolCallID msg |})
          (Request_Messages req) /\
  (forall (r : Router W) (ctx : GoContext W) (w : W) (p : Provider W),
     firewall r = f ->
     selectProvider r ctx (Request_Model req) w = inl p ->
     Complete r ctx req w = relay p (Provider_Complete p ctx (ScrubRequest f req) w) /\
     forall cb, StreamComplete r ctx req cb w
                = Provider_StreamComplete p ctx (ScrubRequest f req) cb w) /\
  (forall dir, ScrubRequest f (withWorkingDir req dir) = ScrubRequest f req) /\
  (forall (r : Router W) (ctx : GoContext W) (w : W) dir,
     Complete r ctx (withWorkingDir req dir) w = Complete r ctx req w /\
     forall cb, StreamComplete r ctx (withWorkingDir req dir) cb w
                = StreamComplete r ctx req cb w).
Proof.
  repeat (split; [reflexivity|]).
  split; [|split].
  - intros r ctx w p <- Hsel. unfold Complete, StreamComplete. rewrite Hsel.
    split; [|reflexivity].
    unfold relay. destruct (Provider_Complete p ctx _ w) as [[resp|err] w']; reflexivity.
  - reflexivity.
  - intros r ctx w dir. split; reflexivity.
Qed.

End Resolution.

(** C5, counterexample: with the rules [/company/*] (local only) and
    [/*/*] (cloud), the local provider registered but unavailable and the
    default model [local/small], a request for the project [/company/app]
    is resolved to the cloud provider.  The first matching rule has not
    decided: as the claim words it, that rule yields nothing and the
    default model's provider, local, is returned. *)
Lemma C5_first_matching_rule_passed_over :
  matched "/company/*" "/company/app" = true /\
  option_map Provider_Name
    (firstAllowed twoRuleRouter 0%nat ["local"]) = None /\
  selectProvider twoRuleRouter companyApp "" 0%nat = inl (echoProvider "cloud") /\
  resolutionAsWorded twoRuleRouter companyApp "" 0%nat = inl (offlineProvider "local") /\
  selectProvider twoRuleRouter companyApp "" 0%nat
  <> resolutionAsWorded twoRuleRouter companyApp "" 0%nat.
Proof.
  assert (H1 : selectProvider twoRuleRouter companyApp "" 0%nat = inl (echoProvider "cloud"))
    by reflexivity.
  assert (H2 : resolutionAsWorded twoRuleRouter companyApp "" 0%nat
               = inl (offlineProvider "local")) by reflexivity.
  split; [reflexivity|]. split; [reflexivity|]. split; [exact H1|]. split; [exact H2|].
  rewrite H1, H2. intros H.
  apply (f_equal (fun x => match x with inl p => Provider_Name p | inr _ => "" end)) in H.
  discriminate H.
Qed.

Lemma C5_resolution_order_witness :
  selectProvider (companyRouter (echoProvider "local") (echoProvider "cloud")
                                "cloud/large" NewFirewall)
                 background "local/small" 0%nat
  = inl (echoProvider "local").
Proof.
  pose proof (C5_resolution_order
                (companyRouter (echoProvider "local") (echoProvider "cloud")
                               "cloud/large" NewFirewall)
                background 0%nat) as [H _].
  specialize (H "local/small"). simpl in H. apply H. discriminate.
Defined.

Lemma C10_working_dir_dropped_witness :
  Complete (companyRouter (echoProvider "local") (echoProvider "cloud")
                          "cloud/large" NewFirewall)
           background
           {| Request_Messages := []; Request_Tools := []; Request_MaxTokens := 4096;
              Request_Temperature := (1 # 10)%Q; Request_Model := "";
              Request_WorkingDir := "/workspace/app" |} 0%nat
  = relay (echoProvider "cloud")
      (Provider_Complete (echoProvider "cloud") background
         {| Request_Messages := []; Request_Tools := []; Request_MaxTokens := 4096;
            Request_Temperature := (1 # 10)%Q; Request_Model := "";
            Request_WorkingDir := "" |} 0%nat).
Proof.
  pose proof (C10_working_dir_dropped (W := nat) NewFirewall
                {| Request_Messages := []; Request_Tools := []; Request_MaxTokens := 4096;
                   Request_Temperature := (1 # 10)%Q; Request_Model := "";
                   Request_WorkingDir := "/workspace/app" |})
    as (_ & _ & _ & _ & _ & _ & H & _).
  apply (H (companyRouter (echoProvider "local") (echoProvider "cloud")
                          "cloud/large" NewFirewall) background 0%nat (echoProvider "cloud")).
  - reflexivity.
  - reflexivity.
Defined.

End RouterProofs.

(** ** Delegated credential: refresh *)

Module CredentialProofs.
Import GoString GoError model CredentialSpec.
Local Open Scope Z_scope.

Lemma nonEmpty_true (s : string) : s <> "" -> nonEmpty s = true.
Proof.
  unfold nonEmpty. intros H. destruct (String.eqb_spec s ""); [contradiction|reflexivity].
Qed.

(** C3, counterexample: with no access token and no refresh token (no
    credential at all, and an endpoint that cannot be reached)
    [refreshIfNeeded] returns nil; and with a refresh token, no access
    token and an endpoint whose answer cannot be decoded it returns nil as
    well. *)
Lemma C3_no_credential_yet_nil :
  ~ degradedRule noon unreachable (credential "" "" 0) tt /\
  ~ degradedRule noon garbled (credential "" "refresh-1" 0) tt.
Proof.
  split; intros H.
  - destruct H as [_ H]; [reflexivity|intros; exact I|].
    apply H; reflexivity.
  - destruct H as [_ H]; [reflexivity|intros; right; eexists; reflexivity|].
    apply H; reflexivity.
Qed.

Section Refresh.
Context {W : Type}.
Variable UnixMilli : W -> Z.
Variable Post : string -> string -> string -> W -> PostOutcome * W.

(** C3, as amended: [refreshIfNeeded] returns nil whenever a cached
    access token is present, however the exchange goes.  With no cached
    access token it returns an error when the exchange is attempted and
    the request cannot be performed or is answered with a status other
    than 200.  When no exchange is attempted (the provider is not OAuth,
    there is no refresh token, or the token is valid for more than five
    minutes) it returns nil and leaves credential and world as they
    were. *)
Theorem C3_degraded_continue (p : AnthropicProvider) (w : W) :
  (accessToken p <> "" -> fst (fst (refreshIfNeeded UnixMilli Post p w)) = None) /\
  (accessToken p = "" -> attempts UnixMilli p w = true ->
   match fst (Post "https://console.anthropic.com/v1/oauth/token"
                   "application/x-www-form-urlencoded"
                   ("grant_type=refresh_token&refresh_token=" +:+ refreshToken p) w) with
   | PostError err =>
       fst (fst (refreshIfNeeded UnixMilli Post p w))
       = Some (Errorf_w "OAuth refresh request: " err)
   | PostResponse StatusCode Body _ =>
       StatusCode <> 200 ->
       fst (fst (refreshIfNeeded UnixMilli Post p w))
       = Some (errorString ("OAuth refresh failed (" +:+ itoa StatusCode
                            +:+ "): " +:+ Body))
   end) /\
  (attempts UnixMilli p w = false -> refreshIfNeeded UnixMilli Post p w = (None, p, w)).
Proof.
  unfold attempts, normalized, refreshIfNeeded.
  destruct (isOAuth p); simpl; [|repeat split; congruence].
  destruct (nonEmpty (refreshToken p)) eqn:Hr; simpl; [|repeat split; congruence].
  set (e := if (0 <? expiresAt p) && (expiresAt p <? 10 ^ 12)
            then int64 (expiresAt p * 1000) else expiresAt p).
  destruct ((0 <? e) && (UnixMilli w <? int64 (e - 5 * 60 * 1000))) eqn:Hvalid; simpl;
    [repeat split; congruence|].
  split; [|split].
  - intros Ha. rewrite (nonEmpty_true _ Ha).
    destruct ((e =? 0) && true); [reflexivity|].
    destruct (Post _ _ _ w) as [[err|status body decoded] w']; [reflexivity|].
    destruct (negb (status =? 200)); [reflexivity|].
    destruct decoded; reflexivity.
  - intros Ha. rewrite Ha. simpl. rewrite andb_false_r. simpl. intros _.
    destruct (Post _ _ _ w) as [[err|status body decoded] w']; simpl; [reflexivity|].
    intros Hs. apply Z.eqb_neq in Hs. now rewrite Hs.
  - destruct ((e =? 0) && nonEmpty (accessToken p)); simpl; congruence.
Qed.

End Refresh.

Lemma C3_degraded_continue_witness :
  fst (fst (refreshIfNeeded noon rejecting (credential "sk-ant-oat-stale" "refresh-1" 1) tt))
    = None /\
  fst (fst (refreshIfNeeded noon rejecting (credential "" "refresh-1" 1) tt))
    = Some (errorString "OAuth refresh failed (401): invalid_grant").
Proof.
  split.
  - apply (C3_degraded_continue noon rejecting
             (credential "sk-ant-oat-stale" "refresh-1" 1) tt).
    discriminate.
  - pose proof (C3_degraded_continue noon rejecting (credential "" "refresh-1" 1) tt)
      as (_ & H & _).
    apply H; [reflexivity|reflexivity|discriminate].
Defined.

End CredentialProofs.

(** ** Agent loop: outcomes of a turn *)

Module RuntimeProofs.
Import GoString GoError agent MemorySpec MemoryProofs RouterSpec RuntimeSpec.

Section Loop.
Context {W : Type}.
Variable Now : W -> Z.
Implicit Types (r : Runtime W) (ctx : model.GoContext W) (s : State W).

Lemma bind_ret {A B} (a : A) (k : A -> M W B) s : bind (ret a) k s = k a s.
Proof. reflexivity. Qed.

Lemma bind_bind {A B C} (c : M W A) (k : A -> M W B) (k' : B -> M W C) s :
  bind (bind c k) k' s = bind c (fun a => bind (k a) k') s.
Proof. unfold bind. destruct (c s) as [[a s1]|]; reflexivity. Qed.

Lemma bind_invoke {B} (cb : option (W -> W)) (e : Event) (k : unit -> M W B) s :
  bind (invoke cb e) k s =
    k tt {| memory := memory s; world := applyCb cb (world s);
            trace := trace s ++ observed cb e |}.
Proof.
  destruct cb; simpl; [reflexivity|].
  unfold bind, ret. destruct s; simpl. now rewrite app_nil_r.
Qed.

Lemma bind_emit {B} (e : Event) (k : unit -> M W B) s :
  bind (emit e) k s =
    k tt {| memory := memory s; world := world s; trace := trace s ++ [e] |}.
Proof. reflexivity. Qed.

Lemma bind_readWorld {A B} (f : W -> A) (k : A -> M W B) s :
  bind (readWorld f) k s = k (f (world s)) s.
Proof. reflexivity. Qed.

Lemma bind_callWorld {A B} (f : W -> A * W) (k : A -> M W B) s :
  bind (callWorld f) k s =
    k (fst (f (world s)))
      {| memory := memory s; world := snd (f (world s)); trace := trace s |}.
Proof. unfold bind, callWorld. destruct (f (world s)); reflexivity. Qed.

Lemma bind_memoryGet {B} (sid : string) (k : list Message -> M W B) s :
  bind (memoryGet sid) k s = k (Get (memory s) sid) s.
Proof. reflexivity. Qed.

Lemma bind_memoryAdd {B} (sid : string) (msg : Message) (k : unit -> M W B) s :
  capped (memory s) ->
  bind (memoryAdd sid msg) k s =
    k tt {| memory := {| sessions := <[sid := retain (Get (memory s) sid ++ [msg])]>
                                       (sessions (memory s));
                         maxSize := 200 |};
            world := world s; trace := trace s |}.
Proof. intros Hc. unfold bind, memoryAdd. now rewrite (Add_capped _ _ _ Hc). Qed.

Lemma buildContext_run r (sid : string) s :
  buildContext r sid s =
    Some ({| model.Message_Role := "system";
             model.Message_Content := buildSystemPrompt r (world s);
             model.Message_ToolCalls := [];
             model.Message_ToolCallID := "" |}
          :: map toModelMessage (Get (memory s) sid), s).
Proof. reflexivity. Qed.

Lemma toolStep_run r ctx (sid : string) (tc : model.ToolCall) s :
  capped (memory s) ->
  exists p s' evs,
    toolStep Now r ctx sid tc s = Some (p, s') /\
    advances s s' evs /\
    Forall (fun e => isToolEvent e = true) evs /\
    Get (memory s') sid
      = retain (Get (memory s) sid
                ++ [toolMessage tc
                      (outcomeOf r ctx tc
                         (applyCb (option_map (fun f => f (model.ToolCall_Name tc)
                                                          (model.ToolCall_Input tc))
                                              (cb_OnToolCall (callbacks r)))
                                  (world s)))
                      (Now (world s'))]) /\
    (forall sid', sid' <> sid -> Get (memory s') sid' = Get (memory s) sid').
Proof.
  intros Hc. unfold toolStep.
  rewrite bind_invoke.
  set (cb1 := option_map _ (cb_OnToolCall (callbacks r))).
  assert (Hdone : forall (result : ToolResult) (s1 : State W) (evs1 : list Event),
            memory s1 = memory s -> trace s1 = trace s ++ evs1 ->
            Forall (fun e => isToolEvent e = true) evs1 ->
            exists p s' evs,
              bind (invoke (option_map (fun f => f (model.ToolCall_Name tc) result)
                                       (cb_OnToolResult (callbacks r)))
                           (OnToolResult (model.ToolCall_Name tc) result))
                   (fun _ =>
                      bind (readWorld Now)
                        (fun now =>
                           bind (memoryAdd sid
                                   {| Role := "tool";
                                      Content := if model.nonEmpty (Error_ result)
                                                 then "Error: " +:+ Error_ result
                                                 else Output result;
                                      Timestamp := now; ToolCalls := [];
                                      ToolCallID := model.ToolCall_ID tc;
                                      ToolName := model.ToolCall_Name tc |})
                                (fun _ => buildContext r sid))) s1
              = Some (p, s') /\
              advances s s' evs /\
              Forall (fun e => isToolEvent e = true) evs /\
              Get (memory s') sid
                = retain (Get (memory s) sid ++ [toolMessage tc result (Now (world s'))]) /\
              (forall sid', sid' <> sid -> Get (memory s') sid' = Get (memory s) sid')).
  { intros result s1 evs1 Hm Ht Hev.
    rewrite bind_invoke, bind_readWorld, bind_memoryAdd by (simpl; now rewrite Hm).
    rewrite buildContext_run. simpl.
    do 3 eexists. split; [reflexivity|]. split; [split; [reflexivity|]|split; [|split]].
    - simpl. rewrite Ht, <- app_assoc. reflexivity.
    - apply Forall_app. split; [exact Hev|].
      destruct (cb_OnToolResult (callbacks r)); simpl; repeat constructor.
    - simpl. rewrite Get_insert. destruct (decide (sid = sid)); [|done].
      rewrite Hm. reflexivity.
    - intros sid' Hne. simpl. rewrite Get_insert.
      destruct (decide (sid = sid')); [congruence|]. rewrite Hm.
      destruct (memory s); reflexivity. }
  assert (Hcb1 : Forall (fun e => isToolEvent e = true)
                   (observed cb1 (OnToolCall (model.ToolCall_Name tc)
                                             (model.ToolCall_Input tc)))).
  { destruct cb1; simpl; repeat constructor. }
  unfold executeTool, outcomeOf.
  destruct (toolExec r) as [exec|].
  - rewrite bind_bind, bind_emit, bind_callWorld. simpl.
    destruct (Execute exec ctx _ _ _) as [[result [err|]] w'] eqn:HE; simpl.
    + rewrite bind_bind, bind_emit, bind_ret.
      apply (Hdone (failure (Error err)) _
               (observed cb1 (OnToolCall (model.ToolCall_Name tc) (model.ToolCall_Input tc))
                ++ [CallExecute (model.ToolCall_Name tc) (model.ToolCall_Input tc)]
                ++ [LogPrintf ("Tool execution error: " +:+ Error err)])).
      * reflexivity.
      * simpl. rewrite <- !app_assoc. reflexivity.
      * apply Forall_app. split; [exact Hcb1|]. repeat constructor.
    + rewrite bind_ret.
      apply (Hdone result _
               (observed cb1 (OnToolCall (model.ToolCall_Name tc) (model.ToolCall_Input tc))
                ++ [CallExecute (model.ToolCall_Name tc) (model.ToolCall_Input tc)])).
      * reflexivity.
      * simpl. rewrite <- !app_assoc. reflexivity.
      * apply Forall_app. split; [exact Hcb1|]. repeat constructor.
  - rewrite bind_ret. simpl. rewrite bind_bind, bind_emit, bind_ret.
    apply (Hdone (failure "no tool executor configured") _
             (observed cb1 (OnToolCall (model.ToolCall_Name tc) (model.ToolCall_Input tc))
              ++ [LogPrintf ("Tool execution error: no tool executor configured")])).
    + reflexivity.
    + simpl. rewrite <- !app_assoc. reflexivity.
    + apply Forall_app. split; [exact Hcb1|]. repeat constructor.
Qed.

Lemma advances_refl s : capped (memory s) -> advances s s [].
Proof. intros Hc. split; [exact Hc|]. now rewrite app_nil_r. Qed.

Lemma advances_trans s s1 s2 (e1 e2 : list Event) :
  advances s s1 e1 -> advances s1 s2 e2 -> advances s s2 (e1 ++ e2).
Proof.
  intros [_ H1] [Hc H2]. split; [exact Hc|]. now rewrite H2, H1, app_assoc.
Qed.

Lemma toolEvent_quiet (evs : list Event) :
  Forall (fun e => isToolEvent e = true) evs ->
  Forall (fun e => isTerminal e = false) evs /\ completions evs = 0%nat.
Proof.
  induction 1 as [|e evs He _ [IH1 IH2]]; [split; [constructor|reflexivity]|].
  destruct e; try discriminate He; (split; [constructor; [reflexivity|exact IH1]|exact IH2]).
Qed.

Lemma toolLoop_run r ctx (sid : string) (tcs : list model.ToolCall) :
  forall (p : list model.Message) s,
    capped (memory s) ->
    exists p' s' evs,
      toolLoop Now r ctx sid tcs p s = Some (p', s') /\
      advances s s' evs /\
      Forall (fun e => isToolEvent e = true) evs.
Proof.
  induction tcs as [|tc tcs IH]; intros p s Hc; simpl.
  - exists p, s, []. split; [reflexivity|]. split; [apply advances_refl, Hc|constructor].
  - destruct (toolStep_run r ctx sid tc s Hc) as (p1 & s1 & e1 & Hrun & Hadv & Hev & _).
    unfold bind at 1. rewrite Hrun.
    destruct (IH p1 s1 (proj1 Hadv)) as (p2 & s2 & e2 & Hrun2 & Hadv2 & Hev2).
    exists p2, s2, (e1 ++ e2). split; [exact Hrun2|].
    split; [eapply advances_trans; eassumption|].
    apply Forall_app. split; assumption.
Qed.

Lemma completions_app (a b : list Event) :
  completions (a ++ b) = (completions a + completions b)%nat.
Proof. unfold completions. now rewrite filter_app, length_app. Qed.

Lemma completions_observed {A} (cb : option A) (e : Event) :
  isCompletion e = false -> completions (observed cb e) = 0%nat.
Proof.
  intros He. destruct cb; [|reflexivity].
  unfold completions; simpl. rewrite filter_cons.
  destruct (decide (isCompletion e = true)); [congruence|reflexivity].
Qed.

Lemma Outcome_prefix r ctx (n : nat) (pre evs : list Event) (res : option error) :
  Forall (fun e => isTerminal e = false) pre ->
  completions pre = 1%nat ->
  Outcome r ctx n res evs -> Outcome r ctx (S n) res (pre ++ evs).
Proof.
  intros Hpre Hone Hout. destruct Hout as [body content Hq Hn|body req w w' err Hq Hn HC
                                          |body w err Hq Hn Herr|body Hq Hn].
  - rewrite app_assoc. apply Final; [apply Forall_app; split; assumption|].
    rewrite completions_app, Hone. lia.
  - rewrite app_assoc. eapply ProviderFailed; [apply Forall_app; split; assumption| |exact HC].
    rewrite completions_app, Hone. lia.
  - eapply Cancelled; [apply Forall_app; split; assumption| |exact Herr].
    rewrite completions_app, Hone. lia.
  - apply Exhausted; [apply Forall_app; split; assumption|].
    rewrite completions_app, Hone. lia.
Qed.

Lemma Outcome_bound r ctx (n : nat) (res : option error) (evs : list Event) :
  Outcome r ctx n res evs -> (completions evs <= n)%nat.
Proof.
  intros Hout. destruct Hout; rewrite ?completions_app;
    rewrite ?completions_observed by reflexivity; lia.
Qed.

Lemma budgetError_eq :
  errorString ("agent loop exceeded max iterations (" +:+ itoa maxIterations +:+ ")")
  = budgetError.
Proof. reflexivity. Qed.

Lemma bind_inv {A B} (c : M W A) (k : A -> M W B) s (b : B) s' :
  bind c k s = Some (b, s') ->
  exists a s1, c s = Some (a, s1) /\ k a s1 = Some (b, s').
Proof.
  unfold bind. destruct (c s) as [[a s1]|]; [|discriminate].
  intros H. exists a, s1. split; [reflexivity|exact H].
Qed.

(** A step hands on the context rebuilt from the memory it leaves. *)
Lemma toolStep_prompt r ctx (sid : string) (tc : model.ToolCall) s
    (p : list model.Message) s' :
  toolStep Now r ctx sid tc s = Some (p, s') ->
  p = promptOf r (Get (memory s') sid) (world s').
Proof.
  unfold toolStep. intros H.
  apply bind_inv in H as (? & ? & _ & H).
  apply bind_inv in H as (? & ? & _ & H).
  apply bind_inv in H as (? & ? & _ & H).
  apply bind_inv in H as (? & ? & _ & H).
  apply bind_inv in H as (? & ? & _ & H).
  apply bind_inv in H as (? & ? & _ & H).
  rewrite buildContext_run in H. injection H as <- <-. reflexivity.
Qed.

Lemma retain_last (h : list Message) (x : Message) : last (retain (h ++ [x])) = Some x.
Proof.
  unfold retain. destruct (200 <? length (h ++ [x]))%nat eqn:Hn; [|apply last_snoc].
  apply Nat.ltb_lt in Hn. rewrite length_app in *. simpl in *.
  rewrite drop_app_le by lia. rewrite app_assoc. apply last_snoc.
Qed.

(** The loop over the invocations of a response runs to its end, whatever
    the executor does; the newest message of the session is then the tool
    message of the last invocation, and the context handed on is rebuilt
    from the session. *)
Lemma toolLoop_last r ctx (sid : string) (tcs : list model.ToolCall) :
  forall (p : list model.Message) s,
    capped (memory s) ->
    tcs <> [] ->
    exists p' s' evs tc w now,
      toolLoop Now r ctx sid tcs p s = Some (p', s') /\
      advances s s' evs /\
      Forall (fun e => isToolEvent e = true) evs /\
      last tcs = Some tc /\
      last (Get (memory s') sid) = Some (toolMessage tc (outcomeOf r ctx tc w) now) /\
      p' = promptOf r (Get (memory s') sid) (world s').
Proof.
  induction tcs as [|tc tcs IH]; intros p s Hc Hne; [contradiction|].
  cbn [toolLoop].
  destruct (toolStep_run r ctx sid tc s Hc) as (p1 & s1 & e1 & Hrun & Hadv & Hev & HG & _).
  unfold bind at 1. rewrite Hrun.
  destruct tcs as [|tc' tcs'].
  - cbn [toolLoop]. eexists p1, s1, e1, tc, _, _. split; [reflexivity|].
    split; [exact Hadv|]. split; [exact Hev|]. split; [reflexivity|].
    split; [rewrite HG; apply retain_last|]. eapply toolStep_prompt, Hrun.
  - destruct (IH p1 s1 (proj1 Hadv)) as (p' & s' & e2 & tcl & w & now & Hloop & Hadv2 & Hev2
                                         & Hlast & Hmsg & Hp); [discriminate|].
    exists p', s', (e1 ++ e2), tcl, w, now. split; [exact Hloop|].
    split; [eapply advances_trans; eassumption|].
    split; [apply Forall_app; split; assumption|].
    split; [exact Hlast|]. split; [exact Hmsg|exact Hp].
Qed.

(** One iteration whose completion asks for tools: the turn goes on with
    the next iteration, whatever the executor did. *)
Lemma agentLoop_round r ctx (sid : string) (n : nat) (p : list model.Message) s
    (resp : model.Response) (w2 : W) :
  capped (memory s) ->
  model.Err ctx (world s) = None ->
  model.Complete (router r) ctx
    (requestOf r p (applyCb (option_map (fun f => f "Thinking...")
                                        (cb_OnThinking (callbacks r))) (world s)))
    (applyCb (option_map (fun f => f "Thinking...") (cb_OnThinking (callbacks r))) (world s))
  = (inl (Some resp), w2) ->
  model.Response_ToolCalls resp <> [] ->
  exists p' s' evs tc w now,
    agentLoop Now (S n) r ctx sid p s = agentLoop Now n r ctx sid p' s' /\
    advances s s' evs /\
    Forall (fun e => isTerminal e = false) evs /\
    completions evs = 1%nat /\
    last (model.Response_ToolCalls resp) = Some tc /\
    last (Get (memory s') sid) = Some (toolMessage tc (outcomeOf r ctx tc w) now) /\
    p' = promptOf r (Get (memory s') sid) (world s').
Proof.
  intros Hc Herr HC Hne.
  cbn [agentLoop]. rewrite bind_readWorld, Herr.
  rewrite bind_invoke, bind_readWorld, bind_emit, bind_callWorld.
  cbn [world memory trace].
  set (cbT := option_map _ (cb_OnThinking (callbacks r))) in *.
  set (w1 := applyCb cbT (world s)) in *.
  fold (requestOf r p w1).
  set (head := observed cbT (OnThinking "Thinking...") ++ [CallComplete (requestOf r p w1)]).
  assert (Hhead : Forall (fun e => isTerminal e = false) head).
  { unfold head. apply Forall_app. split; [destruct cbT|]; simpl; repeat constructor. }
  assert (Hhc : completions head = 1%nat).
  { unfold head. rewrite completions_app, completions_observed by reflexivity.
    reflexivity. }
  rewrite HC. cbn [fst snd]. rewrite bind_readWorld. cbn [world].
  destruct (model.Response_ToolCalls resp) as [|tc0 tcs] eqn:Htc; [contradiction|].
  rewrite bind_memoryAdd by exact Hc.
  match goal with
  | |- context [bind (toolLoop _ _ _ _ _ _) _ ?st] => set (s1 := st)
  end.
  assert (Hc1 : capped (memory s1)) by reflexivity.
  destruct (toolLoop_last r ctx sid (tc0 :: tcs) p s1 Hc1)
    as (p' & s2 & e2 & tc & w & now & Hrun & Hadv & Hev & Hlast & Hmsg & Hp); [discriminate|].
  unfold bind at 1. rewrite Hrun.
  destruct (toolEvent_quiet _ Hev) as [Hq Hz].
  exists p', s2, (head ++ e2), tc, w, now. split; [reflexivity|].
  split; [split; [exact (proj1 Hadv)|]|].
  { rewrite (proj2 Hadv). unfold s1, head. cbn [trace]. rewrite <- !app_assoc. reflexivity. }
  split; [apply Forall_app; split; assumption|].
  split; [rewrite completions_app, Hhc, Hz; lia|].
  split; [exact Hlast|]. split; [exact Hmsg|exact Hp].
Qed.

Lemma agentLoop_outcome r ctx (sid : string) (n : nat) :
  responds r ctx ->
  forall (p : list model.Message) s,
    capped (memory s) ->
    exists res s' evs,
      agentLoop Now n r ctx sid p s = Some (res, s') /\
      advances s s' evs /\
      Outcome r ctx n res evs.
Proof.
  intros Hresp. induction n as [|n IH]; intros p s Hc.
  - exists (Some budgetError), s, []. split; [reflexivity|].
    split; [apply advances_refl, Hc|]. apply Exhausted; [constructor|reflexivity].
  - destruct (model.Err ctx (world s)) as [err|] eqn:Herr.
    + cbn [agentLoop]. rewrite bind_readWorld, Herr.
      exists (Some err), s, []. split; [reflexivity|].
      split; [apply advances_refl, Hc|].
      eapply Cancelled; [constructor| |exact Herr]. change (completions []) with 0%nat. lia.
    + set (cbT := option_map (fun f => f "Thinking...") (cb_OnThinking (callbacks r))).
      set (w1 := applyCb cbT (world s)).
      set (head := observed cbT (OnThinking "Thinking...") ++ [CallComplete (requestOf r p w1)]).
      assert (Hhead : Forall (fun e => isTerminal e = false) head).
      { unfold head. apply Forall_app. split; [destruct cbT|]; simpl; repeat constructor. }
      assert (Hhc : completions head = 1%nat).
      { unfold head. rewrite completions_app, completions_observed by reflexivity.
        reflexivity. }
      destruct (model.Complete (router r) ctx (requestOf r p w1) w1)
        as [[[resp|]|err] w2] eqn:HC.
      * destruct (model.Response_ToolCalls resp) as [|tc tcs] eqn:Htc.
        -- cbn [agentLoop]. rewrite bind_readWorld, Herr.
           rewrite bind_invoke, bind_readWorld, bind_emit, bind_callWorld.
           cbn [world memory trace]. fold cbT. fold w1. fold (requestOf r p w1).
           rewrite HC. cbn [fst snd]. rewrite bind_readWorld. cbn [world]. rewrite Htc.
           rewrite bind_memoryAdd by exact Hc.
           rewrite bind_invoke, bind_invoke. cbn [world memory trace].
           replace (observed (option_map _ (cb_OnResponse (callbacks r))) _)
             with (observed (cb_OnResponse (callbacks r))
                            (OnResponse (model.Response_Content resp)))
             by (destruct (cb_OnResponse (callbacks r)); reflexivity).
           exists None. eexists.
           exists (head ++ observed (cb_OnResponse (callbacks r))
                                    (OnResponse (model.Response_Content resp))
                        ++ observed (cb_OnDone (callbacks r)) OnDone).
           split; [reflexivity|].
           split; [split; [reflexivity|]|].
           ++ cbn [trace]. unfold head. rewrite <- !app_assoc. reflexivity.
           ++ apply Final; [exact Hhead|]. rewrite Hhc. lia.
        -- destruct (agentLoop_round r ctx sid n p s resp w2 Hc Herr HC)
             as (p' & s2 & e2 & _ & _ & _ & Hrun & Hadv & Hq & Hone & _);
             [rewrite Htc; discriminate|].
           rewrite Hrun.
           destruct (IH p' s2 (proj1 Hadv)) as (res & s3 & e3 & Hrun3 & Hadv3 & Hout).
           exists res, s3, (e2 ++ e3). split; [exact Hrun3|].
           split; [eapply advances_trans; eassumption|].
           apply Outcome_prefix; assumption.
      * exfalso. exact (Hresp _ _ _ HC).
      * cbn [agentLoop]. rewrite bind_readWorld, Herr.
        rewrite bind_invoke, bind_readWorld, bind_emit, bind_callWorld.
        cbn [world memory trace]. fold cbT. fold w1. fold (requestOf r p w1).
        rewrite HC. cbn [fst snd]. rewrite bind_invoke.
        replace (observed (option_map _ (cb_OnError (callbacks r))) _)
          with (observed (cb_OnError (callbacks r)) (OnError err))
          by (destruct (cb_OnError (callbacks r)); reflexivity).
        exists (Some (Errorf_w "model completion error: " err)). eexists.
        exists (head ++ observed (cb_OnError (callbacks r)) (OnError err)).
        split; [reflexivity|].
        split; [split; [exact Hc|]|].
        -- cbn [trace]. unfold head. rewrite <- !app_assoc. reflexivity.
        -- eapply ProviderFailed; [exact Hhead| |exact HC]. rewrite Hhc. lia.
Qed.

(** A nil response without error is dereferenced: the turn panics. *)
Lemma agentLoop_nil r ctx (sid : string) (n : nat) (p : list model.Message) s (w2 : W) :
  model.Err ctx (world s) = None ->
  model.Complete (router r) ctx
    (requestOf r p (applyCb (option_map (fun f => f "Thinking...")
                                        (cb_OnThinking (callbacks r))) (world s)))
    (applyCb (option_map (fun f => f "Thinking...") (cb_OnThinking (callbacks r))) (world s))
  = (inl None, w2) ->
  agentLoop Now (S n) r ctx sid p s = None.
Proof.
  intros Herr HC. cbn [agentLoop]. rewrite bind_readWorld, Herr.
  rewrite bind_invoke, bind_readWorld, bind_emit, bind_callWorld.
  cbn [world memory trace]. fold (requestOf r p
    (applyCb (option_map (fun f => f "Thinking...") (cb_OnThinking (callbacks r))) (world s))).
  rewrite HC. reflexivity.
Qed.

Lemma ProcessMessage_run r ctx (sid message : string) s :
  capped (memory s) ->
  exists p s0,
    ProcessMessage Now r ctx sid message s = agentLoop Now 20 r ctx sid p s0 /\
    capped (memory s0) /\ trace s0 = trace s /\ world s0 = world s.
Proof.
  intros Hc. unfold ProcessMessage.
  rewrite bind_readWorld, bind_memoryAdd by exact Hc.
  unfold bind at 1. rewrite buildContext_run.
  do 2 eexists. split; [reflexivity|]. repeat split.
Qed.

Lemma agentLoop_exhausts r ctx (sid : string) :
  (forall w, model.Err ctx w = None) ->
  (forall req w, model.Request_Model req = "" ->
     exists resp w', model.Complete (router r) ctx req w = (inl (Some resp), w') /\
                     model.Response_ToolCalls resp <> []) ->
  forall (n : nat) (p : list model.Message) s,
    capped (memory s) ->
    exists s' evs,
      agentLoop Now n r ctx sid p s = Some (Some budgetError, s') /\
      advances s s' evs /\
      Forall (fun e => isTerminal e = false) evs /\
      completions evs = n.
Proof.
  intros Hlive Hcalls. induction n as [|n IH]; intros p s Hc.
  - exists s, []. split; [reflexivity|]. split; [apply advances_refl, Hc|].
    split; [constructor|reflexivity].
  - cbn [agentLoop]. rewrite bind_readWorld, Hlive.
    rewrite bind_invoke, bind_readWorld, bind_emit, bind_callWorld.
    cbn [world memory trace].
    set (cbT := option_map _ (cb_OnThinking (callbacks r))).
    set (w1 := applyCb cbT (world s)).
    fold (requestOf r p w1).
    set (head := observed cbT (OnThinking "Thinking...") ++ [CallComplete (requestOf r p w1)]).
    assert (Hhead : Forall (fun e => isTerminal e = false) head).
    { unfold head. apply Forall_app. split; [destruct cbT|]; simpl; repeat constructor. }
    assert (Hhc : completions head = 1%nat).
    { unfold head. rewrite completions_app, completions_observed by reflexivity.
      reflexivity. }
    destruct (Hcalls (requestOf r p w1) w1 eq_refl) as (resp & w2 & HC & Hne).
    rewrite HC. cbn [fst snd]. rewrite bind_readWorld. cbn [world].
    destruct (model.Response_ToolCalls resp) as [|tc tcs] eqn:Htc; [contradiction|].
    rewrite bind_memoryAdd by exact Hc.
    match goal with
    | |- context [bind (toolLoop _ _ _ _ _ _) _ ?st] => set (s1 := st)
    end.
    assert (Hc1 : capped (memory s1)) by reflexivity.
    destruct (toolLoop_run r ctx sid (tc :: tcs) p s1 Hc1)
      as (p' & s2 & e2 & Hrun & Hadv & Hev).
    unfold bind at 1. rewrite Hrun.
    destruct (IH p' s2 (proj1 Hadv)) as (s3 & e3 & Hrun3 & Hadv3 & Hq3 & Hcnt).
    exists s3, (head ++ e2 ++ e3). split; [exact Hrun3|].
    destruct (toolEvent_quiet _ Hev) as [Hq Hz].
    split; [split; [exact (proj1 Hadv3)|]|split].
    + rewrite (proj2 Hadv3), (proj2 Hadv). unfold s1, head. cbn [trace].
      rewrite <- !app_assoc. reflexivity.
    + apply Forall_app; split; [exact Hhead|]. apply Forall_app; split; assumption.
    + rewrite !completions_app, Hhc, Hz, Hcnt. lia.
Qed.

End Loop.

Section Turn.
Context {W : Type}.
Variable Now : W -> Z.
Implicit Types (r : Runtime W) (ctx : model.GoContext W) (s : State W).

(** C2: when the context stays live and the router answers every
    request of the turn with a response that carries at least one tool
    invocation, [ProcessMessage] returns the iteration-budget error after
    exactly 20 completions.  The error is a plain error value that wraps
    no provider error, and no response, done or error event is
    delivered. *)
Theorem C2_iteration_budget r ctx (sid message : string) s :
  capped (memory s) ->
  (forall w, model.Err ctx w = None) ->
  (forall req w, model.Request_Model req = "" ->
     exists resp w', model.Complete (router r) ctx req w = (inl (Some resp), w') /\
                     model.Response_ToolCalls resp <> []) ->
  exists s' evs,
    ProcessMessage Now r ctx sid message s = Some (Some budgetError, s') /\
    trace s' = trace s ++ evs /\
    completions evs = 20%nat /\
    Forall (fun e => isTerminal e = false) evs /\
    Error budgetError = "agent loop exceeded max iterations (20)" /\
    Unwrap budgetError = None /\
    (forall err, budgetError <> Errorf_w "model completion error: " err).
Proof.
  intros Hc Hlive Hcalls.
  destruct (ProcessMessage_run Now r ctx sid message s Hc) as (p & s0 & -> & Hc0 & Ht0 & _).
  destruct (agentLoop_exhausts Now r ctx sid Hlive Hcalls 20 p s0 Hc0)
    as (s' & evs & Hrun & [_ Ht] & Hq & Hn).
  exists s', evs. split; [exact Hrun|]. split; [now rewrite Ht, Ht0|].
  split; [exact Hn|]. split; [exact Hq|].
  repeat split. intros err. discriminate.
Qed.

(** C6, as amended: an execution that fails with a non-empty message
    does not end the turn.  The step for that invocation completes, its
    events are tool events only, and the last message of the session is
    then the tool message with content [Error: <message>] and the
    invocation's id.  The loop over the invocations of a response always
    runs to its end.  An iteration whose response carries invocations is
    always followed by the next iteration, whatever the executor returned:
    it has made one completion and reported no response, done or error, the
    newest message of the session is the tool message of the last
    invocation, and the next prompt is rebuilt from the session.  A turn
    therefore ends in one of four ways only, none of them a tool error: a
    final response or a failed completion after at most 20 completions, a
    done context, or the budget error after exactly 20 completions
    (providers that return neither a response nor an error set aside). *)
Theorem C6_tool_errors_fed_back r ctx (sid : string) s :
  capped (memory s) ->
  (forall tc exec result err w',
     toolExec r = Some exec ->
     Execute exec ctx (model.ToolCall_Name tc) (model.ToolCall_Input tc)
       (applyCb (option_map (fun f => f (model.ToolCall_Name tc) (model.ToolCall_Input tc))
                            (cb_OnToolCall (callbacks r)))
                (world s))
     = (result, Some err, w') ->
     Error err <> "" ->
     exists p s' evs now,
       toolStep Now r ctx sid tc s = Some (p, s') /\
       advances s s' evs /\
       Forall (fun e => isToolEvent e = true) evs /\
       last (Get (memory s') sid)
       = Some {| Role := "tool"; Content := "Error: " +:+ Error err;
                 Timestamp := now; ToolCalls := [];
                 ToolCallID := model.ToolCall_ID tc;
                 ToolName := model.ToolCall_Name tc |}) /\
  (forall tcs p,
     exists p' s' evs,
       toolLoop Now r ctx sid tcs p s = Some (p', s') /\
       advances s s' evs /\
       Forall (fun e => isToolEvent e = true) evs) /\
  (forall n p resp w2,
     model.Err ctx (world s) = None ->
     model.Complete (router r) ctx
       (requestOf r p (applyCb (option_map (fun f => f "Thinking...")
                                           (cb_OnThinking (callbacks r))) (world s)))
       (applyCb (option_map (fun f => f "Thinking...") (cb_OnThinking (callbacks r)))
                (world s))
     = (inl (Some resp), w2) ->
     model.Response_ToolCalls resp <> [] ->
     exists p' s' evs tc w now,
       agentLoop Now (S n) r ctx sid p s = agentLoop Now n r ctx sid p' s' /\
       advances s s' evs /\
       Forall (fun e => isTerminal e = false) evs /\
       completions evs = 1%nat /\
       last (model.Response_ToolCalls resp) = Some tc /\
       last (Get (memory s') sid) = Some (toolMessage tc (outcomeOf r ctx tc w) now) /\
       p' = promptOf r (Get (memory s') sid) (world s')) /\
  (responds r ctx ->
   forall message,
     exists res s' evs,
       ProcessMessage Now r ctx sid message s = Some (res, s') /\
       trace s' = trace s ++ evs /\
       Outcome r ctx 20 res evs).
Proof.
  intros Hc. split; [|split; [|split]].
  - intros tc exec result err w' Hexec Hrun Hne.
    destruct (toolStep_run Now r ctx sid tc s Hc) as (p & s' & evs & Hstep & Hadv & Hev & HG & _).
    exists p, s', evs, (Now (world s')).
    split; [exact Hstep|]. split; [exact Hadv|]. split; [exact Hev|].
    rewrite HG, retain_last. f_equal.
    unfold toolMessage, outcomeOf. rewrite Hexec, Hrun. simpl.
    unfold model.nonEmpty. destruct (String.eqb_spec (Error err) ""); [contradiction|].
    reflexivity.
  - intros tcs p. apply toolLoop_run, Hc.
  - intros n p resp w2 Herr HC Hne.
    apply (agentLoop_round Now r ctx sid n p s resp w2 Hc Herr HC Hne).
  - intros Hresp message.
    destruct (ProcessMessage_run Now r ctx sid message s Hc) as (p & s0 & -> & Hc0 & Ht0 & _).
    destruct (agentLoop_outcome Now r ctx sid 20 Hresp p s0 Hc0)
      as (res & s' & evs & Hrun & [_ Ht] & Hout).
    exists res, s', evs. split; [exact Hrun|]. split; [now rewrite Ht, Ht0|exact Hout].
Qed.

(** C8, on the code: with [OnError] installed, a turn whose context is
    already cancelled returns the context's error without any event, and
    a turn that exhausts its budget returns the budget error without a
    response, done or error event. *)
Theorem C8_errors_without_onError r ctx (sid message : string) s (onError : error -> W -> W) :
  capped (memory s) ->
  cb_OnError (callbacks r) = Some onError ->
  (forall err, model.Err ctx (world s) = Some err ->
     exists s', ProcessMessage Now r ctx sid message s = Some (Some err, s') /\
                trace s' = trace s) /\
  ((forall w, model.Err ctx w = None) ->
   (forall req w, model.Request_Model req = "" ->
      exists resp w', model.Complete (router r) ctx req w = (inl (Some resp), w') /\
                      model.Response_ToolCalls resp <> []) ->
   exists s' evs,
     ProcessMessage Now r ctx sid message s = Some (Some budgetError, s') /\
     trace s' = trace s ++ evs /\
     Forall (fun e => isTerminal e = false) evs).
Proof.
  intros Hc _. split.
  - intros err Herr.
    destruct (ProcessMessage_run Now r ctx sid message s Hc) as (p & s0 & -> & _ & Ht0 & Hw0).
    exists s0. split; [|exact Ht0].
    cbn [agentLoop]. rewrite bind_readWorld, Hw0, Herr. reflexivity.
  - intros Hlive Hcalls.
    destruct (ProcessMessage_run Now r ctx sid message s Hc) as (p & s0 & -> & Hc0 & Ht0 & _).
    destruct (agentLoop_exhausts Now r ctx sid Hlive Hcalls 20 p s0 Hc0)
      as (s' & evs & Hrun & [_ Ht] & Hq & _).
    exists s', evs. split; [exact Hrun|]. split; [now rewrite Ht, Ht0|exact Hq].
Qed.

End Turn.

(** A router with one provider answers as that provider does. *)
Lemma responds_routerOf (p : model.Provider nat) (exec : option (ToolExecutor nat))
    (cbs : Callbacks nat) (ctx : model.GoContext nat) :
  (forall c req w w', model.Provider_Complete p c req w <> (inl None, w')) ->
  responds {| router := routerOf p; toolExec := exec; callbacks := cbs |} ctx.
Proof.
  intros Hp req w w'. cbn [router]. unfold model.Complete.
  destruct (model.selectProvider (routerOf p) ctx (model.Request_Model req) w)
    as [q|e] eqn:Hsel; [|discriminate].
  assert (Hq : q = p).
  { unfold model.selectProvider in Hsel.
    destruct (model.nonEmpty (model.Request_Model req)).
    - unfold routerOf in Hsel. cbn [model.providers] in Hsel.
      destruct ({[ "ollama" := p ]} !! _) as [q'|] eqn:Hl; [|discriminate].
      injection Hsel as <-. apply lookup_singleton_Some in Hl as [_ <-]. reflexivity.
    - destruct (model.Value_ctxKeyProject ctx); vm_compute in Hsel;
        injection Hsel as <-; reflexivity. }
  subst q.
  destruct (model.Provider_Complete p ctx _ w) as [[[resp|]|err] w1] eqn:HC;
    try discriminate.
  exfalso. exact (Hp _ _ _ _ HC).
Qed.

(** The specification's scenario A: a message answered without tool
    invocations adds a user and an assistant message; response and done
    fire, no tool call does. *)
Example scenario_A :
  summary (runtimeOf (echoProvider "ollama")) "list kafka topics"
  = Some (None, ["thinking"; "response"; "done"],
          [("user", "list kafka topics"); ("assistant", "ollama")]).
Proof. vm_compute. reflexivity. Qed.

(** The same turn with a tool that fails: the failure is fed back as a
    tool message and the turn still ends with the model's final answer. *)
Example scenario_failing_tool :
  summary flakyRuntime "what changed?"
  = Some (None,
          ["thinking"; "tool call"; "tool result"; "thinking"; "response"; "done"],
          [("user", "what changed?"); ("assistant", "");
           ("tool", "Error: exit status 1"); ("assistant", "The tree is clean.")]).
Proof. vm_compute. reflexivity. Qed.

(** Scenario B: one tool invocation, then a final answer. *)
Example scenario_B :
  summary (runtimeOf twoStepProvider) "what changed?"
  = Some (None,
          ["thinking"; "tool call"; "tool result"; "thinking"; "response"; "done"],
          [("user", "what changed?"); ("assistant", ""); ("tool", "clean");
           ("assistant", "The tree is clean.")]).
Proof. vm_compute. reflexivity. Qed.

(** C6, counterexample: when the executor fails with an error whose message
    is empty, the tool message appended for the invocation has empty
    content, not [Error: ]. *)
Lemma C6_empty_message_not_marked :
  (exists p s',
     toolStep ticks silentRuntime background "cli-session" call1 fresh = Some (p, s') /\
     last (Get (memory s') "cli-session")
     = Some {| Role := "tool"; Content := ""; Timestamp := 0; ToolCalls := [];
               ToolCallID := "call-1"; ToolName := "git_status" |}) /\
  ~ errorFedBack ticks silentRuntime background "cli-session" call1 fresh.
Proof.
  assert (Hrun : match toolStep ticks silentRuntime background "cli-session" call1 fresh with
                 | Some (_, s') => last (Get (memory s') "cli-session")
                 | None => None
                 end
                 = Some {| Role := "tool"; Content := ""; Timestamp := 0; ToolCalls := [];
                           ToolCallID := "call-1"; ToolName := "git_status" |})
    by (vm_compute; reflexivity).
  split.
  - destruct (toolStep ticks silentRuntime background "cli-session" call1 fresh)
      as [[p s']|]; [|discriminate].
    exists p, s'. split; [reflexivity|exact Hrun].
  - intros H.
    destruct (H silentExecutor noResult (errorString "") 0%nat eq_refl eq_refl)
      as (p & s' & now & Hstep & Hlast).
    rewrite Hstep, Hlast in Hrun. discriminate Hrun.
Qed.

Lemma C2_iteration_budget_witness :
  exists s' evs,
    ProcessMessage ticks stubRuntime background "cli-session" "what changed?" fresh
    = Some (Some budgetError, s') /\
    trace s' = evs /\ completions evs = 20%nat.
Proof.
  destruct (C2_iteration_budget ticks stubRuntime background "cli-session"
              "what changed?" fresh) as (s' & evs & Hrun & Ht & Hn & _).
  - reflexivity.
  - intros w. reflexivity.
  - intros req w Hm. eexists _, (S w).
    split; [unfold model.Complete, model.selectProvider; rewrite Hm; reflexivity
           |discriminate].
  - exists s', evs. split; [exact Hrun|]. split; [exact Ht|exact Hn].
Defined.

Lemma C6_tool_errors_fed_back_witness :
  exists p s' evs now,
    toolStep ticks stubRuntime background "cli-session" call1 fresh = Some (p, s') /\
    advances fresh s' evs /\
    last (Get (memory s') "cli-session")
    = Some {| Role := "tool"; Content := "Error: exit status 1";
              Timestamp := now; ToolCalls := [];
              ToolCallID := "call-1"; ToolName := "git_status" |}.
Proof.
  destruct (C6_tool_errors_fed_back ticks stubRuntime background "cli-session" fresh)
    as (Hstep & _ & _).
  - reflexivity.
  - destruct (Hstep call1 failingExecutor noResult (errorString "exit status 1") 0%nat)
      as (p & s' & evs & now & Hrun & Hadv & _ & Hlast).
    + reflexivity.
    + reflexivity.
    + discriminate.
    + exists p, s', evs, now. split; [exact Hrun|]. split; [exact Hadv|exact Hlast].
Defined.

Lemma C8_errors_without_onError_witness :
  exists s',
    ProcessMessage ticks stubRuntime cancelled "cli-session" "what changed?" fresh
    = Some (Some (errorString "context canceled"), s') /\
    trace s' = [].
Proof.
  destruct (C8_errors_without_onError ticks stubRuntime cancelled "cli-session"
              "what changed?" fresh (fun _ w => w)) as (Hcancel & _).
  - reflexivity.
  - reflexivity.
  - apply Hcancel. reflexivity.
Defined.

End RuntimeProofs.

(* ===================================================================== *)
(** * Further properties of the code                                      *)
(* ===================================================================== *)

(** ** Conversation memory: bounds, framing, sessions *)

Module MemoryMore.
Import agent MemorySpec MemoryProofs MemoryOps.

Lemma retain_bound (h : list Message) :
  (length h <= 201)%nat -> (length (retain h) <= 200)%nat.
Proof.
  intros H. destruct (decide (200 < length h)%nat) as [Hl|Hs].
  - rewrite retain_length by exact Hl. lia.
  - rewrite retain_short by lia. lia.
Qed.

Lemma Clear_Get (m : Memory) (sid sid' : string) :
  Get (Clear m sid) sid' = if decide (sid = sid') then [] else Get m sid'.
Proof.
  unfold Get, history, Clear; simpl. rewrite lookup_delete.
  destruct (decide (sid = sid')); reflexivity.
Qed.

Lemma run_bounded (ops : list Op) :
  forall m, capped m -> bounded m ->
    exists m', runOps m ops = Some m' /\ capped m' /\ bounded m'.
Proof.
  induction ops as [|[sid msg|sid] ops IH]; intros m Hc Hb; simpl.
  - exists m. auto.
  - rewrite (Add_capped _ _ _ Hc). apply IH; [reflexivity|].
    intros sid'. rewrite Get_insert. destruct (decide (sid = sid')) as [->|_].
    + apply retain_bound. rewrite length_app. simpl. specialize (Hb sid'). lia.
    + specialize (Hb sid'). destruct m; exact Hb.
  - apply IH; [exact Hc|].
    intros sid'. rewrite Clear_Get. destruct (decide (sid = sid')); [simpl; lia|apply Hb].
Qed.

(** X1: whatever calls of [Add] and [Clear] are made on a new memory, none
    panics and no session ever holds more than 200 messages. *)
Theorem X1_sessions_bounded (ops : list Op) (sid : string) :
  exists m',
    runOps NewMemory ops = Some m' /\
    maxSize m' = 200 /\
    0 <= MessageCount m' sid <= 200.
Proof.
  destruct (run_bounded ops NewMemory eq_refl) as (m' & Hrun & Hc & Hb).
  - intros sid'. unfold Get, history, NewMemory; simpl. rewrite lookup_empty. simpl. lia.
  - exists m'. split; [exact Hrun|]. split; [exact Hc|].
    unfold MessageCount. specialize (Hb sid). unfold Get in Hb. lia.
Qed.

Lemma retain_take10 (h : list Message) (x : Message) :
  (10 <= length h)%nat -> take 10 (retain (h ++ [x])) = take 10 h.
Proof.
  intros H. unfold retain.
  destruct (200 <? length (h ++ [x]))%nat.
  - rewrite take_app_le by (rewrite length_take, length_app; cbn [length]; lia).
    rewrite take_take. replace (10 `min` 10)%nat with 10%nat by lia.
    apply take_app_le. lia.
  - apply take_app_le. lia.
Qed.

Lemma retain_grows (h : list Message) (x : Message) :
  (10 <= length h)%nat -> (10 <= length (retain (h ++ [x])))%nat.
Proof.
  intros H. destruct (decide (200 < length (h ++ [x]))%nat) as [Hl|Hs].
  - rewrite retain_length by exact Hl. lia.
  - rewrite retain_short by lia. rewrite length_app. lia.
Qed.

(** X2: once a session holds ten messages, its first ten never change,
    however many messages are appended to it or to other sessions. *)
Theorem X2_early_framing_kept (m : Memory) (sid : string) (ops : list (string * Message)) :
  capped m ->
  (10 <= length (Get m sid))%nat ->
  exists m',
    addAll m ops = Some m' /\
    take 10 (Get m' sid) = take 10 (Get m sid).
Proof.
  revert m. induction ops as [|[s msg] ops IH]; intros m Hc Hlen; simpl.
  - exists m. auto.
  - rewrite (Add_capped _ _ _ Hc).
    set (m1 := {| sessions := _; maxSize := 200 |}).
    assert (Hm1 : Get m1 sid = if decide (s = sid) then retain (Get m s ++ [msg])
                               else Get m sid).
    { unfold m1. rewrite Get_insert. destruct (decide (s = sid)); [reflexivity|].
      destruct m; reflexivity. }
    destruct (IH m1 eq_refl) as (m' & Hrun & Htake).
    + rewrite Hm1. destruct (decide (s = sid)) as [->|_]; [|exact Hlen].
      apply retain_grows, Hlen.
    + exists m'. split; [exact Hrun|]. rewrite Htake, Hm1.
      destruct (decide (s = sid)) as [->|_]; [|reflexivity].
      apply retain_take10, Hlen.
Qed.

Lemma X2_early_framing_kept_witness :
  exists m0 m',
    addAll NewMemory twelve = Some m0 /\
    addAll m0 (map (pair "cli-session") longHistory) = Some m' /\
    take 10 (Get m' "cli-session") = map userMsg (seq 0 10).
Proof.
  destruct (addAll NewMemory twelve) as [m0|] eqn:H0; [|vm_compute in H0; discriminate].
  assert (Hc : capped m0 /\ Get m0 "cli-session" = map userMsg (seq 0 12)).
  { vm_compute in H0. injection H0 as <-. split; reflexivity. }
  destruct Hc as [Hc HG].
  destruct (X2_early_framing_kept m0 "cli-session" (map (pair "cli-session") longHistory) Hc)
    as (m' & Hrun & Htake).
  - rewrite HG. simpl. lia.
  - exists m0, m'. split; [reflexivity|]. split; [exact Hrun|].
    rewrite Htake, HG. reflexivity.
Defined.

(** X3: sessions come and go by [Add] and [Clear].  [Clear] empties the
    session and leaves the others as they were; the count of sessions
    drops by one exactly when the session was stored.  [Add] raises the
    count by one exactly when the key is new and leaves the other sessions
    as they were; after a [Clear] the session starts again from the message
    added. *)
Theorem X3_session_lifecycle (m : Memory) (sid : string) (msg : Message) :
  capped m ->
  Get (Clear m sid) sid = [] /\
  MessageCount (Clear m sid) sid = 0 /\
  (forall sid', sid' <> sid -> Get (Clear m sid) sid' = Get m sid') /\
  SessionCount (Clear m sid) = SessionCount m - stored m sid /\
  (exists m', Add m sid msg = Some m' /\
              SessionCount m' = SessionCount m + (1 - stored m sid) /\
              (forall sid', sid' <> sid -> Get m' sid' = Get m sid')) /\
  (exists m', Add (Clear m sid) sid msg = Some m' /\ Get m' sid = [msg]).
Proof.
  intros Hc. split; [|split; [|split; [|split; [|split]]]].
  - rewrite Clear_Get. destruct (decide (sid = sid)); [reflexivity|done].
  - unfold MessageCount. change (history (Clear m sid) sid) with (Get (Clear m sid) sid).
    rewrite Clear_Get. destruct (decide (sid = sid)); [reflexivity|done].
  - intros sid' Hne. rewrite Clear_Get. destruct (decide (sid = sid')); [congruence|reflexivity].
  - unfold SessionCount, stored, Clear; simpl.
    destruct (sessions m !! sid) as [h|] eqn:Hs.
    + pose proof (map_size_delete sid (sessions m)) as Hd. rewrite Hs in Hd.
      assert (size (sessions m) <> 0%nat).
      { intros H0. apply map_size_empty_inv in H0. rewrite H0, lookup_empty in Hs. discriminate. }
      lia.
    + rewrite delete_id by exact Hs. lia.
  - eexists. split; [apply (Add_capped _ _ _ Hc)|]. split.
    + unfold SessionCount, stored; simpl.
      destruct (sessions m !! sid) as [h|] eqn:Hs.
      * rewrite map_size_insert_Some by (rewrite Hs; eauto). lia.
      * rewrite map_size_insert_None by exact Hs. lia.
    + intros sid' Hne. rewrite Get_insert.
      destruct (decide (sid = sid')); [congruence|]. destruct m; reflexivity.
  - assert (Hcc : capped (Clear m sid)) by exact Hc.
    eexists. split; [apply (Add_capped _ _ _ Hcc)|].
    rewrite Get_insert. destruct (decide (sid = sid)); [|done].
    rewrite Clear_Get. destruct (decide (sid = sid)); [|done]. reflexivity.
Qed.

Lemma X3_session_lifecycle_witness :
  Get (Clear fullMemory "cli-session") "cli-session" = [] /\
  SessionCount (Clear fullMemory "cli-session") = 0.
Proof.
  destruct (X3_session_lifecycle fullMemory "cli-session" (userMsg 0) eq_refl)
    as (HG & _ & _ & HS & _).
  split; [exact HG|]. rewrite HS. reflexivity.
Defined.

End MemoryMore.

(** ** The agent loop: what a turn leaves behind *)

Module RuntimeMore.
Import GoString GoError agent MemorySpec MemoryProofs RouterSpec RuntimeSpec RuntimeProofs TurnSpec
  StringFacts.

Section Turn.
Context {W : Type}.
Variable Now : W -> Z.
Implicit Types (r : Runtime W) (ctx : model.GoContext W) (s : State W).

Lemma observed_map {A B} (f : A -> B) (cb : option A) (e : Event) :
  observed (option_map f cb) e = observed cb e.
Proof. destruct cb; reflexivity. Qed.

(** The state in which the loop starts: the memory holds the user's
    message, nothing else has happened. *)
Lemma ProcessMessage_start r ctx (sid message : string) s :
  capped (memory s) ->
  let h := retain (Get (memory s) sid ++ [userTurn message (Now (world s))]) in
  let s0 := {| memory := {| sessions := <[sid := h]> (sessions (memory s)); maxSize := 200 |};
               world := world s; trace := trace s |} in
  ProcessMessage Now r ctx sid message s
  = agentLoop Now 20 r ctx sid (promptOf r h (world s)) s0 /\
  Get (memory s0) sid = h /\
  (forall sid', sid' <> sid -> Get (memory s0) sid' = Get (memory s) sid').
Proof.
  intros Hc h s0. split; [|split].
  - unfold ProcessMessage.
    rewrite bind_readWorld, bind_memoryAdd by exact Hc.
    unfold bind at 1. rewrite buildContext_run.
    change (Z.to_nat maxIterations) with 20%nat. cbn [memory world].
    fold (userTurn message (Now (world s))). fold h. fold s0.
    unfold promptOf. f_equal. f_equal. f_equal.
    unfold s0. cbn [memory]. rewrite Get_insert.
    destruct (decide (sid = sid)); [reflexivity|done].
  - unfold s0. cbn [memory]. rewrite Get_insert.
    destruct (decide (sid = sid)); [reflexivity|done].
  - intros sid' Hne. unfold s0. cbn [memory]. rewrite Get_insert.
    destruct (decide (sid = sid')); [congruence|]. destruct (memory s); reflexivity.
Qed.

(** X4: on a memory with the default cap, and as long as every
    completion returns a response or an error, a turn never panics,
    whatever the providers, tools and callbacks do; it asks the router for
    at most 20 completions and the memory keeps its cap.  A completion that
    returns neither a response nor an error makes the turn panic: the nil
    response is dereferenced. *)
Theorem X4_turn_bounded r ctx (sid message : string) s :
  capped (memory s) ->
  (responds r ctx ->
   exists res s' evs,
     ProcessMessage Now r ctx sid message s = Some (res, s') /\
     capped (memory s') /\
     trace s' = trace s ++ evs /\
     (completions evs <= 20)%nat) /\
  (forall w2,
     model.Err ctx (world s) = None ->
     model.Complete (router r) ctx
       (requestOf r
          (promptOf r (retain (Get (memory s) sid ++ [userTurn message (Now (world s))]))
                    (world s))
          (applyCb (thinkingCb r) (world s)))
       (applyCb (thinkingCb r) (world s))
     = (inl None, w2) ->
     ProcessMessage Now r ctx sid message s = None).
Proof.
  intros Hc. split.
  - intros Hresp.
    destruct (ProcessMessage_run Now r ctx sid message s Hc) as (p & s0 & -> & Hc0 & Ht0 & _).
    destruct (agentLoop_outcome Now r ctx sid 20 Hresp p s0 Hc0)
      as (res & s' & evs & Hrun & [Hc' Ht] & Hout).
    exists res, s', evs. split; [exact Hrun|]. split; [exact Hc'|].
    split; [now rewrite Ht, Ht0|exact (Outcome_bound _ _ _ _ _ Hout)].
  - intros w2 Herr HC.
    destruct (ProcessMessage_start r ctx sid message s Hc) as (-> & _ & _).
    eapply agentLoop_nil; [exact Herr|exact HC].
Qed.

(** X5: a turn whose context is already done still stores the user's
    message, as the newest message of the session; it returns the
    context's error itself, makes no call and no callback, and leaves the
    other sessions and the world alone. *)
Theorem X5_cancelled_turn_recorded r ctx (sid message : string) s (err : error) :
  capped (memory s) ->
  model.Err ctx (world s) = Some err ->
  exists s',
    ProcessMessage Now r ctx sid message s = Some (Some err, s') /\
    world s' = world s /\
    trace s' = trace s /\
    Get (memory s') sid
      = retain (Get (memory s) sid ++ [userTurn message (Now (world s))]) /\
    last (Get (memory s') sid) = Some (userTurn message (Now (world s))) /\
    (forall sid', sid' <> sid -> Get (memory s') sid' = Get (memory s) sid').
Proof.
  intros Hc Herr.
  destruct (ProcessMessage_start r ctx sid message s Hc) as (-> & HG & Hothers).
  cbn [agentLoop]. rewrite bind_readWorld. cbn [world]. rewrite Herr.
  eexists. split; [reflexivity|].
  split; [reflexivity|]. split; [reflexivity|].
  split; [exact HG|]. split; [|exact Hothers].
  rewrite HG. apply retain_last.
Qed.


(** X7: a turn whose completion fails at the provider.  The error the
    turn returns reads [model completion error: provider NAME: CAUSE]; it
    wraps the router's error, which wraps the provider's.  [OnError]
    receives the router's error, neither response nor done is reported,
    and the session holds the user's message but no answer. *)
Theorem X7_provider_failure r ctx (sid message : string) s (provider : model.Provider W)
    (cause : error) (w2 : W) :
  let h := retain (Get (memory s) sid ++ [userTurn message (Now (world s))]) in
  let w1 := applyCb (thinkingCb r) (world s) in
  let req := requestOf r (promptOf r h (world s)) w1 in
  capped (memory s) ->
  model.Err ctx (world s) = None ->
  model.selectProvider (router r) ctx "" w1 = inl provider ->
  model.Provider_Complete provider ctx (model.ScrubRequest (model.firewall (router r)) req) w1
  = (inr cause, w2) ->
  exists s' err routerErr,
    ProcessMessage Now r ctx sid message s = Some (Some err, s') /\
    Error err = "model completion error: provider " +:+ model.Provider_Name provider
                +:+ ": " +:+ Error cause /\
    Unwrap err = Some routerErr /\
    Unwrap routerErr = Some cause /\
    trace s' = trace s
               ++ observed (cb_OnThinking (callbacks r)) (OnThinking "Thinking...")
               ++ [CallComplete req]
               ++ observed (cb_OnError (callbacks r)) (OnError routerErr) /\
    Get (memory s') sid = h.
Proof.
  intros h w1 req Hc Herr Hsel Hfail.
  destruct (ProcessMessage_start r ctx sid message s Hc) as (-> & HG & _).
  fold h in HG |- *.
  cbn [agentLoop]. rewrite bind_readWorld. cbn [world]. rewrite Herr.
  rewrite bind_invoke, bind_readWorld, bind_emit, bind_callWorld.
  cbn [world memory trace].
  fold (thinkingCb r). fold w1. fold (requestOf r (promptOf r h (world s)) w1). fold req.
  assert (HC : model.Complete (router r) ctx req w1
               = (inr (Errorf_w ("provider " +:+ model.Provider_Name provider +:+ ": ") cause),
                  w2)).
  { unfold model.Complete. change (model.Request_Model req) with "".
    rewrite Hsel, Hfail. reflexivity. }
  rewrite HC. cbn [fst snd]. rewrite bind_invoke. cbn [world memory trace].
  do 3 eexists. split; [reflexivity|]. cbn [world memory trace].
  split; [|split; [reflexivity|split; [reflexivity|split; [|exact HG]]]].
  - unfold Errorf_w, Error. rewrite !append_assoc. reflexivity.
  - unfold thinkingCb. rewrite !observed_map. rewrite <- !app_assoc. reflexivity.
Qed.


(** X9: without a tool executor nothing is executed: the invocation is
    answered by a tool message that reports the missing executor, the
    failure is logged, and [OnToolCall] and [OnToolResult] are still
    reported.  No tool is offered to the model and the system prompt is
    the base prompt. *)
Theorem X9_no_tool_executor r ctx (sid : string) (tc : model.ToolCall) s :
  capped (memory s) ->
  toolExec r = None ->
  exists p s',
    toolStep Now r ctx sid tc s = Some (p, s') /\
    trace s' = trace s
               ++ observed (cb_OnToolCall (callbacks r))
                    (OnToolCall (model.ToolCall_Name tc) (model.ToolCall_Input tc))
               ++ [LogPrintf "Tool execution error: no tool executor configured"]
               ++ observed (cb_OnToolResult (callbacks r))
                    (OnToolResult (model.ToolCall_Name tc)
                                  (failure "no tool executor configured")) /\
    last (Get (memory s') sid)
    = Some {| Role := "tool"; Content := "Error: no tool executor configured";
              Timestamp := Now (world s'); ToolCalls := [];
              ToolCallID := model.ToolCall_ID tc;
              ToolName := model.ToolCall_Name tc |} /\
    (forall w, getToolDefs r w = [] /\ buildSystemPrompt r w = basePrompt).
Proof.
  intros Hc Hnone. unfold toolStep, executeTool. rewrite Hnone.
  rewrite bind_invoke, bind_ret. cbn [snd fst].
  rewrite bind_bind, bind_emit, bind_ret, bind_invoke, bind_readWorld.
  rewrite bind_memoryAdd by exact Hc.
  rewrite buildContext_run. cbn [memory world trace Error Error_ Output].
  do 2 eexists. split; [reflexivity|]. cbn [memory world trace].
  split; [|split].
  - rewrite !observed_map, <- !app_assoc. reflexivity.
  - rewrite Get_insert. destruct (decide (sid = sid)); [|done]. apply retain_last.
  - intros w. unfold getToolDefs, buildSystemPrompt. rewrite Hnone. split; reflexivity.
Qed.

Lemma fold_toolLines (tools : list ToolInfo) (acc : string) :
  fold_left (fun prompt tool =>
               prompt +:+ "- " +:+ ToolInfo_Name tool +:+ ": "
                      +:+ ToolInfo_Description tool +:+ newline) tools acc
  = acc +:+ String.concat "" (map toolLine tools).
Proof.
  revert acc. induction tools as [|t tools IH]; intros acc.
  - simpl. now rewrite append_nil_r.
  - cbn [fold_left map]. rewrite IH.
    destruct tools as [|t' tools'].
    + cbn [map String.concat]. rewrite ?append_nil_r. reflexivity.
    + cbn [map String.concat]. change ("" +:+ ?x) with x. unfold toolLine.
      rewrite ?append_assoc. reflexivity.
Qed.

(** X10: with a tool executor, the system prompt is the base prompt, the
    heading [Available tools:] and one line per listed tool, and the tools
    offered to the model in the request are the same tools, in the same
    order, each without a schema. *)
Theorem X10_prompt_lists_offered_tools r (exec : ToolExecutor W) (w : W) :
  toolExec r = Some exec ->
  buildSystemPrompt r w
  = basePrompt +:+ newline +:+ "Available tools:" +:+ newline
    +:+ String.concat "" (map toolLine (ListTools exec w)) /\
  map (fun d => (model.ToolDef_Name d, model.ToolDef_Description d)) (getToolDefs r w)
  = map (fun t => (ToolInfo_Name t, ToolInfo_Description t)) (ListTools exec w) /\
  Forall (fun d => model.ToolDef_Schema d = None) (getToolDefs r w).
Proof.
  intros Hexec. unfold buildSystemPrompt, getToolDefs. rewrite Hexec.
  split; [|split].
  - rewrite fold_toolLines. rewrite ?append_assoc. reflexivity.
  - rewrite map_map. reflexivity.
  - induction (ListTools exec w) as [|t tools IH]; simpl; constructor;
      [reflexivity|exact IH].
Qed.

End Turn.

Lemma X4_turn_bounded_witness :
  (exists res s' evs,
     ProcessMessage ticks (runtimeOf twoStepProvider) background "cli-session"
       "what changed?" fresh = Some (res, s') /\
     trace s' = evs /\ (completions evs <= 20)%nat) /\
  ProcessMessage ticks (runtimeOf muteProvider) background "cli-session"
    "what changed?" fresh = None.
Proof.
  split.
  - destruct (X4_turn_bounded ticks (runtimeOf twoStepProvider) background "cli-session"
                "what changed?" fresh eq_refl) as [H _].
    destruct H as (res & s' & evs & Hrun & _ & Ht & Hn).
    + apply responds_routerOf. intros c req w w'. discriminate.
    + exists res, s', evs. split; [exact Hrun|]. split; [exact Ht|exact Hn].
  - destruct (X4_turn_bounded ticks (runtimeOf muteProvider) background "cli-session"
                "what changed?" fresh eq_refl) as [_ H].
    apply (H 1%nat); reflexivity.
Defined.

Lemma X5_cancelled_turn_recorded_witness :
  exists s',
    ProcessMessage ticks stubRuntime cancelled "cli-session" "what changed?" fresh
    = Some (Some (errorString "context canceled"), s') /\
    Get (memory s') "cli-session" = [userTurn "what changed?" 0].
Proof.
  destruct (X5_cancelled_turn_recorded ticks stubRuntime cancelled "cli-session"
              "what changed?" fresh (errorString "context canceled"))
    as (s' & Hrun & _ & _ & HG & _).
  - reflexivity.
  - reflexivity.
  - exists s'. split; [exact Hrun|]. rewrite HG. reflexivity.
Defined.


Lemma X7_provider_failure_witness :
  exists s' err,
    ProcessMessage ticks (runtimeOf downProvider) background "cli-session"
      "list kafka topics" fresh = Some (Some err, s') /\
    Error err = "model completion error: provider ollama: connection refused".
Proof.
  destruct (X7_provider_failure ticks (runtimeOf downProvider) background
              "cli-session" "list kafka topics" fresh downProvider
              (errorString "connection refused") 1%nat)
    as (s' & err & routerErr & Hrun & Herr & _).
  - reflexivity.
  - reflexivity.
  - reflexivity.
  - reflexivity.
  - exists s', err. split; [exact Hrun|exact Herr].
Defined.


Lemma X9_no_tool_executor_witness :
  exists p s',
    toolStep ticks bareRuntime background "cli-session" call1 fresh = Some (p, s') /\
    map Content (Get (memory s') "cli-session") = ["Error: no tool executor configured"].
Proof.
  destruct (X9_no_tool_executor ticks bareRuntime background "cli-session" call1 fresh)
    as (p & s' & Hrun & _ & Hlast & _).
  - reflexivity.
  - reflexivity.
  - exists p, s'. split; [exact Hrun|].
    vm_compute in Hrun. injection Hrun as _ <-. reflexivity.
Defined.

Lemma X10_prompt_lists_offered_tools_witness :
  map model.ToolDef_Name (getToolDefs stubRuntime 0%nat) = ["git_status"] /\
  buildSystemPrompt stubRuntime 0%nat
  = basePrompt +:+ newline +:+ "Available tools:" +:+ newline
    +:+ "- git_status: Show the working tree status" +:+ newline.
Proof.
  destruct (X10_prompt_lists_offered_tools stubRuntime failingExecutor 0%nat)
    as (Hprompt & _ & _).
  - reflexivity.
  - split; [reflexivity|]. rewrite Hprompt. reflexivity.
Defined.

End RuntimeMore.

(** ** The secret firewall: replacement, added patterns, clean text *)

Module FirewallMoreProofs.
Import GoString GoError Regexp model FirewallSpec FirewallProofs RouterSpec FirewallMore StringFacts.

(** X11: the replacement for a match that holds a separator keeps the
    text up to the first [:] or [=] and nothing of what follows it,
    whatever that is. *)
Theorem X11_redact_keeps_key_only (key v : string) (c : ascii) :
  IndexAny key ":=" = None ->
  mem c ":=" = true ->
  redact (key +:+ String c v) = key +:+ String c " [REDACTED]".
Proof.
  intros Hkey Hc. unfold redact.
  rewrite (IndexAny_append key v ":=" c Hkey Hc), upto_append, append_assoc.
  reflexivity.
Qed.

Lemma X11_redact_keeps_key_only_witness :
  redact "jdbc:postgresql://db:5432/app?password=hunter2" = "jdbc: [REDACTED]".
Proof.
  apply (X11_redact_keeps_key_only "jdbc" "postgresql://db:5432/app?password=hunter2" ":");
    reflexivity.
Defined.

(** X12: a pattern added with [AddPattern] is applied after the patterns
    already present, to the text they have left; detection tries it last.
    A pattern that does not compile changes nothing and its error is
    returned. *)
Theorem X12_added_pattern_applies_last (f : Firewall) (re : regex) (text : string) :
  snd (AddPattern f (inl re)) = None /\
  ScrubText (fst (AddPattern f (inl re))) text
  = ReplaceAllStringFunc re (ScrubText f text) redact /\
  ContainsSecret (fst (AddPattern f (inl re))) text
  = ContainsSecret f text || MatchString re text /\
  keywords (fst (AddPattern f (inl re))) = keywords f /\
  (forall err, AddPattern f (inr err) = (f, Some err)).
Proof.
  split; [reflexivity|]. split; [|split; [|split; [reflexivity|reflexivity]]].
  - unfold ScrubText, AddPattern; simpl. rewrite fold_left_app. reflexivity.
  - unfold ContainsSecret, AddPattern; simpl. rewrite existsb_app. simpl.
    now rewrite orb_false_r.
Qed.

(** X13: a request in whose messages [ContainsSecret] finds nothing
    reaches the provider with its messages as they were: scrubbing only
    clears the working-directory hint. *)
Theorem X13_clean_request_unchanged (f : Firewall) (req : Request) :
  Forall (fun msg => ContainsSecret f (Message_Content msg) = false) (Request_Messages req) ->
  ScrubRequest f req = withWorkingDir req "".
Proof.
  intros H. unfold ScrubRequest, withWorkingDir. f_equal.
  induction H as [|msg msgs Hmsg _ IH]; [reflexivity|].
  cbn [map]. rewrite IH. rewrite (ScrubText_no_secret _ _ Hmsg).
  destruct msg; reflexivity.
Qed.

Lemma X13_clean_request_unchanged_witness :
  ScrubRequest NewFirewall harmless = withWorkingDir harmless "".
Proof.
  apply (X13_clean_request_unchanged NewFirewall harmless).
  repeat constructor.
Defined.

End FirewallMoreProofs.

(** ** The router: construction, the default model, the catalog *)

Module RouterMoreProofs.
Import GoString GoError model RouterSpec RouterProofs RouterMore StringFacts.

Lemma mem_nonEmpty (s : string) (c : ascii) : mem c s = true -> nonEmpty s = true.
Proof. destruct s; [discriminate|reflexivity]. Qed.

Section Registry.
Context {W : Type}.
Implicit Types (r : Router W) (w : W) (p : Provider W) (ctx : GoContext W).

(** The policy step reads the registry and the policies only. *)
Lemma byPolicy_same r r' ctx w :
  providers r' = providers r ->
  Policies (cfg r') = Policies (cfg r) ->
  byPolicy r' ctx w = byPolicy r ctx w.
Proof.
  intros Hprov Hpol. unfold byPolicy, resolveByPolicy. rewrite Hpol.
  destruct (Value_ctxKeyProject ctx) as [pp|]; [|reflexivity].
  assert (Hfa : forall allowed, firstAllowed r' w allowed = firstAllowed r w allowed).
  { intros allowed. induction allowed as [|n allowed IHa]; [reflexivity|].
    cbn [firstAllowed]. rewrite Hprov, IHa. reflexivity. }
  generalize (Policies (cfg r)). intros ps.
  induction ps as [|q ps IH]; [reflexivity|]. cbn [resolvePolicies].
  rewrite IH, Hfa. reflexivity.
Qed.

Lemma SetDefaultModel_accepts r (modelID : string) p :
  mem "/" modelID = true ->
  providers r !! SplitN2_head modelID "/" = Some p ->
  exists r',
    SetDefaultModel r modelID = (r', None) /\
    DefaultModel (cfg r') = modelID /\
    providers r' = providers r /\
    firewall r' = firewall r /\
    Policies (cfg r') = Policies (cfg r) /\
    (forall ctx w, byPolicy r ctx w = None -> selectProvider r' ctx "" w = inl p).
Proof.
  intros Hslash Hp. unfold SetDefaultModel. rewrite Hslash, Hp. cbn [negb].
  eexists. split; [reflexivity|].
  repeat (split; [reflexivity|]).
  intros ctx w Hpol.
  match goal with |- selectProvider ?r1 _ _ _ = _ => set (r' := r1) end.
  assert (Hby : byPolicy r' ctx w = None)
    by (rewrite (byPolicy_same r r' ctx w eq_refl eq_refl); exact Hpol).
  unfold selectProvider. cbn [nonEmpty String.eqb negb].
  change (match Value_ctxKeyProject ctx with
          | Some pp => resolveByPolicy r' w pp
          | None => None
          end) with (byPolicy r' ctx w).
  rewrite Hby. unfold r'. cbn [cfg providers DefaultModel].
  rewrite (mem_nonEmpty _ _ Hslash), Hp. reflexivity.
Qed.

(** X14: [SetDefaultModel] with an id whose provider part is registered
    succeeds and changes the default model only.  From then on a request
    without a model override that no policy claims goes to that provider;
    requests with an override and the policy step resolve as before. *)
Theorem X14_default_model_switch r (modelID : string) p :
  mem "/" modelID = true ->
  providers r !! SplitN2_head modelID "/" = Some p ->
  exists r',
    SetDefaultModel r modelID = (r', None) /\
    GetDefaultModel r' = modelID /\
    providers r' = providers r /\
    firewall r' = firewall r /\
    Policies (cfg r') = Policies (cfg r) /\
    (forall ctx w, byPolicy r' ctx w = byPolicy r ctx w) /\
    (forall ctx w, byPolicy r ctx w = None -> selectProvider r' ctx "" w = inl p) /\
    (forall ctx w override, override <> "" ->
       selectProvider r' ctx override w = selectProvider r ctx override w).
Proof.
  intros Hslash Hp.
  destruct (SetDefaultModel_accepts r modelID p Hslash Hp)
    as (r' & Hset & Hdef & Hprov & Hfw & Hpol & Hsel).
  exists r'. split; [exact Hset|]. split; [exact Hdef|]. split; [exact Hprov|].
  split; [exact Hfw|]. split; [exact Hpol|].
  split; [intros ctx w; apply byPolicy_same; assumption|]. split; [exact Hsel|].
  intros ctx w override Hne. unfold selectProvider.
  rewrite (CredentialProofs.nonEmpty_true _ Hne), Hprov. reflexivity.
Qed.

(** X15: [SetDefaultModel] wants a slash.  The bare name of a registered
    provider is rejected and the router is left as it was, although the
    same name is accepted as the model override of a request. *)
Theorem X15_bare_provider_name_rejected r (name : string) p :
  mem "/" name = false ->
  name <> "" ->
  providers r !! name = Some p ->
  (exists err, SetDefaultModel r name = (r, Some err) /\
               Unwrap err = None) /\
  (forall ctx w, selectProvider r ctx name w = inl p).
Proof.
  intros Hslash Hne Hp. split.
  - unfold SetDefaultModel. rewrite Hslash. cbn [negb].
    eexists. split; reflexivity.
  - intros ctx w. unfold selectProvider.
    rewrite (CredentialProofs.nonEmpty_true _ Hne).
    rewrite (SplitN2_head_whole _ _ Hslash), Hp. reflexivity.
Qed.

Lemma modelsOf_In (current : string) w (entry : string * Provider W) (e : ModelInfo) :
  In e (modelsOf current w entry) ->
  ModelInfo_Provider e = fst entry /\
  In (ModelInfo_Model e) (Provider_Models (snd entry) w) /\
  ModelInfo_ID e = fst entry +:+ "/" +:+ ModelInfo_Model e /\
  ModelInfo_Active e = String.eqb (ModelInfo_ID e) current /\
  ModelInfo_Status e = (if Provider_Available (snd entry) w then "ready" else "unavailable").
Proof.
  destruct entry as [name p]. unfold modelsOf. intros H.
  apply in_map_iff in H as (m & <- & Hm). cbn. repeat split. exact Hm.
Qed.

Lemma ListModels_In r w (e : ModelInfo) :
  In e (ListModels r w) ->
  exists p,
    providers r !! ModelInfo_Provider e = Some p /\
    In (ModelInfo_Model e) (Provider_Models p w) /\
    ModelInfo_ID e = ModelInfo_Provider e +:+ "/" +:+ ModelInfo_Model e /\
    ModelInfo_Active e = String.eqb (ModelInfo_ID e) (DefaultModel (cfg r)) /\
    ModelInfo_Status e = (if Provider_Available p w then "ready" else "unavailable").
Proof.
  unfold ListModels. intros H. apply in_flat_map in H as ([name p] & Hentry & He).
  apply modelsOf_In in He as (Hprov & Hm & Hid & Hact & Hst). cbn [fst snd] in *.
  exists p. rewrite Hprov. split.
  - apply elem_of_map_to_list. apply list_elem_of_In. exact Hentry.
  - repeat split; assumption.
Qed.

(** X16: every entry of the catalog names a registered provider and one
    of the models it reports; its id is [provider/model], it is active
    exactly when its id is the default model, and its status tells whether
    the provider is available.  Selecting a listed id with
    [SetDefaultModel] succeeds when the provider's name has no slash; the
    next catalog marks that id and no other as active, and requests
    outside any policy go to that provider. *)
Theorem X16_listed_model_selectable r w (e : ModelInfo) :
  In e (ListModels r w) ->
  mem "/" (ModelInfo_Provider e) = false ->
  exists p r',
    providers r !! ModelInfo_Provider e = Some p /\
    In (ModelInfo_Model e) (Provider_Models p w) /\
    ModelInfo_ID e = ModelInfo_Provider e +:+ "/" +:+ ModelInfo_Model e /\
    (ModelInfo_Active e = true <-> ModelInfo_ID e = GetDefaultModel r) /\
    ModelInfo_Status e = (if Provider_Available p w then "ready" else "unavailable") /\
    SetDefaultModel r (ModelInfo_ID e) = (r', None) /\
    (forall ctx, byPolicy r ctx w = None -> selectProvider r' ctx "" w = inl p) /\
    (forall e', In e' (ListModels r' w) ->
       (ModelInfo_Active e' = true <-> ModelInfo_ID e' = ModelInfo_ID e)).
Proof.
  intros He Hslash.
  destruct (ListModels_In r w e He) as (p & Hp & Hm & Hid & Hact & Hst).
  assert (Hmem : mem "/" (ModelInfo_ID e) = true) by (rewrite Hid; apply mem_append).
  assert (Hhead : SplitN2_head (ModelInfo_ID e) "/" = ModelInfo_Provider e)
    by (rewrite Hid; apply SplitN2_head_append, Hslash).
  destruct (SetDefaultModel_accepts r (ModelInfo_ID e) p Hmem)
    as (r' & Hset & Hdef & _ & _ & _ & Hsel); [rewrite Hhead; exact Hp|].
  exists p, r'. split; [exact Hp|]. split; [exact Hm|]. split; [exact Hid|].
  split; [rewrite Hact; apply String.eqb_eq|]. split; [exact Hst|].
  split; [exact Hset|]. split; [intros ctx; apply Hsel|].
  intros e' He'. destruct (ListModels_In r' w e' He') as (_ & _ & _ & _ & Hact' & _).
  rewrite Hact', Hdef. apply String.eqb_eq.
Qed.

Section Construction.
Variable ollamaProvider : string -> string -> Provider W.
Variable anthropicProvider : AnthropicProvider -> Provider W.
Variable openaiProvider : string -> string -> Provider W.

Lemma registerProvider_keys (proxy : string) (ps : gmap string (Provider W))
    (pc : ProviderConfig) (name : string) :
  is_Some (registerProvider ollamaProvider anthropicProvider openaiProvider proxy ps pc
             !! name) ->
  is_Some (ps !! name) \/ In name knownProviders.
Proof.
  unfold registerProvider, knownProviders.
  destruct (String.eqb (ProviderConfig_Name pc) "ollama").
  { rewrite lookup_insert_is_Some. intros [<-|[_ H]]; [right; simpl; tauto|left; exact H]. }
  destruct (String.eqb (ProviderConfig_Name pc) "anthropic").
  { destruct (nonEmpty (ProviderConfig_APIKey pc)); [|left; assumption].
    rewrite lookup_insert_is_Some. intros [<-|[_ H]]; [right; simpl; tauto|left; exact H]. }
  destruct (String.eqb (ProviderConfig_Name pc) "openai"); [|left; assumption].
  rewrite lookup_insert_is_Some. intros [<-|[_ H]]; [right; simpl; tauto|left; exact H].
Qed.

Lemma registered_keys (proxy : string) (configured : list ProviderConfig) :
  forall (ps : gmap string (Provider W)) (name : string),
    is_Some (fold_left (registerProvider ollamaProvider anthropicProvider openaiProvider proxy)
                       configured ps !! name) ->
    is_Some (ps !! name) \/ In name knownProviders.
Proof.
  induction configured as [|pc configured IH]; intros ps name H; [left; exact H|].
  cbn [fold_left] in H. apply IH in H as [H|H]; [|right; exact H].
  apply registerProvider_keys in H. exact H.
Qed.

Lemma ListProviders_In r (name : string) :
  In name (ListProviders r) <-> is_Some (providers r !! name).
Proof.
  unfold ListProviders. rewrite in_map_iff. split.
  - intros ([n p] & <- & Hin). apply list_elem_of_In, elem_of_map_to_list in Hin.
    cbn [fst]. eauto.
  - intros [p Hp]. exists (name, p). split; [reflexivity|].
    apply list_elem_of_In, elem_of_map_to_list. exact Hp.
Qed.

(** X17: a router made by [NewRouter] always has the provider [ollama],
    and no provider under a name other than [ollama], [anthropic] and
    [openai], whatever the configuration lists.  Provider selection for a
    request without a model override therefore never fails on it.
    [ListProviders] lists the registered names, each once. *)
Theorem X17_new_router_has_fallback (proxy : string) (detected : option (Provider W))
    (ai : AIConfig) (configured : list ProviderConfig) :
  let r := NewRouter ollamaProvider anthropicProvider openaiProvider proxy detected ai
                     configured in
  is_Some (providers r !! "ollama") /\
  (forall name, is_Some (providers r !! name) -> In name knownProviders) /\
  (forall ctx w, exists p, selectProvider r ctx "" w = inl p) /\
  In "ollama" (ListProviders r) /\
  (forall name, In name (ListProviders r) -> In name knownProviders) /\
  NoDup (ListProviders r) /\
  cfg r = ai /\
  firewall r = NewFirewall.
Proof.
  intros r.
  cut (is_Some (providers r !! "ollama") /\
       (forall name, is_Some (providers r !! name) -> In name knownProviders) /\
       (forall ctx w, exists p, selectProvider r ctx "" w = inl p)).
  { intros (H1 & H2 & H3). split; [exact H1|]. split; [exact H2|]. split; [exact H3|].
    split; [apply ListProviders_In, H1|].
    split; [intros name Hn; apply H2, ListProviders_In, Hn|].
    split; [apply NoDup_fst_map_to_list|]. split; reflexivity. }
  assert (Hollama : is_Some (providers r !! "ollama")).
  { unfold r, NewRouter. cbn [providers].
    match goal with |- is_Some (match ?m !! "ollama" with _ => _ end !! _) =>
      destruct (m !! "ollama") eqn:Ho end.
    - rewrite Ho. eauto.
    - rewrite lookup_insert. destruct (decide ("ollama" = "ollama")); [eauto|done]. }
  split; [exact Hollama|]. split.
  - intros name. unfold r, NewRouter. cbn [providers].
    set (ps0 := fold_left _ configured ∅).
    assert (H0 : forall n, is_Some (ps0 !! n) -> In n knownProviders).
    { intros n Hn. apply registered_keys in Hn as [Hn|Hn]; [|exact Hn].
      rewrite lookup_empty in Hn. destruct Hn; discriminate. }
    set (ps1 := match ps0 !! "anthropic", detected with
                | None, Some p => <["anthropic" := p]> ps0
                | _, _ => ps0
                end).
    assert (H1 : forall n, is_Some (ps1 !! n) -> In n knownProviders).
    { intros n. unfold ps1. destruct (ps0 !! "anthropic"); [apply H0|].
      destruct detected; [|apply H0].
      rewrite lookup_insert_is_Some. intros [<-|[_ H]]; [simpl; tauto|apply H0, H]. }
    destruct (ps1 !! "ollama"); [apply H1|].
    rewrite lookup_insert_is_Some. intros [<-|[_ H]]; [simpl; tauto|apply H1, H].
  - intros ctx w. unfold selectProvider. cbn [nonEmpty String.eqb negb].
    destruct (match Value_ctxKeyProject ctx with
              | Some pp => resolveByPolicy r w pp
              | None => None
              end) as [p|]; [eauto|].
    destruct (if nonEmpty (DefaultModel (cfg r)) then _ else _) as [p|]; [eauto|].
    destruct (match providers r !! "anthropic" with
              | Some p => if Provider_Available p w then Some p else None
              | None => None
              end) as [p|]; [eauto|].
    destruct Hollama as [p ->]. eauto.
Qed.

End Construction.

End Registry.

Lemma X14_default_model_switch_witness :
  exists r',
    SetDefaultModel (companyRouter (echoProvider "local") (echoProvider "cloud")
                                   "cloud/large" NewFirewall) "local/small"
    = (r', None) /\
    selectProvider r' background "" 0%nat = inl (echoProvider "local").
Proof.
  destruct (X14_default_model_switch
              (companyRouter (echoProvider "local") (echoProvider "cloud")
                             "cloud/large" NewFirewall)
              "local/small" (echoProvider "local"))
    as (r' & Hset & _ & _ & _ & _ & _ & Hsel & _).
  - reflexivity.
  - reflexivity.
  - exists r'. split; [exact Hset|]. apply Hsel. reflexivity.
Defined.

Lemma X15_bare_provider_name_rejected_witness :
  fst (SetDefaultModel (companyRouter (echoProvider "local") (echoProvider "cloud")
                                      "cloud/large" NewFirewall) "local")
  = companyRouter (echoProvider "local") (echoProvider "cloud") "cloud/large" NewFirewall /\
  selectProvider (companyRouter (echoProvider "local") (echoProvider "cloud")
                                "cloud/large" NewFirewall) background "local" 0%nat
  = inl (echoProvider "local").
Proof.
  destruct (X15_bare_provider_name_rejected
              (companyRouter (echoProvider "local") (echoProvider "cloud")
                             "cloud/large" NewFirewall)
              "local" (echoProvider "local")) as ((err & Hset & _) & Hsel).
  - reflexivity.
  - discriminate.
  - reflexivity.
  - split; [rewrite Hset; reflexivity|apply Hsel].
Defined.

Lemma X16_listed_model_selectable_witness :
  exists r',
    SetDefaultModel (companyRouter (echoProvider "local") (echoProvider "cloud")
                                   "cloud/large" NewFirewall) "local/local"
    = (r', None) /\
    selectProvider r' background "" 0%nat = inl (echoProvider "local").
Proof.
  destruct (X16_listed_model_selectable
              (companyRouter (echoProvider "local") (echoProvider "cloud")
                             "cloud/large" NewFirewall) 0%nat
              {| ModelInfo_ID := "local/local"; ModelInfo_Provider := "local";
                 ModelInfo_Model := "local"; ModelInfo_Active := false;
                 ModelInfo_Status := "ready" |})
    as (p & r' & Hp & _ & _ & _ & _ & Hset & Hsel & _).
  - vm_compute. tauto.
  - reflexivity.
  - exists r'. split; [exact Hset|].
    cbn [ModelInfo_Provider] in Hp.
    assert (Hloc : Some (echoProvider "local") = Some p) by (rewrite <- Hp; reflexivity).
    injection Hloc as Hloc. rewrite Hloc. apply Hsel. reflexivity.
Defined.

End RouterMoreProofs.

(** ** Policy patterns *)

Module FilepathMoreProofs.
Import GoString filepath model RouterMore StringFacts.

Lemma plain_cons (c : ascii) (s : string) :
  plain (String c s) = true ->
  Ascii.eqb c "*" = false /\ Ascii.eqb c "?" = false /\ Ascii.eqb c "[" = false /\
  Ascii.eqb c backslash = false /\ plain s = true.
Proof.
  cbn [plain]. intros H. apply andb_true_iff in H as [H Hs].
  apply negb_true_iff in H.
  apply orb_false_elim in H as [H Hb]. apply orb_false_elim in H as [H Hk].
  apply orb_false_elim in H as [Hstar Hq]. auto.
Qed.

Lemma scan_plain (dir : string) :
  plain dir = true -> scan (dir +:+ "*") false = (dir, "*").
Proof.
  induction dir as [|c dir IH]; intros H; [reflexivity|].
  apply plain_cons in H as (Hstar & _ & Hk & Hb & Hs).
  rewrite append_cons. cbn [scan]. rewrite Hb, Hk, Hstar, (IH Hs).
  destruct (Ascii.eqb c "]"); reflexivity.
Qed.

Lemma matchChunkLoop_plain (dir rest : string) :
  plain dir = true ->
  forall fuel, (String.length dir <= fuel)%nat ->
    matchChunkLoop fuel dir (dir +:+ rest) false = Rest rest.
Proof.
  induction dir as [|c dir IH]; intros H fuel Hfuel.
  - destruct fuel; reflexivity.
  - apply plain_cons in H as (_ & Hq & Hk & Hb & Hs).
    destruct fuel as [|fuel]; [simpl in Hfuel; lia|].
    rewrite append_cons. cbn [matchChunkLoop String.length Nat.eqb orb].
    rewrite Hk, Hq, Hb, Ascii.eqb_refl. cbn [negb from].
    apply IH; [exact Hs|]. simpl in Hfuel. lia.
Qed.

Lemma MatchLoop_star (fuel : nat) (name : string) :
  MatchLoop fuel "*" name = Some (negb (Contains name "/")).
Proof. destruct fuel; reflexivity. Qed.

(** X18: a pattern made of a literal prefix and a final star matches a
    path that begins with the prefix exactly when the remainder has no
    separator: the star does not reach into subdirectories.  A policy for
    [/company/*] covers [/company/app] and not [/company/team/app]. *)
Theorem X18_trailing_star_stays_in_directory (dir rest : string) :
  plain dir = true ->
  matched (dir +:+ "*") (dir +:+ rest) = negb (Contains rest "/").
Proof.
  intros H. unfold matched, Match.
  destruct dir as [|c dir]; [destruct rest; reflexivity|].
  pose proof (plain_cons _ _ H) as (Hstar & _).
  rewrite length_append. cbn [String.length].
  replace (S (String.length dir) + 1)%nat with (S (S (String.length dir))) by lia.
  generalize (S (String.length dir)). intros fuel.
  rewrite append_cons. cbn [MatchLoop]. rewrite <- append_cons.
  unfold scanChunk. rewrite append_cons at 1. cbn [stripStars]. rewrite Hstar.
  rewrite <- append_cons. rewrite (scan_plain _ H). cbn [andb].
  unfold matchChunk. rewrite (matchChunkLoop_plain _ rest H) by lia.
  cbn [String.length Nat.eqb negb]. rewrite orb_true_r.
  rewrite MatchLoop_star. reflexivity.
Qed.

Lemma X18_trailing_star_stays_in_directory_witness :
  matched "/company/*" "/company/app" = true /\
  matched "/company/*" "/company/team/app" = false.
Proof.
  split.
  - apply (X18_trailing_star_stays_in_directory "/company/" "app"). reflexivity.
  - apply (X18_trailing_star_stays_in_directory "/company/" "team/app"). reflexivity.
Defined.

End FilepathMoreProofs.

(** ** The Anthropic provider: credential, catalog, request body *)

Module CredentialMoreProofs.
Import GoString GoError model CredentialSpec CredentialProofs CredentialMore StringFacts.
Local Open Scope Z_scope.

Lemma int64_small (z : Z) : - 2 ^ 63 <= z < 2 ^ 63 -> int64 z = z.
Proof. intros H. unfold int64. rewrite Z.mod_small; lia. Qed.

Lemma nonEmpty_neq (s : string) : nonEmpty s = true -> s <> "".
Proof. unfold nonEmpty. destruct (String.eqb_spec s ""); [discriminate|auto]. Qed.

Section Refresh.
Context {W : Type}.
Variable UnixMilli : W -> Z.
Variable Post : string -> string -> string -> W -> PostOutcome * W.
Variable Do : string -> list (string * string) -> W -> DoOutcome * W.


(** X19: [refreshIfNeeded] never blanks a credential.  An access token
    or a refresh token that is present is still present afterwards, the
    kind of credential, the model and the base URL are never changed, and
    when an error is returned the credential is exactly as before. *)
Theorem X19_refresh_keeps_credential (p : AnthropicProvider) (w : W) :
  let p' := snd (fst (refreshIfNeeded UnixMilli Post p w)) in
  (accessToken p <> "" -> accessToken p' <> "") /\
  (refreshToken p <> "" -> refreshToken p' <> "") /\
  isOAuth p' = isOAuth p /\
  model_ p' = model_ p /\
  baseURL p' = baseURL p /\
  (fst (fst (refreshIfNeeded UnixMilli Post p w)) <> None -> p' = p).
Proof.
  unfold refreshIfNeeded.
  destruct (negb (isOAuth p)); [cbn; tauto|].
  destruct (negb (nonEmpty (refreshToken p))); [cbn; tauto|].
  destruct (_ && _); [cbn; tauto|].
  destruct (_ && _); [cbn; tauto|].
  destruct (Post _ _ _ w) as [[err|status body decoded] w'].
  - destruct (nonEmpty (accessToken p)); cbn; tauto.
  - destruct (negb (status =? 200)).
    + destruct (nonEmpty (accessToken p)); cbn; tauto.
    + destruct decoded as [tr|err]; [|cbn; tauto].
      cbn [fst snd accessToken refreshToken isOAuth model_ baseURL].
      split; [|split; [|repeat split; congruence]].
      * destruct (nonEmpty (tokenResp_AccessToken tr)) eqn:Ha; [|auto].
        intros _. apply nonEmpty_neq, Ha.
      * destruct (nonEmpty (tokenResp_RefreshToken tr)) eqn:Hr; [|auto].
        intros _. apply nonEmpty_neq, Hr.
Qed.

(** X20: after an exchange that grants a token with a lifetime of more
    than five minutes, the next call makes no exchange as long as the
    clock is more than five minutes short of the new expiry: it returns nil
    and leaves credential and world alone.  The clock reads milliseconds
    of the current era and the lifetime is given in seconds. *)
Theorem X20_refreshed_token_is_used (p : AnthropicProvider) (w w' w2 : W)
    (body : string) (tr : tokenResp) :
  attempts UnixMilli p w = true ->
  exchange Post p w = (PostResponse 200 body (inl tr), w') ->
  300 < tokenResp_ExpiresIn tr < 10 ^ 15 ->
  10 ^ 12 <= UnixMilli w' < 2 ^ 62 ->
  UnixMilli w2 < UnixMilli w' + (tokenResp_ExpiresIn tr - 300) * 1000 ->
  exists p',
    refreshIfNeeded UnixMilli Post p w = (None, p', w') /\
    expiresAt p' = UnixMilli w' + tokenResp_ExpiresIn tr * 1000 /\
    refreshIfNeeded UnixMilli Post p' w2 = (None, p', w2).
Proof.
  intros Hatt HPost Hexp Hnow Hlater.
  unfold attempts, normalized in Hatt.
  apply andb_true_iff in Hatt as [Hatt Hzero].
  apply andb_true_iff in Hatt as [Hatt Hvalid].
  apply andb_true_iff in Hatt as [Ho Hr].
  apply negb_true_iff in Hvalid. apply negb_true_iff in Hzero.
  unfold exchange in HPost.
  assert (Hexp' : int64 (UnixMilli w' + int64 (tokenResp_ExpiresIn tr * 1000))
                  = UnixMilli w' + tokenResp_ExpiresIn tr * 1000).
  { rewrite (int64_small (tokenResp_ExpiresIn tr * 1000)) by lia.
    apply int64_small. lia. }
  eexists. split; [|split].
  - unfold refreshIfNeeded. rewrite Ho, Hr. cbn [negb].
    rewrite Hvalid, Hzero, HPost. cbn [Z.eqb negb Pos.eqb].
    reflexivity.
  - cbn [expiresAt].
    destruct (0 <? tokenResp_ExpiresIn tr) eqn:Hpos; [exact Hexp'|].
    apply Z.ltb_ge in Hpos. lia.
  - unfold refreshIfNeeded at 1.
    cbn [isOAuth refreshToken expiresAt accessToken]. rewrite ?Ho. cbn [negb].
    assert (Hr' : nonEmpty (if nonEmpty (tokenResp_RefreshToken tr)
                            then tokenResp_RefreshToken tr else refreshToken p) = true).
    { destruct (nonEmpty (tokenResp_RefreshToken tr)) eqn:Htr; [exact Htr|exact Hr]. }
    rewrite Hr'. cbn [negb].
    assert (Hpos : (0 <? tokenResp_ExpiresIn tr) = true) by (apply Z.ltb_lt; lia).
    rewrite Hpos, Hexp'.
    set (e := UnixMilli w' + tokenResp_ExpiresIn tr * 1000).
    assert (He1 : ((0 <? e) && (e <? 10 ^ 12)) = false).
    { apply andb_false_iff. right. apply Z.ltb_ge. unfold e. lia. }
    rewrite He1.
    assert (He2 : ((0 <? e) && (UnixMilli w2 <? int64 (e - 5 * 60 * 1000))) = true).
    { apply andb_true_iff. split; [apply Z.ltb_lt; unfold e; lia|].
      rewrite int64_small by (unfold e; lia). apply Z.ltb_lt. unfold e. lia. }
    rewrite He2. reflexivity.
Qed.

(** X21: an expiry stored in seconds is read as the same instant as the
    expiry stored in milliseconds: the two credentials lead to the same
    decision about the exchange, the same error and the same world. *)
Theorem X21_seconds_or_milliseconds (p : AnthropicProvider) (s : Z) (w : W) :
  10 ^ 9 <= s < 10 ^ 12 ->
  attempts UnixMilli (withExpiry p s) w = attempts UnixMilli (withExpiry p (s * 1000)) w /\
  fst (fst (refreshIfNeeded UnixMilli Post (withExpiry p s) w))
  = fst (fst (refreshIfNeeded UnixMilli Post (withExpiry p (s * 1000)) w)) /\
  snd (refreshIfNeeded UnixMilli Post (withExpiry p s) w)
  = snd (refreshIfNeeded UnixMilli Post (withExpiry p (s * 1000)) w) /\
  accessToken (snd (fst (refreshIfNeeded UnixMilli Post (withExpiry p s) w)))
  = accessToken (snd (fst (refreshIfNeeded UnixMilli Post (withExpiry p (s * 1000)) w))).
Proof.
  intros Hs.
  assert (H1 : ((0 <? s) && (s <? 10 ^ 12)) = true).
  { apply andb_true_iff. split; apply Z.ltb_lt; lia. }
  assert (H2 : ((0 <? s * 1000) && (s * 1000 <? 10 ^ 12)) = false).
  { apply andb_false_iff. right. apply Z.ltb_ge. lia. }
  assert (H3 : int64 (s * 1000) = s * 1000) by (apply int64_small; lia).
  unfold attempts, normalized, refreshIfNeeded.
  cbn [withExpiry isOAuth refreshToken expiresAt accessToken].
  rewrite H1, H2, H3. clear H1 H2 H3.
  split; [reflexivity|].
  destruct (negb (isOAuth p)); [repeat split|].
  destruct (negb (nonEmpty (refreshToken p))); [repeat split|].
  destruct (_ && _); [repeat split|].
  destruct (_ && _); [repeat split|].
  destruct (Post _ _ _ w) as [[err|status body decoded] w'].
  - destruct (nonEmpty (accessToken p)); repeat split.
  - destruct (negb (status =? 200)).
    + destruct (nonEmpty (accessToken p)); repeat split.
    + destruct decoded as [tr|err]; repeat split.
Qed.


(** X23: a provider made by [NewAnthropicProvider] holds no refresh
    token, so [refreshIfNeeded] never contacts the token endpoint for it:
    it returns nil and leaves credential and world alone, also for a key
    with the OAuth prefix.  Its model is never empty.  Without a proxy the
    key is sent as a bearer token when it has the OAuth prefix and as
    [x-api-key] otherwise; behind a proxy no credential is sent. *)
Theorem X23_static_key_provider (proxy apiKey defaultModel : string) (w : W) :
  let p := NewAnthropicProvider proxy apiKey defaultModel in
  refreshIfNeeded UnixMilli Post p w = (None, p, w) /\
  model_ p <> "" /\
  resolveModel p "" = model_ p /\
  Available p = nonEmpty apiKey /\
  (proxy = "" ->
   setAuthHeaders p (accessToken p) (isOAuth p)
   = if HasPrefix apiKey "sk-ant-oat" then [("Authorization", "Bearer " +:+ apiKey)]
     else [("x-api-key", apiKey)]) /\
  (proxy <> "" -> proxy <> defaultAnthropicAPI ->
   forall token oauth, setAuthHeaders p token oauth = []).
Proof.
  intros p. split; [|split; [|split; [|split; [|split]]]].
  - unfold refreshIfNeeded, p, NewAnthropicProvider.
    cbn [isOAuth refreshToken]. destruct (HasPrefix apiKey "sk-ant-oat"); reflexivity.
  - unfold p, NewAnthropicProvider. cbn [model_].
    destruct (nonEmpty defaultModel) eqn:Hm; [apply nonEmpty_neq, Hm|discriminate].
  - reflexivity.
  - reflexivity.
  - intros ->. unfold setAuthHeaders, p, NewAnthropicProvider. cbn [baseURL isOAuth accessToken].
    reflexivity.
  - intros Hp Hd token oauth. unfold setAuthHeaders, p, NewAnthropicProvider. cbn [baseURL].
    rewrite (nonEmpty_true _ Hp).
    destruct (String.eqb_spec proxy defaultAnthropicAPI); [contradiction|reflexivity].
Qed.

End Refresh.

Lemma extractSystem_spec (msgs : list Message) :
  forall (system : string) (messages : list anthropicMessage),
    extractSystem msgs system messages
    = (lastSystem msgs system, messages ++ map toAnthropicMessage (conversation msgs)).
Proof.
  induction msgs as [|msg msgs IH]; intros system messages.
  - simpl. now rewrite app_nil_r.
  - cbn [extractSystem lastSystem conversation].
    destruct (String.eqb (Message_Role msg) "system"); rewrite IH; [reflexivity|].
    cbn [map]. rewrite <- app_assoc. reflexivity.
Qed.

Lemma conversation_id (msgs : list Message) :
  Forall (fun msg => Message_Role msg <> "system") msgs ->
  conversation msgs = msgs /\ forall system, lastSystem msgs system = system.
Proof.
  induction 1 as [|msg msgs Hmsg _ [IH1 IH2]]; [split; reflexivity|].
  cbn [conversation lastSystem].
  destruct (String.eqb_spec (Message_Role msg) "system"); [contradiction|].
  rewrite IH1. split; [reflexivity|exact IH2].
Qed.

(** X24: the request body the Anthropic provider builds from a prompt
    of the shape the agent loop sends: a system message, then messages
    that are not system messages.  The system text is the content of the
    system message and every other message has its counterpart, in order:
    a message with a tool-call id becomes one [tool_result] block with that
    id and the message's content, under the message's own role; an
    assistant message with invocations becomes its text, if any, followed
    by one [tool_use] block per invocation. *)
Theorem X24_request_body (system : Message) (history : list Message) :
  Message_Role system = "system" ->
  Forall (fun msg => Message_Role msg <> "system") history ->
  extractSystem (system :: history) "" []
  = (Message_Content system, map toAnthropicMessage history) /\
  (forall msg, In msg history -> Message_ToolCallID msg <> "" ->
     toAnthropicMessage msg
     = {| anthropicMessage_Role := Message_Role msg;
          anthropicMessage_Content :=
            [toolResultBlock (Message_ToolCallID msg) (Message_Content msg)] |}) /\
  (forall msg, In msg history -> Message_ToolCallID msg = "" ->
     Message_ToolCalls msg <> [] ->
     anthropicMessage_Role (toAnthropicMessage msg) = "assistant" /\
     anthropicMessage_Content (toAnthropicMessage msg)
     = (if nonEmpty (Message_Content msg) then [textBlock (Message_Content msg)] else [])
       ++ map toolUseBlock (Message_ToolCalls msg)).
Proof.
  intros Hsys Hhist. split; [|split].
  - rewrite extractSystem_spec. cbn [lastSystem conversation]. rewrite Hsys. cbn [String.eqb].
    change (String.eqb "system" "system") with true. cbn iota.
    destruct (conversation_id history Hhist) as [-> ->]. reflexivity.
  - intros msg _ Hid. unfold toAnthropicMessage. now rewrite (nonEmpty_true _ Hid).
  - intros msg _ Hid Htc. unfold toAnthropicMessage. rewrite Hid.
    change (nonEmpty "") with false. cbn iota.
    destruct (Message_ToolCalls msg); [contradiction|]. split; reflexivity.
Qed.

Lemma X20_refreshed_token_is_used_witness :
  exists p',
    refreshIfNeeded noon granting (credential "sk-ant-oat-stale" "refresh-1" 1) tt
    = (None, p', tt) /\
    accessToken p' = "sk-ant-oat-new" /\
    refreshIfNeeded noon granting p' tt = (None, p', tt).
Proof.
  destruct (X20_refreshed_token_is_used noon granting
              (credential "sk-ant-oat-stale" "refresh-1" 1) tt tt tt "{}"
              {| tokenResp_AccessToken := "sk-ant-oat-new";
                 tokenResp_RefreshToken := "refresh-2";
                 tokenResp_ExpiresIn := 3600 |})
    as (p' & Hfirst & _ & Hsecond).
  - reflexivity.
  - reflexivity.
  - cbn. lia.
  - unfold noon. lia.
  - unfold noon. cbn. lia.
  - exists p'. split; [exact Hfirst|]. split; [|exact Hsecond].
    assert (H : snd (fst (refreshIfNeeded noon granting
                            (credential "sk-ant-oat-stale" "refresh-1" 1) tt)) = p')
      by (rewrite Hfirst; reflexivity).
    rewrite <- H. reflexivity.
Defined.

Lemma X21_seconds_or_milliseconds_witness :
  fst (fst (refreshIfNeeded noon unreachable
              (withExpiry (credential "" "refresh-1" 0) 1800000000) tt))
  = fst (fst (refreshIfNeeded noon unreachable
                (withExpiry (credential "" "refresh-1" 0) 1800000000000) tt)).
Proof.
  destruct (X21_seconds_or_milliseconds noon unreachable (credential "" "refresh-1" 0)
              1800000000 tt) as (_ & H & _).
  - lia.
  - exact H.
Defined.

Lemma X24_request_body_witness :
  extractSystem
    [ {| Message_Role := "system"; Message_Content := "You are GreenForge.";
         Message_ToolCalls := []; Message_ToolCallID := "" |};
      {| Message_Role := "tool"; Message_Content := "clean";
         Message_ToolCalls := []; Message_ToolCallID := "call-1" |} ] "" []
  = ("You are GreenForge.",
     [ {| anthropicMessage_Role := "tool";
          anthropicMessage_Content := [toolResultBlock "call-1" "clean"] |} ]).
Proof.
  destruct (X24_request_body
              {| Message_Role := "system"; Message_Content := "You are GreenForge.";
                 Message_ToolCalls := []; Message_ToolCallID := "" |}
              [ {| Message_Role := "tool"; Message_Content := "clean";
                   Message_ToolCalls := []; Message_ToolCallID := "call-1" |} ])
    as (H & _).
  - reflexivity.
  - repeat constructor. discriminate.
  - exact H.
Defined.

End CredentialMoreProofs.
